(** * bike-cli: the Strava authentication and synchronisation engine

    A shallow embedding of [src/services/db.js], [src/services/sync.js] and
    [src/services/strava.js], and the properties of the specification that
    concern them.

    Conventions of the embedding.
    - A JavaScript value is a [value]; numbers are the integers plus [NaN]
      (the engine only computes with identifiers, counters and epoch times),
      and what the runtime does with strings as dates or numbers is left to
      the environment.
    - A plain object (a token, a bike, an activity, a gear entry) is a finite
      map from property names to values; reading a missing property gives
      [undefined].
    - An array of records is a [list]; [arr[i] = x] is the list insert and
      [arr.push x] appends at the end.
    - Asynchronous code is sequential here: every [await] of the source is
      a bind of the monad [J], whose state is the [world] (the document file,
      the clock, the source of random identifiers, the requests sent and the
      fields of the one [StravaClient] instance), and whose results are a
      value, a thrown [Error] with its message, or [Pending] for an [await]
      that never settles. *)

From stdpp Require Import gmap strings list fin_maps pretty.
From Stdlib Require Import ZArith.

Set Default Proof Using "Type".

(** ** JavaScript values *)

Inductive value :=
| VUndef
| VNull
| VBool (b : bool)
| VNum (n : Z)
| VNaN
| VStr (s : string).

#[global] Instance value_eq_dec : EqDecision value.
Proof. solve_decision. Defined.

#[global] Instance value_inhabited : Inhabited value := populate VUndef.

(** ToBoolean. *)
Definition truthy (v : value) : bool :=
  match v with
  | VUndef | VNull | VNaN => false
  | VBool b => b
  | VNum n => negb (n =? 0)%Z
  | VStr EmptyString => false
  | VStr _ => true
  end.

(** [a || b] *)
Definition js_or (a b : value) : value := if truthy a then a else b.

(** [a === b]: [NaN] is different from itself. *)
Definition strict_eq (a b : value) : bool :=
  match a with
  | VNaN => false
  | _ => bool_decide (a = b)
  end.

(** Objects and property reads. *)
Abbreviation obj := (gmap string value).

Definition get (o : obj) (k : string) : value := default VUndef (o !! k).

(** An object literal [{ k1: v1, ..., kn: vn }]. *)
Definition literal (kvs : list (string * value)) : obj :=
  foldl (λ o kv, <[kv.1 := kv.2]> o) ∅ kvs.

(** [arr.findIndex(p)], with [None] for JavaScript's [-1]. *)
Fixpoint findIndex {A} (p : A → bool) (l : list A) : option nat :=
  match l with
  | [] => None
  | x :: l' => if p x then Some 0 else S <$> findIndex p l'
  end.

(** ** The document store ([data.json]) *)

Record data := Data {
  meta : obj;
  stravaTokens : list obj;
  bikes : list obj;
  activities : list obj;
  components : list obj;
  maintenanceEvents : list obj;
}.

Definition set_stravaTokens (d : data) (l : list obj) : data :=
  Data (meta d) l (bikes d) (activities d) (components d) (maintenanceEvents d).
Definition set_bikes (d : data) (l : list obj) : data :=
  Data (meta d) (stravaTokens d) l (activities d) (components d) (maintenanceEvents d).
Definition set_activities (d : data) (l : list obj) : data :=
  Data (meta d) (stravaTokens d) (bikes d) l (components d) (maintenanceEvents d).

(** What [JSON.parse (JSON.stringify x)] makes of a record: a property whose
    value is [undefined] is dropped and [NaN] is written as [null]. *)
Definition json_value (v : value) : option value :=
  match v with
  | VUndef => None
  | VNaN => Some VNull
  | _ => Some v
  end.

Definition json_obj (o : obj) : obj := omap json_value o.

Definition json_data (d : data) : data :=
  Data (json_obj (meta d))
       (json_obj <$> stravaTokens d)
       (json_obj <$> bikes d)
       (json_obj <$> activities d)
       (json_obj <$> components d)
       (json_obj <$> maintenanceEvents d).

(** ** The outside world *)

(** The token endpoint is called with one of two grants. *)
Inductive grant :=
| AuthorizationCode (code : string)
| RefreshToken (refresh_token : value).

(** The requests the engine sends. *)
Inductive request :=
| ReqToken (g : grant)
| ReqAthlete (bearer : value)
| ReqActivities (bearer : value) (after before : value) (per_page : Z) (page : nat).

Record httpResponse (B : Type) := Response {
  status : Z;
  text : string;     (* the body as text, read when the status is not 2xx *)
  json : B;          (* the body as JSON, read when it is *)
}.
Arguments Response {B} _ _ _.
Arguments status {B} _.
Arguments text {B} _.
Arguments json {B} _.

Definition ok {B} (r : httpResponse B) : bool :=
  ((200 <=? status r) && (status r <=? 299))%Z.

(** The JSON bodies of the provider, typed at the boundary. *)
Record tokenBody := TokenBody {
  access_token : value;
  refresh_token : value;
  expires_in : Z;
}.

Record athleteBody := AthleteBody {
  athlete_id : value;
  firstname : string;
  lastname : string;
  city : value;
  state : value;
  country : value;
  athlete_bikes : option (list obj);   (* [None]: the property is absent *)
  athlete_shoes : option (list obj);
}.

(** The fields of a [StravaClient] instance. *)
Record client := Client {
  clientId : value;
  clientSecret : value;
  redirectUri : value;
  accessToken : value;
  expiresAt : value;
  athleteId : value;
}.

(** A thrown [Error] carries its message. *)
Inductive result (A : Type) :=
| Ok (a : A)
| Throw (msg : string)
| Pending.
Arguments Ok {A} _.
Arguments Throw {A} _.
Arguments Pending {A}.

(** The loopback HTTP listener of the authorization flow: whether the socket
    is open, whether the timeout timer is armed, how the promise of
    [createCallbackServer] was settled (if it was), and the responses
    written so far. *)
Record reply := Reply {
  statusCode : Z;
  contentType : string;
  body : string;
}.

Record listener := Listener {
  listening : bool;
  timer : bool;
  settled : option (result string);
  replies : list reply;
}.

(** A request as the handler reads it: [url.pathname] and
    [url.searchParams.get] of [code] and [error] ([None] for [null]). *)
Record callbackRequest := CallbackRequest {
  pathname : string;
  code : option string;
  error : option string;
}.

(** What happens to the listener, with the time in ms since it was created. *)
Inductive event :=
| Incoming (at_ms : Z) (req : callbackRequest)
| ServerError (at_ms : Z) (msg : string).

Record world := World {
  disk : option data;     (* the parsed content of data.json, if the file exists *)
  ticks : nat;            (* how many times the clock was read *)
  uuids : nat;            (* how many random identifiers were drawn *)
  log : list request;     (* the requests sent so far, oldest first *)
  self : client;          (* the StravaClient instance *)
  server : option listener;   (* the callback listener, once created *)
}.

Definition set_disk (w : world) (d : option data) : world :=
  World d (ticks w) (uuids w) (log w) (self w) (server w).
Definition set_self (w : world) (c : client) : world :=
  World (disk w) (ticks w) (uuids w) (log w) c (server w).
Definition set_server (w : world) (l : option listener) : world :=
  World (disk w) (ticks w) (uuids w) (log w) (self w) l.

(** What the environment answers: the clock, [crypto.randomUUID], the date
    and number conversions of the runtime, [JSON.stringify], and the
    provider's endpoints (which see how many requests came before), the
    configured credentials and the traffic on the loopback interface. *)
Class env := Env {
  clock : nat → Z;                        (* Date.now() in ms, at the k-th read *)
  randomUUID : nat → string;
  toISOString : Z → string;
  Date_parse : value → option Z;          (* Date.parse(v); [None] is NaN *)
  StringToNumber : string → option Z;     (* [None] is NaN *)
  JSON_stringify : obj → string;
  tokenEndpoint : nat → grant → result (httpResponse tokenBody);
  athleteEndpoint : nat → value → result (httpResponse athleteBody);
  activitiesEndpoint :
    nat → value → value → value → Z → nat → result (httpResponse (option (list obj)));
  credentials : option (value * value * value);   (* getStravaCredentials(config) *)
  openPort : result Z;                    (* the port the system assigns *)
  browser : Z → list event;               (* what reaches the listener on that port *)
}.

(** ** The monad of the engine *)

Definition J (A : Type) : Type := world → result A * world.

#[global] Instance J_ret : MRet J := λ A a w, (Ok a, w).
#[global] Instance J_bind : MBind J := λ A B k m w,
  match m w with
  | (Ok a, w') => k a w'
  | (Throw e, w') => (Throw e, w')
  | (Pending, w') => (Pending, w')
  end.

Definition ret {A} (a : A) : J A := mret a.
Definition throw {A} (msg : string) : J A := λ w, (Throw msg, w).
(** [try { m } catch (error) { h error.message }] *)
Definition try_catch {A} (m : J A) (h : string → J A) : J A :=
  λ w, match m w with
       | (Throw e, w') => h e w'
       | r => r
       end.

Section db.
Context `{E : env}.

(** *** db.js *)

(** [Date.now()] *)
Definition Date_now : J Z :=
  λ w, (Ok (clock (ticks w)),
        World (disk w) (S (ticks w)) (uuids w) (log w) (self w) (server w)).

(** [new Date().toISOString()] *)
Definition now_iso : J value :=
  t ← Date_now; ret (VStr (toISOString t)).

(** [crypto.randomUUID()] *)
Definition generateId : J value :=
  λ w, (Ok (VStr (randomUUID (uuids w))),
        World (disk w) (ticks w) (S (uuids w)) (log w) (self w) (server w)).

(** The file system, as far as [data.json] goes. *)
Definition readFile : J data :=
  λ w, match disk w with
       | Some d => (Ok d, w)
       | None => (Throw "ENOENT: no such file or directory", w)
       end.

Definition writeFile (d : data) : J unit :=
  λ w, (Ok tt, set_disk w (Some (json_data d))).

Definition initializeData : J unit :=
  try_catch (readFile ;; ret tt)
    (λ _, createdAt ← now_iso;
          let initialData :=
            Data (literal [("version", VStr "001"); ("createdAt", createdAt)])
                 [] [] [] [] [] in
          writeFile initialData).

Definition loadData : J data :=
  try_catch readFile (λ _, initializeData ;; readFile).

Definition saveData (d : data) : J unit := writeFile d.

Definition upsertStravaToken (d : data)
    (athleteId accessToken refreshToken expiresAt scopes : value) : J data :=
  let existingIndex :=
    findIndex (λ t, strict_eq (get t "athleteId") athleteId) (stravaTokens d) in
  createdAt ← now_iso;
  updatedAt ← now_iso;
  let token := literal [("athleteId", athleteId);
                        ("accessToken", accessToken);
                        ("refreshToken", refreshToken);
                        ("expiresAt", expiresAt);
                        ("scopes", scopes);
                        ("createdAt", createdAt);
                        ("updatedAt", updatedAt)] in
  match existingIndex with
  | Some i => ret (set_stravaTokens d (<[i := token]> (stravaTokens d)))
  | None => ret (set_stravaTokens d (stravaTokens d ++ [token]))
  end.

(** [Date.parse(t.updatedAt || t.createdAt || "") || 0] *)
Definition tokenTime (t : obj) : Z :=
  default 0%Z
    (Date_parse (js_or (js_or (get t "updatedAt") (get t "createdAt")) (VStr ""))).

Definition getStravaToken (d : data) (athleteId : value) : option obj :=
  match athleteId with
  | VNull | VUndef =>
      foldl (λ latest token,
               match latest with
               | None => Some token
               | Some l => if (tokenTime l <=? tokenTime token)%Z
                           then Some token else Some l
               end)
            None (stravaTokens d)
  | _ => find (λ t, strict_eq (get t "athleteId") athleteId) (stravaTokens d)
  end.

Definition deleteStravaToken (d : data) (athleteId : value) : data :=
  set_stravaTokens d
    (filter (λ t, strict_eq (get t "athleteId") athleteId = false) (stravaTokens d)).

(** [bike.createdAt || new Date().toISOString()]: the clock is read only when
    the left operand is falsy. *)
Definition or_now (v : value) : J value :=
  if truthy v then ret v else now_iso.

Definition upsertBike (d : data) (bike : obj) : J data :=
  let existingIndex :=
    findIndex (λ b, strict_eq (get b "id") (get bike "id")) (bikes d) in
  createdAt ← or_now (get bike "createdAt");
  updatedAt ← now_iso;
  let bikeRecord := <["updatedAt" := updatedAt]> (<["createdAt" := createdAt]> bike) in
  match existingIndex with
  | Some i => ret (set_bikes d (<[i := bikeRecord]> (bikes d)))
  | None => ret (set_bikes d (bikes d ++ [bikeRecord]))
  end.

Definition upsertActivity (d : data) (activity : obj) : J data :=
  let existingIndex :=
    findIndex (λ a, strict_eq (get a "id") (get activity "id")) (activities d) in
  createdAt ← or_now (get activity "createdAt");
  let activityRecord := <["createdAt" := createdAt]> activity in
  match existingIndex with
  | Some i => ret (set_activities d (<[i := activityRecord]> (activities d)))
  | None => ret (set_activities d (activities d ++ [activityRecord]))
  end.

(** [modifyData]: the document is loaded, handed to the modifier, and written
    back only when the modifier has returned.  The modifier mutates the
    loaded copy and may assign variables of its caller; it returns both. *)
Definition modifyData {X} (modifier : data → J (data * X)) : J (data * X) :=
  data ← loadData;
  modified ← modifier data;
  saveData modified.1 ;;
  ret modified.

End db.

(** *** strava.js: the functions of the module *)

Section strava.
Context `{E : env}.

Definition SCOPES : string := "activity:read_all,read".

(** [fetch]: the request is recorded and the endpoint answers. *)
Definition fetch {B} (req : request) (endpoint : nat → result (httpResponse B))
  : J (httpResponse B) :=
  λ w, (endpoint (length (log w)),
        World (disk w) (ticks w) (uuids w) (log w ++ [req]) (self w) (server w)).

Definition fetchJson {B} (req : request) (endpoint : nat → result (httpResponse B))
  : J B :=
  response ← fetch req endpoint;
  if ok response then ret (json response)
  else throw ("Strava API error: " +:+ pretty (status response) +:+ " "
              +:+ text response).

(** What the two token functions return; [scopes] is [undefined] in the
    object that [refreshAccessToken] builds. *)
Record tokens := Tokens {
  tok_accessToken : value;
  tok_refreshToken : value;
  tok_expiresAt : value;
  tok_scopes : value;
}.

Definition exchangeCodeForToken (code : string) : J tokens :=
  response ← fetchJson (ReqToken (AuthorizationCode code))
                       (λ n, tokenEndpoint n (AuthorizationCode code));
  t ← Date_now;
  ret (Tokens (access_token response) (refresh_token response)
              (VNum (t / 1000 + expires_in response)) (VStr SCOPES)).

Definition refreshAccessToken (refreshToken : value) : J tokens :=
  response ← fetchJson (ReqToken (RefreshToken refreshToken))
                       (λ n, tokenEndpoint n (RefreshToken refreshToken));
  t ← Date_now;
  ret (Tokens (access_token response) (refresh_token response)
              (VNum (t / 1000 + expires_in response)) VUndef).

Definition findOpenPort : J Z := λ w, (openPort, w).

(** **** The callback listener

    The primitives the handler of [createCallbackServer] uses. *)

Definition respond (code : Z) (ctype content : string) (l : listener) : listener :=
  Listener (listening l) (timer l) (settled l) (replies l ++ [Reply code ctype content]).

Definition clearTimeout (l : listener) : listener :=
  Listener (listening l) false (settled l) (replies l).

(** [resolve] and [reject] settle the promise once; later calls change
    nothing. *)
Definition settle (r : result string) (l : listener) : listener :=
  match settled l with
  | Some _ => l
  | None => Listener (listening l) (timer l) (Some r) (replies l)
  end.
Definition resolve (v : string) : listener → listener := settle (Ok v).
Definition reject (msg : string) : listener → listener := settle (Throw msg).

(** [server.close(callback)]: the socket stops listening, then the callback
    runs. *)
Definition server_close (callback : listener → listener) (l : listener) : listener :=
  callback (Listener false (timer l) (settled l) (replies l)).

(** A query parameter read with [searchParams.get] is truthy when it is
    present and not empty. *)
Definition param (o : option string) : option string :=
  match o with
  | Some EmptyString | None => None
  | Some s => Some s
  end.

Definition confirmationPage : string :=
"
          <html>
            <head><title>Strava Auth Complete</title></head>
            <body>
              <h1>Authorization successful!</h1>
              <p>You can close this window and return to the terminal.</p>
            </body>
          </html>
        ".

(** The request handler given to [http.createServer]. *)
Definition handler (req : callbackRequest) (l : listener) : listener :=
  if negb (String.eqb (pathname req) "/callback") then
    respond 404 "text/plain" "Not found" l
  else
    let finish callback l := server_close callback (clearTimeout l) in
    match param (error req), param (code req) with
    | Some error, _ =>
        finish (reject ("OAuth error: " +:+ error))
               (respond 400 "text/plain" ("OAuth error: " +:+ error) l)
    | None, Some code =>
        finish (resolve code) (respond 200 "text/html" confirmationPage l)
    | None, None =>
        finish (reject "Missing authorization code")
               (respond 400 "text/plain" "Missing authorization code" l)
    end.

(** The callback of [setTimeout]; the timer is spent once it has run. *)
Definition on_timeout (l : listener) : listener :=
  server_close (reject "Authorization timeout")
               (Listener (listening l) false (settled l) (replies l)).

(** [server.on("error", ...)].  (The callback given to [server.listen] is
    called without an argument once the socket is bound, and does nothing.) *)
Definition on_error (msg : string) (l : listener) : listener :=
  reject msg (clearTimeout l).

Definition event_time (e : event) : Z :=
  match e with
  | Incoming t _ | ServerError t _ => t
  end.

(** One event reaches the listener.  The timer, if still armed, runs first
    when its delay has passed; a socket that is closed takes no request and
    raises no error. *)
Definition deliver (timeoutMs : Z) (l : listener) (e : event) : listener :=
  let l := if timer l && (timeoutMs <=? event_time e)%Z then on_timeout l else l in
  if listening l then
    match e with
    | Incoming _ req => handler req l
    | ServerError _ msg => on_error msg l
    end
  else l.

(** The listener after all the traffic: a timer that is still armed when
    the traffic ends runs at its delay. *)
Definition run_listener (timeoutMs : Z) (events : list event) : listener :=
  let l := foldl (deliver timeoutMs) (Listener true true None []) events in
  if timer l then on_timeout l else l.

Definition createCallbackServer (port : Z) (timeoutMs : Z) : J string :=
  λ w, let l := run_listener timeoutMs (browser port) in
       (match settled l with
        | Some r => r
        | None => Pending
        end, set_server w (Some l)).

End strava.

(** *** strava.js: the class [StravaClient]

    The methods work on the instance held in the world. *)

Module StravaClient.
Section methods.
Context `{E : env}.

Definition this : J client := λ w, (Ok (self w), w).
Definition assign (f : client → client) : J unit :=
  λ w, (Ok tt, set_self w (f (self w))).

Definition set_accessToken (v : value) (c : client) : client :=
  Client (clientId c) (clientSecret c) (redirectUri c) v (expiresAt c) (athleteId c).
Definition set_expiresAt (v : value) (c : client) : client :=
  Client (clientId c) (clientSecret c) (redirectUri c) (accessToken c) v (athleteId c).
Definition set_athleteId (v : value) (c : client) : client :=
  Client (clientId c) (clientSecret c) (redirectUri c) (accessToken c) (expiresAt c) v.

Definition constructor (creds : value * value * value) : client :=
  Client creds.1.1 creds.1.2 creds.2 VNull VNull VNull.

(** ToNumber, [None] for NaN. *)
Definition to_number (v : value) : option Z :=
  match v with
  | VUndef | VNaN => None
  | VNull => Some 0%Z
  | VBool b => Some (if b then 1 else 0)%Z
  | VNum n => Some n
  | VStr s => StringToNumber s
  end.

(** [Math.floor(Date.now() / 1000) >= token.expires_at - 300]; a comparison
    with NaN is false. *)
Definition isTokenExpired (token : obj) : J bool :=
  t ← Date_now;
  ret (match to_number (get token "expires_at") with
       | Some e => (e - 300 <=? t / 1000)%Z
       | None => false
       end).

(** [if (!token) throw new Error(message)] *)
Definition found (token : option obj) (message : string) : J obj :=
  match token with
  | None => throw message
  | Some token => ret token
  end.

Definition loadFromDb : J unit :=
  d ← loadData;
  c ← this;
  token ← found (getStravaToken d (athleteId c))
                "No Strava token found. Run 'bike auth login' first.";
  expired ← isTokenExpired token;
  if expired : bool then
    refreshed ← refreshAccessToken (get token "refreshToken");
    modifyData (λ d : data,
                  c ← this;
                  d' ← upsertStravaToken d (athleteId c)
                         (tok_accessToken refreshed) (tok_refreshToken refreshed)
                         (tok_expiresAt refreshed) (tok_scopes refreshed);
                  ret (d', tt)) ;;
    assign (set_accessToken (tok_accessToken refreshed)) ;;
    assign (set_expiresAt (tok_expiresAt refreshed))
  else
    assign (set_accessToken (get token "accessToken")) ;;
    assign (set_expiresAt (get token "expiresAt")).

Definition ensureToken : J unit :=
  c ← this;
  stale ← (if negb (truthy (accessToken c)) then ret true
           else isTokenExpired (literal [("expires_at", expiresAt c)]));
  if stale : bool then
    d ← loadData;
    c ← this;
    token ← found (getStravaToken d (athleteId c))
                  "No valid Strava token. Run 'bike auth login'.";
    expired ← isTokenExpired token;
    if expired : bool then
      refreshed ← refreshAccessToken (get token "refreshToken");
      modifyData (λ d : data,
                    c ← this;
                    d' ← upsertStravaToken d (athleteId c)
                           (tok_accessToken refreshed) (tok_refreshToken refreshed)
                           (tok_expiresAt refreshed) (VStr SCOPES);
                    ret (d', tt)) ;;
      assign (set_accessToken (tok_accessToken refreshed)) ;;
      assign (set_expiresAt (tok_expiresAt refreshed))
    else
      assign (set_accessToken (get token "accessToken")) ;;
      assign (set_expiresAt (get token "expiresAt"))
  else ret tt.

(** [apiRequest]: the request carries the access token of the instance.  The
    warning written to stderr near the rate limit changes neither the result
    nor the world and is left out. *)
Definition apiRequest {B} (req : value → request)
    (endpoint : nat → value → result (httpResponse B)) : J B :=
  ensureToken ;;
  c ← this;
  response ← fetch (req (accessToken c)) (λ n, endpoint n (accessToken c));
  if ok response then ret (json response)
  else if (status response =? 401)%Z then
    assign (set_accessToken VNull) ;;
    throw "Session expired. Run 'bike auth login' again."
  else throw ("Strava API error (" +:+ pretty (status response) +:+ "): "
              +:+ text response).

Definition getAthlete : J athleteBody :=
  apiRequest ReqAthlete athleteEndpoint.

Definition getActivities (after before : value) (perPage : Z) (page : nat)
  : J (option (list obj)) :=
  apiRequest (λ bearer, ReqActivities bearer after before perPage page)
             (λ n bearer, activitiesEndpoint n bearer after before perPage page).

Definition getGears : J (list obj) :=
  athlete ← getAthlete;
  ret (default [] (athlete_bikes athlete) ++ default [] (athlete_shoes athlete)).

(** What [authorize] returns. *)
Record authorized := Authorized {
  auth_athleteId : value;
  auth_name : string;
  auth_city : value;
  auth_state : value;
  auth_country : value;
  auth_scopes : value;
}.

(** [authorize]; the line printed with the URL to open is left out. *)
Definition authorize : J authorized :=
  port ← findOpenPort;
  try_catch
    (code ← createCallbackServer port 120000;
     tokens ← exchangeCodeForToken code;
     assign (set_accessToken (tok_accessToken tokens)) ;;
     assign (set_expiresAt (tok_expiresAt tokens)) ;;
     athlete ← getAthlete;
     assign (set_athleteId (athlete_id athlete)) ;;
     modifyData (λ d : data, c ← this;
                      d' ← upsertStravaToken d (athleteId c)
                             (tok_accessToken tokens) (tok_refreshToken tokens)
                             (tok_expiresAt tokens) (tok_scopes tokens);
                      ret (d', tt)) ;;
     c ← this;
     ret (Authorized (athleteId c)
                     (firstname athlete +:+ " " +:+ lastname athlete)
                     (city athlete) (state athlete) (country athlete)
                     (tok_scopes tokens)))
    (λ message, throw ("Authorization failed: " +:+ message)).

End methods.
End StravaClient.

Section createStravaClient.
Context `{E : env}.

(** [createStravaClient]: a new instance replaces the one in the world. *)
Definition createStravaClient : J unit :=
  match credentials with
  | None => throw "Strava credentials not configured. Set them in config or env vars:
  bike config set strava.clientId YOUR_ID
  bike config set strava.clientSecret YOUR_SECRET

Or use env vars: BIKE_STRAVA_CLIENT_ID, BIKE_STRAVA_CLIENT_SECRET"
  | Some creds => λ w, (Ok tt, set_self w (StravaClient.constructor creds))
  end.

End createStravaClient.

(** *** sync.js *)

Section sync.
Context `{E : env}.

(** What [syncBikes] and [syncActivities] call on their [stravaClient]. *)
Record StravaClientI := {
  getGears : J (list obj);
  getActivities : value → Z → nat → J (option (list obj));   (* after, perPage, page *)
}.

(** [for (const x of xs) body], threading the state the body mutates. *)
Fixpoint for_of {A S} (xs : list A) (body : S → A → J S) (s : S) : J S :=
  match xs with
  | [] => ret s
  | x :: xs' => s' ← body s x; for_of xs' body s'
  end.

(** [existing?.k] *)
Definition opt_get (o : option obj) (k : string) : value :=
  match o with
  | Some b => get b k
  | None => VUndef
  end.

Definition is_bike (g : obj) : bool :=
  strict_eq (get g "resource_state") (VNum 3) && truthy (get g "gear_id").
Definition is_shoe (g : obj) : bool :=
  strict_eq (get g "resource_state") (VNum 3) && negb (truthy (get g "gear_id")).

(** The bike of [data.bikes] that a gear identifier is matched to. *)
Definition findByGear (d : data) (gear_id : value) : option obj :=
  find (λ b, strict_eq (get b "stravaGearId") gear_id) (bikes d).

(** The body of the loop of [syncBikes]. *)
Definition syncBike (d : data) (bike : obj) : J data :=
  let existing := findByGear d (get bike "gear_id") in
  bikeId ← (if truthy (opt_get existing "id")
            then ret (opt_get existing "id") else generateId);
  upsertBike d
    (literal [("id", bikeId);
              ("name", js_or (js_or (get bike "name") (get bike "nickname"))
                             (VStr "Unnamed Bike"));
              ("type", js_or (get bike "description") VNull);
              ("stravaGearId", get bike "gear_id");
              ("isDefault", js_or (opt_get existing "isDefault") (VBool false));
              ("notes", js_or (get bike "brand_model") VNull)]).

Definition syncBikes (stravaClient : StravaClientI) (athleteId : value)
  : J (nat * nat) :=
  gears ← getGears stravaClient;
  let bikes := List.filter is_bike gears in
  let shoes := List.filter is_shoe gears in
  modifyData (λ d : data, d' ← for_of bikes syncBike d; ret (d', tt)) ;;
  ret (length bikes, length shoes).

(** [new Date(v).getTime()], [None] for an invalid date. *)
Definition new_Date (v : value) : option Z :=
  match v with
  | VStr s => Date_parse (VStr s)
  | VNum n => Some n
  | VBool b => Some (if b then 1 else 0)%Z
  | VNull => Some 0%Z
  | VUndef | VNaN => None
  end.

(** [Math.floor(sinceDate.getTime() / 1000)] *)
Definition sinceTimestamp (since : value) (full : bool) : J value :=
  if truthy since then
    ret (match new_Date since with
         | Some t => VNum (t / 1000)
         | None => VNaN
         end)
  else if full then
    t ← Date_now; ret (VNum ((t - 365 * 24 * 60 * 60 * 1000) / 1000))
  else
    t ← Date_now; ret (VNum ((t - 30 * 24 * 60 * 60 * 1000) / 1000)).

Definition perPage : Z := 200.

(** The variables the modifier of [syncActivities] works on: the loaded
    document and the two counters of the caller. *)
Record progress := Progress {
  doc : data;
  added : nat;
  updated : nat;
}.

(** The record built for one remote activity. *)
Definition activityData (d : data) (athleteId : value) (activity : obj) : obj :=
  let bikeId :=
    if truthy (get activity "gear_id") then
      match findByGear d (get activity "gear_id") with
      | Some bike => get bike "id"
      | None => VNull
      end
    else VNull in
  literal [("id", get activity "id");
           ("athleteId", athleteId);
           ("bikeId", bikeId);
           ("stravaGearId", js_or (get activity "gear_id") VNull);
           ("startDate", get activity "start_date");
           ("distanceM", js_or (get activity "distance") (VNum 0));
           ("movingTimeS", js_or (get activity "moving_time") (VNum 0));
           ("elapsedTimeS", js_or (get activity "elapsed_time") (VNum 0));
           ("elevGainM", js_or (get activity "total_elevation_gain") (VNum 0));
           ("averageSpeedMps", js_or (get activity "average_speed") (VNum 0));
           ("type", js_or (get activity "type") VNull);
           ("rawJson", VStr (JSON_stringify activity))].

(** The body of the inner loop of [syncActivities]. *)
Definition mergeActivity (athleteId : value) (st : progress) (activity : obj)
  : progress :=
  let rec := activityData (doc st) athleteId activity in
  let existingActivity :=
    find (λ a, strict_eq (get a "id") (get activity "id")) (activities (doc st)) in
  let doc' := set_activities (doc st) (activities (doc st) ++ [rec]) in
  match existingActivity with
  | Some _ => Progress doc' (added st) (S (updated st))
  | None => Progress doc' (S (added st)) (updated st)
  end.

(** The [while (true)] loop of [syncActivities], from page [page] on.  The
    fuel bounds the number of fetches; a loop that has not left after that
    many is [Pending]. *)
Fixpoint paginate (fuel : nat) (stravaClient : StravaClientI)
    (athleteId after : value) (page : nat) (st : progress) : J progress :=
  match fuel with
  | 0 => λ w, (Pending, w)
  | S fuel' =>
      activities ← getActivities stravaClient after perPage page;
      match activities with
      | None | Some [] => ret st
      | Some acts =>
          let st' := foldl (mergeActivity athleteId) st acts in
          if (Z.of_nat (length acts) <? perPage)%Z then ret st'
          else paginate fuel' stravaClient athleteId after (S page) st'
      end
  end.

Definition syncActivities (fuel : nat) (stravaClient : StravaClientI)
    (athleteId since : value) (full : bool) : J (nat * nat) :=
  after ← sinceTimestamp since full;
  r ← modifyData (λ d : data,
         st ← paginate fuel stravaClient athleteId after 1 (Progress d 0 0);
         ret (doc st, (added st, updated st)));
  ret r.2.

(** What [sync] returns. *)
Record synced := Synced {
  athlete : StravaClient.authorized;
  sync_bikes : nat * nat;             (* bikesCount, shoesCount *)
  sync_activities : nat * nat;        (* added, updated *)
  sync_since : value;
}.

(** The [StravaClient] instance as [sync] hands it to the two phases. *)
Definition stravaClient : StravaClientI := {|
  getGears := StravaClient.getGears;
  getActivities after perPage page :=
    StravaClient.getActivities after VNull perPage page;
|}.

Definition sync (fuel : nat) (since : value) (full : bool) : J synced :=
  try_catch
    (createStravaClient ;;
     StravaClient.loadFromDb ;;
     a ← StravaClient.authorize;
     bikesResult ← syncBikes stravaClient (StravaClient.auth_athleteId a);
     activitiesResult ← syncActivities fuel stravaClient
                          (StravaClient.auth_athleteId a) since full;
     ret (Synced a bikesResult activitiesResult since))
    (λ message, throw ("Sync failed: " +:+ message)).

End sync.

(** A client that answers from a fixed gear list and a fixed table of
    activity pages, and records the pages it is asked for. *)
Definition scripted (gears : result (list obj))
    (pages : nat → result (option (list obj))) : StravaClientI := {|
  getGears := λ w, (gears, w);
  getActivities after perPage page :=
    λ w, (pages page,
          World (disk w) (ticks w) (uuids w)
                (log w ++ [ReqActivities VUndef after VNull perPage page])
                (self w) (server w));
|}.

(** * Definitions used in the statements *)

Section statements.
Context `{E : env}.

(** The listener is waiting: the socket is open, the timer is armed and the
    promise is not settled. *)
Definition waiting (l : listener) : Prop :=
  listening l = true ∧ timer l = true ∧ settled l = None.

(** The listener has ended with [outcome]: the socket is closed, the timer is
    off and the promise is settled. *)
Definition ended (outcome : result string) (l : listener) : Prop :=
  listening l = false ∧ timer l = false ∧ settled l = Some outcome.

(** No callback arrives in time: whatever reaches the listener before the
    delay is a request for another path. *)
Definition no_callback_before (timeoutMs : Z) (events : list event) : Prop :=
  ∀ ev, ev ∈ events → (event_time ev < timeoutMs)%Z →
    ∃ t req, ev = Incoming t req ∧ pathname req ≠ "/callback".

(** How a request for [/callback] settles the flow. *)
Definition callback_outcome (req : callbackRequest) : result string :=
  match param (error req), param (code req) with
  | Some e, _ => Throw ("OAuth error: " +:+ e)
  | None, Some c => Ok c
  | None, None => Throw "Missing authorization code"
  end.

(** The world after [n] more readings of the clock. *)
Definition after_ticks (n : nat) (w : world) : world :=
  World (disk w) (n + ticks w) (uuids w) (log w) (self w) (server w).

(** Where [upsertStravaToken] writes: the index of the first record of the
    athlete, or the end of the array. *)
Definition token_slot (d : data) (athleteId : value) : nat :=
  default (length (stravaTokens d))
          (findIndex (λ t, strict_eq (get t "athleteId") athleteId) (stravaTokens d)).

(** The record that [upsertStravaToken] builds when the clock was read
    [n] times before. *)
Definition token_record (n : nat) (athleteId accessToken refreshToken expiresAt scopes : value)
  : obj :=
  literal [("athleteId", athleteId);
           ("accessToken", accessToken);
           ("refreshToken", refreshToken);
           ("expiresAt", expiresAt);
           ("scopes", scopes);
           ("createdAt", VStr (toISOString (clock n)));
           ("updatedAt", VStr (toISOString (clock (S n))))].

(** The world after [n] more random identifiers. *)
Definition after_uuids (n : nat) (w : world) : world :=
  World (disk w) (ticks w) (n + uuids w) (log w) (self w) (server w).

(** The identifier [syncBike] chooses for a gear entry, and whether it had to
    draw it. *)
Definition chosen_id (d : data) (bike : obj) (w : world) : value :=
  let existing := findByGear d (get bike "gear_id") in
  if truthy (opt_get existing "id") then opt_get existing "id"
  else VStr (randomUUID (uuids w)).

Definition draws_id (d : data) (bike : obj) : bool :=
  negb (truthy (opt_get (findByGear d (get bike "gear_id")) "id")).

(** The record [syncBike] hands to [upsertBike] and the one that is stored. *)
Definition bike_fields (d : data) (bike : obj) (w : world) : obj :=
  let existing := findByGear d (get bike "gear_id") in
  literal [("id", chosen_id d bike w);
           ("name", js_or (js_or (get bike "name") (get bike "nickname"))
                          (VStr "Unnamed Bike"));
           ("type", js_or (get bike "description") VNull);
           ("stravaGearId", get bike "gear_id");
           ("isDefault", js_or (opt_get existing "isDefault") (VBool false));
           ("notes", js_or (get bike "brand_model") VNull)].

Definition bike_record (d : data) (bike : obj) (w : world) : obj :=
  <["updatedAt" := VStr (toISOString (clock (S (ticks w))))]>
    (<["createdAt" := VStr (toISOString (clock (ticks w)))]> (bike_fields d bike w)).

(** The bike that a gear identifier is matched to, if there is one, has a
    local identifier (a truthy [id]). *)
Definition matched_has_id (d : data) (gear_id : value) : Prop :=
  ∀ b, findByGear d gear_id = Some b → truthy (get b "id") = true.

(** The cursor [syncActivities] sends as [after], and the world once it is
    computed: the clock is read unless [since] is given. *)
Definition cursor (since : value) (full : bool) (w : world) : value :=
  if truthy since then
    match new_Date since with
    | Some t => VNum (t / 1000)
    | None => VNaN
    end
  else if full then VNum ((clock (ticks w) - 365 * 24 * 60 * 60 * 1000) / 1000)
  else VNum ((clock (ticks w) - 30 * 24 * 60 * 60 * 1000) / 1000).

Definition cursor_world (since : value) (w : world) : world :=
  if truthy since then w else after_ticks 1 w.

(** The requests for pages [from], [from + 1], ... ([n] of them) that the
    scripted client records. *)
Definition fetches (after : value) (from n : nat) : list request :=
  (λ page, ReqActivities VUndef after VNull perPage page) <$> seq from n.

Definition with_log (w : world) (l : list request) : world :=
  World (disk w) (ticks w) (uuids w) l (self w) (server w).

(** The statement about a failed page, as the specification has it: when the
    pages before the failing one were full (and so were merged), the sync
    ends with the error and a record of each of their activities is in the
    persisted store. *)
Definition keeps_merged_pages (fuel : nat) (gears : result (list obj))
    (pages : nat → result (option (list obj)))
    (athleteId since : value) (full : bool) (w : world) : Prop :=
  ∀ (full_pages : list (list obj)) (e : string),
    (∀ i p, full_pages !! i = Some p →
            pages (1 + i) = Ok (Some p) ∧ 200 ≤ length p) →
    pages (1 + length full_pages) = Throw e →
    length full_pages < fuel →
    ∃ w', syncActivities fuel (scripted gears pages) athleteId since full w
            = (Throw e, w')
          ∧ ∀ act, act ∈ concat full_pages →
              ∃ d' r, disk w' = Some d' ∧ r ∈ activities d'
                      ∧ get r "id" = get act "id".

End statements.

(** A concrete environment for the examples: the clock shows [1000 * (k + 1)]
    seconds at its [k]-th reading, identifiers are numbered, instants are
    printed in decimal, and nothing answers on the network. *)
Definition offline : env := {|
  clock := λ k, (1000000 * (Z.of_nat k + 1))%Z;
  randomUUID := λ k, "uuid-" +:+ pretty k;
  toISOString := λ t, pretty t;
  Date_parse := λ v, if decide (v = VStr "2025-01-01") then Some 1735689600000%Z
                     else None;
  StringToNumber := λ _, None;
  JSON_stringify := λ _, "{}";
  tokenEndpoint := λ _ _, Throw "fetch failed";
  athleteEndpoint := λ _ _, Throw "fetch failed";
  activitiesEndpoint := λ _ _ _ _ _ _, Throw "fetch failed";
  credentials := Some (VStr "id", VStr "secret", VStr "http://127.0.0.1:8888/callback");
  openPort := Ok 8888%Z;
  browser := λ _, [];
|}.

Definition no_client : client := Client VNull VNull VNull VNull VNull VNull.

Definition empty_store : data := Data ∅ [] [] [] [] [].


(** Gear entries and stores for the examples. *)
Definition gear (resource_state : Z) (gear_id name : string) : obj :=
  literal [("resource_state", VNum resource_state);
           ("gear_id", VStr gear_id);
           ("name", VStr name)].

Definition world_of (d : data) : world := World (Some d) 0 0 [] no_client None.

(** A store with one bike that was given an identifier, and one whose only
    bike has none. *)
Definition one_bike : data :=
  Data ∅ []
       [literal [("id", VStr "3f0c"); ("name", VStr "Tarmac");
                 ("stravaGearId", VStr "b101"); ("isDefault", VBool true)]]
       [] [] [].

Definition bike_without_id : data :=
  Data ∅ []
       [literal [("name", VStr "Tarmac"); ("stravaGearId", VStr "b101")]]
       [] [] [].

(** Remote activities for the examples: [ride i] has identifier [i], and
    [rides from n] are the [n] rides from [from] on. *)
Definition ride (i : nat) : obj :=
  literal [("id", VNum (Z.of_nat i)); ("type", VStr "Ride")].

Definition rides (from n : nat) : list obj := ride <$> seq from n.

(** Three pages of 200, 200 and 120 activities, then nothing. *)
Definition three_pages (page : nat) : result (option (list obj)) :=
  match page with
  | 1 => Ok (Some (rides 1 200))
  | 2 => Ok (Some (rides 201 200))
  | 3 => Ok (Some (rides 401 120))
  | _ => Ok (Some [])
  end.

(** A full first page, and a second page that fails. *)
Definition second_page_fails (page : nat) : result (option (list obj)) :=
  match page with
  | 1 => Ok (Some (rides 1 200))
  | _ => Throw "Strava API error (500): Internal Server Error"
  end.

(** Two rides in the window, on one page. *)
Definition two_rides (page : nat) : result (option (list obj)) :=
  match page with
  | 1 => Ok (Some (rides 101 2))
  | _ => Ok (Some [])
  end.

(** The identifiers of the stored activities. *)
Definition stored_ids (w : world) : option (list value) :=
  (λ d, (λ r, get r "id") <$> activities d) <$> disk w.

(** The environment of the examples with a token endpoint that answers: it
    grants a new access token and rotates the refresh token. *)
Definition rotating : env := {|
  clock := clock (env := offline);
  randomUUID := randomUUID (env := offline);
  toISOString := toISOString (env := offline);
  Date_parse := Date_parse (env := offline);
  StringToNumber := StringToNumber (env := offline);
  JSON_stringify := JSON_stringify (env := offline);
  tokenEndpoint := λ _ _, Ok (Response 200 "" (TokenBody (VStr "A2") (VStr "R2") 21600));
  athleteEndpoint := athleteEndpoint (env := offline);
  activitiesEndpoint := activitiesEndpoint (env := offline);
  credentials := credentials (env := offline);
  openPort := openPort (env := offline);
  browser := browser (env := offline);
|}.

(** The world after athlete 7 was authorized: the token record is the one
    [authorize] writes, through [modifyData] and [upsertStravaToken], with
    an expiry at second 1500. *)
Definition logged_in : world :=
  (modifyData (E := rotating)
     (λ d : data,
        d' ← upsertStravaToken (E := rotating) d (VNum 7) (VStr "A1") (VStr "R1")
                               (VNum 1500) (VStr SCOPES);
        mret (d', tt))
     (world_of empty_store)).2.

(** A store whose token record also has the property [expires_at] that
    [isTokenExpired] reads. *)
Definition store_with_expires_at : data :=
  Data ∅
       [literal [("athleteId", VNum 7);
                 ("accessToken", VStr "A1");
                 ("refreshToken", VStr "R1");
                 ("expiresAt", VNum 900);
                 ("expires_at", VNum 900);
                 ("scopes", VStr SCOPES);
                 ("createdAt", VStr "100000");
                 ("updatedAt", VStr "100000")]]
       [] [] [] [].

(** The environment of the examples with a browser that only asks for the
    icon of the page, and comes back after the delay. *)
Definition idle_browser : env := {|
  clock := clock (env := offline);
  randomUUID := randomUUID (env := offline);
  toISOString := toISOString (env := offline);
  Date_parse := Date_parse (env := offline);
  StringToNumber := StringToNumber (env := offline);
  JSON_stringify := JSON_stringify (env := offline);
  tokenEndpoint := tokenEndpoint (env := rotating);
  athleteEndpoint := athleteEndpoint (env := offline);
  activitiesEndpoint := activitiesEndpoint (env := offline);
  credentials := credentials (env := offline);
  openPort := Ok 49152%Z;
  browser := λ _, [Incoming 2500 (CallbackRequest "/favicon.ico" None None);
                   Incoming 130000 (CallbackRequest "/callback" (Some "4f1c") None)];
|}.

Definition listening_socket : listener := Listener true true None [].

(** * More of the code: the rest of db.js, config.js and the commands of
    cli.js that write the store *)

(** ** db.js: bikes, components, maintenance events *)

Definition set_components (d : data) (l : list obj) : data :=
  Data (meta d) (stravaTokens d) (bikes d) (activities d) l (maintenanceEvents d).
Definition set_maintenanceEvents (d : data) (l : list obj) : data :=
  Data (meta d) (stravaTokens d) (bikes d) (activities d) (components d) l.

Section more_db.
Context `{E : env}.

(** [data.bikes.find((b) => b.id === id) || null] *)
Definition getBike (d : data) (id : value) : option obj :=
  find (λ b, strict_eq (get b "id") id) (bikes d).

Definition getBikeByStravaGearId (d : data) (stravaGearId : value) : option obj :=
  find (λ b, strict_eq (get b "stravaGearId") stravaGearId) (bikes d).

Definition getDefaultBike (d : data) : option obj :=
  find (λ b, truthy (get b "isDefault")) (bikes d).

Definition setDefaultBike (d : data) (id : value) : data :=
  set_bikes d
    ((λ b, <["isDefault" := VBool (strict_eq (get b "id") id)]> b) <$> bikes d).

Definition deleteBike (d : data) (id : value) : data :=
  set_bikes d (List.filter (λ b, negb (strict_eq (get b "id") id)) (bikes d)).

Definition upsertComponent (d : data) (component : obj) : J data :=
  let existingIndex :=
    findIndex (λ c, strict_eq (get c "id") (get component "id")) (components d) in
  createdAt ← or_now (get component "createdAt");
  let componentRecord := <["createdAt" := createdAt]> component in
  match existingIndex with
  | Some i => ret (set_components d (<[i := componentRecord]> (components d)))
  | None => ret (set_components d (components d ++ [componentRecord]))
  end.

(** [data.maintenanceEvents.unshift(eventRecord)] *)
Definition addMaintenanceEvent (d : data) (event : obj) : J data :=
  createdAt ← now_iso;
  let eventRecord := <["createdAt" := createdAt]> event in
  ret (set_maintenanceEvents d (eventRecord :: maintenanceEvents d)).

End more_db.

(** ** config.js: [getStravaCredentials]

    [strava] is the [strava] object of the configuration ([None] when the
    configuration has none) and [environment] is [process.env]. *)
Definition getStravaCredentials (strava : option obj) (environment : obj)
  : option (value * value * value) :=
  let clientId :=
    js_or (opt_get strava "clientId") (get environment "BIKE_STRAVA_CLIENT_ID") in
  let clientSecret :=
    js_or (opt_get strava "clientSecret")
          (get environment "BIKE_STRAVA_CLIENT_SECRET") in
  let redirectUri :=
    js_or (opt_get strava "redirectUri") (VStr "http://127.0.0.1:8888/callback") in
  if negb (truthy clientId) || negb (truthy clientSecret) then None
  else Some (clientId, clientSecret, redirectUri).

(** ** cli.js: the commands that write the store

    Each action is given as what it does to the world and the line it
    prints (without its colour); [program.error] ends the command with its
    message, so it is a throw here. *)

Section cli.
Context `{E : env}.

(** [bike auth logout] *)
Definition auth_logout : J string :=
  r ← modifyData (λ d : data,
         match getStravaToken d (VNum 0) with
         | None => ret (d, "Not authenticated with Strava.")
         | Some token =>
             ret (deleteStravaToken d (get token "athleteId"),
                  "Logged out from Strava.")
         end);
  ret r.2.

(** [bike bikes add <name>], with the values of its three options
    ([undefined] for an option that is not given). *)
Definition bikes_add (name : string) (type stravaGearId notes : value) : J value :=
  bikeId ← generateId;
  modifyData (λ d : data,
    d' ← upsertBike d
           (literal [("id", bikeId);
                     ("name", VStr name);
                     ("type", js_or type VNull);
                     ("stravaGearId", js_or stravaGearId VNull);
                     ("isDefault", VBool false);
                     ("notes", js_or notes VNull)]);
    ret (d', tt)) ;;
  ret bikeId.

(** [bike bikes remove <id>]; the line printed names the bike removed. *)
Definition bikes_remove (id : string) : J value :=
  r ← modifyData (λ d : data,
         match getBike d (VStr id) with
         | None => throw ("Bike not found: " +:+ id)
         | Some bike => ret (deleteBike d (VStr id), get bike "name")
         end);
  ret r.2.

(** [bike bikes rename <id> <name>] *)
Definition bikes_rename (id name : string) : J unit :=
  modifyData (λ d : data,
    match getBike d (VStr id) with
    | None => throw ("Bike not found: " +:+ id)
    | Some bike =>
        d' ← upsertBike d (<["name" := VStr name]> bike);
        ret (d', tt)
    end) ;;
  ret tt.

End cli.

(** ** Definitions used in the statements about this code *)

(** [arr[i] = r] at the first element that [p] takes, or [arr.push(r)]: what
    the four upserts of db.js do to their array. *)
Definition upsert_list {A} (p : A → bool) (r : A) (l : list A) : list A :=
  match findIndex p l with
  | Some i => <[i := r]> l
  | None => l ++ [r]
  end.

(** The records of one athlete, and the bikes with one identifier. *)
Definition tokens_of (athleteId : value) (d : data) : list obj :=
  List.filter (λ t, strict_eq (get t "athleteId") athleteId) (stravaTokens d).

Definition has_id (id : value) (r : obj) : bool := strict_eq (get r "id") id.

(** A value that can be a key: it is equal to itself ([NaN] is not), and a
    token is looked up by it ([null] and [undefined] ask for the latest). *)
Definition is_key (v : value) : Prop := v ≠ VNaN.
Definition names_athlete (v : value) : Prop := v ≠ VNaN ∧ v ≠ VNull ∧ v ≠ VUndef.

(** A bike record as [bike bikes rename] hands it to [upsertBike]: the
    stored bike with a new name. *)
Definition tarmac_renamed : obj :=
  literal [("id", VStr "3f0c"); ("name", VStr "Tarmac SL7");
           ("stravaGearId", VStr "b101"); ("isDefault", VBool true);
           ("createdAt", VStr "2024-05-01T08:00:00.000Z")].

(** The token record and the document of the world [logged_in]. *)
Definition logged_in_token : obj :=
  json_obj (token_record (E := rotating) 0 (VNum 7) (VStr "A1") (VStr "R1")
                         (VNum 1500) (VStr SCOPES)).

Definition logged_in_store : data := set_stravaTokens empty_store [logged_in_token].

(** ** Definitions used in the statements about the client *)

Section client_statements.
Context `{E : env}.

(** The held token is there and not within 300 seconds of its expiry. *)
Definition holds_valid_token (w : world) : Prop :=
  truthy (accessToken (self w)) = true
  ∧ ∃ e, StravaClient.to_number (expiresAt (self w)) = Some e
         ∧ (clock (ticks w) / 1000 < e - 300)%Z.

(** The world once the expiry was compared with the clock and a request was
    sent with the held token. *)
Definition sent (req : value → request) (w : world) : world :=
  World (disk w) (S (ticks w)) (uuids w) (log w ++ [req (accessToken (self w))])
        (self w) (server w).

End client_statements.

(** A client that holds the token of athlete 7, valid until second 1500, and
    the world it lives in. *)
Definition holding_client : client :=
  Client (VStr "id") (VStr "secret") (VStr "http://127.0.0.1:8888/callback")
         (VStr "A1") (VNum 1500) (VNum 7).

Definition holding : world := World (Some logged_in_store) 0 0 [] holding_client None.

(** An endpoint that turns every bearer down. *)
Definition unauthorized : nat → value → result (httpResponse unit) :=
  λ _ _, Ok (Response 401 "Unauthorized" tt).

(** ** Definitions used in the statements about [authorize] and [sync] *)

Section authorize_statements.
Context `{E : env}.

(** A request for [/callback] reaches the listener within the 120 seconds,
    and nothing but requests for other paths came before it. *)
Definition callback_arrives (port : Z) (req : callbackRequest) : Prop :=
  ∃ early rest t,
    browser port = early ++ Incoming t req :: rest
    ∧ (∀ ev, ev ∈ early →
         (event_time ev < 120000)%Z
         ∧ ∃ t' req', ev = Incoming t' req' ∧ pathname req' ≠ "/callback")
    ∧ (t < 120000)%Z
    ∧ pathname req = "/callback".

(** The token that was granted can be used right away: it has an access
    token, and the expiry it is given when the clock is read in world [w] is
    more than 300 seconds after the next reading of the clock. *)
Definition usable (granted : tokenBody) (w : world) : Prop :=
  truthy (access_token granted) = true
  ∧ (clock (S (ticks w)) / 1000 < clock (ticks w) / 1000 + expires_in granted - 300)%Z.

(** What [authorize] returns for a profile. *)
Definition authorized_as (profile : athleteBody) : StravaClient.authorized :=
  StravaClient.Authorized (athlete_id profile)
    (firstname profile +:+ " " +:+ lastname profile)
    (city profile) (state profile) (country profile) (VStr SCOPES).

(** The record [authorize] stores for a grant received in world [w]: the
    clock is read once for the expiry and once by [ensureToken] before the
    two readings of [upsertStravaToken]. *)
Definition granted_record (granted : tokenBody) (profile : athleteBody) (w : world)
  : obj :=
  token_record (2 + ticks w) (athlete_id profile)
               (access_token granted) (refresh_token granted)
               (VNum (clock (ticks w) / 1000 + expires_in granted)) (VStr SCOPES).

End authorize_statements.

(** The environment of the examples with a provider that gives fixed answers
    and fixed traffic on the loopback interface. *)
Definition provider (token : result (httpResponse tokenBody))
    (profile : result (httpResponse athleteBody)) (traffic : list event) : env := {|
  clock := clock (env := offline);
  randomUUID := randomUUID (env := offline);
  toISOString := toISOString (env := offline);
  Date_parse := Date_parse (env := offline);
  StringToNumber := StringToNumber (env := offline);
  JSON_stringify := JSON_stringify (env := offline);
  tokenEndpoint := λ _ _, token;
  athleteEndpoint := λ _ _, profile;
  activitiesEndpoint := activitiesEndpoint (env := offline);
  credentials := credentials (env := offline);
  openPort := Ok 49152%Z;
  browser := λ _, traffic;
|}.

Definition grant_A2 : httpResponse tokenBody :=
  Response 200 "" (TokenBody (VStr "A2") (VStr "R2") 21600).

Definition profile_7 : httpResponse athleteBody :=
  Response 200 "" (AthleteBody (VNum 7) "Ada" "Rider" (VStr "Ghent") VNull (VStr "Belgium")
                               (Some [gear 3 "b101" "Tarmac"]) None).

(** The browser asks for the icon of the page, then comes back with ... *)
Definition comes_back (req : callbackRequest) : list event :=
  [Incoming 2500 (CallbackRequest "/favicon.ico" None None); Incoming 9000 req].

Definition with_code : callbackRequest := CallbackRequest "/callback" (Some "4f1c") None.
Definition denied : callbackRequest :=
  CallbackRequest "/callback" None (Some "access_denied").

Definition turned_down : httpResponse athleteBody :=
  Response 401 "Unauthorized" (json profile_7).

(** The provider grants the token and answers the profile request; it
    grants the token and turns the profile request down; the user refuses. *)
Definition granting : env := provider (Ok grant_A2) (Ok profile_7) (comes_back with_code).
Definition revoking : env := provider (Ok grant_A2) (Ok turned_down) (comes_back with_code).
Definition refusing : env := provider (Ok grant_A2) (Ok profile_7) (comes_back denied).

(** ** Definitions used in the statements about activities and components *)

(** The array [l'] is [l] after [record] was upserted at time [now]: the
    record found under its identifier is [record], with the [createdAt] it
    came with or else [now]; the identifier has one record if it had none
    and as many as before otherwise; the records of other identifiers are
    the same. *)
Definition upserted (l l' : list obj) (record : obj) (now : value) : Prop :=
  ∃ r,
    find (has_id (get record "id")) l' = Some r
    ∧ (∀ k, k ≠ "createdAt" → get r k = get record k)
    ∧ get r "createdAt" = js_or (get record "createdAt") now
    ∧ length (List.filter (has_id (get record "id")) l')
      = Nat.max 1 (length (List.filter (has_id (get record "id")) l))
    ∧ ∀ other, other ≠ get record "id" →
        List.filter (has_id other) l' = List.filter (has_id other) l.

(** A ride as [upsertActivity] would be given it. *)
Definition ride_record : obj :=
  literal [("id", VNum 101); ("type", VStr "Ride"); ("distanceM", VNum 42000)].

(** ** utils/maintenance.js: [logMaintenance]

    [getBikes] sorts [data.bikes] in place with a comparator that reads
    [isDefault] and calls [name.localeCompare]; which pairs the runtime
    compares is its own business, and the comparator throws on a bike
    without a name.  The sort is therefore a parameter: it gives the sorted
    array or the error. *)

Section maintenance.
Context `{E : env}.
Variable sort_bikes : list obj → result (list obj).

(** [getBikes(data)]: the array of the document, sorted in place. *)
Definition getBikes (d : data) : J (data * list obj) :=
  λ w, match sort_bikes (bikes d) with
       | Ok sorted => (Ok (set_bikes d sorted, sorted), w)
       | Throw e => (Throw e, w)
       | Pending => (Pending, w)
       end.

Definition logMaintenance (bikeId kind componentId metersAt notes : value) : J unit :=
  data ← loadData;
  eventId ← generateId;
  sorted ← getBikes data;
  match find (λ b, strict_eq (get b "id") bikeId) sorted.2 with
  | None => throw "Bike not found"
  | Some _ =>
      occurredAt ← now_iso;
      let event := literal [("id", eventId);
                            ("bikeId", bikeId);
                            ("componentId", js_or componentId VNull);
                            ("kind", kind);
                            ("occurredAt", occurredAt);
                            ("metersAt", metersAt);
                            ("notes", js_or notes VNull)] in
      addMaintenanceEvent sorted.1 event ;;
      ret tt
  end.

End maintenance.

(** A sort that leaves a single bike where it is. *)
Definition sort_one (l : list obj) : result (list obj) := Ok l.

(** ** Definitions used in the statements about the pagination of the client *)

Section pagination_statements.
Context `{E : env}.

(** The held token stays valid for the next [n] readings of the clock. *)
Definition valid_for (n : nat) (w : world) : Prop :=
  truthy (accessToken (self w)) = true
  ∧ ∃ e, StravaClient.to_number (expiresAt (self w)) = Some e
         ∧ ∀ k, k < n → (clock (ticks w + k) / 1000 < e - 300)%Z.

(** The provider answers the [i]-th request from world [w] on, which asks
    for page [from + i] with the held token, with a 2xx response that
    carries [body]. *)
Definition answers (w : world) (after : value) (from i : nat)
    (body : option (list obj)) : Prop :=
  ∃ response,
    activitiesEndpoint (length (log w) + i) (accessToken (self w)) after VNull
                       perPage (from + i) = Ok response
    ∧ ok response = true
    ∧ json response = body.

(** The requests for pages [from], [from + 1], ... ([n] of them) as the
    client sends them. *)
Definition bearer_fetches (bearer after : value) (from n : nat) : list request :=
  (λ page, ReqActivities bearer after VNull perPage page) <$> seq from n.

End pagination_statements.

(** The environment of the examples with a provider that has the three
    pages of [three_pages], for whoever presents the access token A1. *)
Definition paged_remote : env := {|
  clock := clock (env := offline);
  randomUUID := randomUUID (env := offline);
  toISOString := toISOString (env := offline);
  Date_parse := Date_parse (env := offline);
  StringToNumber := StringToNumber (env := offline);
  JSON_stringify := JSON_stringify (env := offline);
  tokenEndpoint := tokenEndpoint (env := offline);
  athleteEndpoint := athleteEndpoint (env := offline);
  activitiesEndpoint := λ _ bearer _ _ _ page,
    if decide (bearer = VStr "A1") then
      match three_pages page with
      | Ok body => Ok (Response 200 "" body)
      | Throw e => Throw e
      | Pending => Pending
      end
    else Ok (Response 401 "Unauthorized" None);
  credentials := credentials (env := offline);
  openPort := openPort (env := offline);
  browser := browser (env := offline);
|}.

(** A client that holds the token A1 for a long time, over an empty store. *)
Definition riding : world :=
  World (Some empty_store) 0 0 []
        (Client (VStr "id") (VStr "secret") (VStr "http://127.0.0.1:8888/callback")
                (VStr "A1") (VNum 100000) (VNum 7))
        None.

(** ** Definitions used in the statement about gear sync through the client *)

(** [getGears] of a profile: [bikes] then [shoes], an absent list being
    empty. *)
Definition gears_of (profile : athleteBody) : list obj :=
  default [] (athlete_bikes profile) ++ default [] (athlete_shoes profile).

(** The environment of the examples with a provider whose profile has one
    resolved bike, one unresolved bike and one pair of shoes. *)
Definition profile_gear : httpResponse athleteBody :=
  Response 200 ""
    (AthleteBody (VNum 7) "Ada" "Rider" VNull VNull VNull
       (Some [gear 3 "b101" "Tarmac SL7"; gear 2 "b202" "Crux"])
       (Some [literal [("resource_state", VNum 3); ("name", VStr "Torch")]])).

Definition gear_remote : env := provider (Ok grant_A2) (Ok profile_gear) [].

(** ** Definitions used in the statement about the local identifiers of bikes *)

(** The local identifiers of the stored bikes, in the order of the array. *)
Definition bike_ids (d : data) : list value := (λ b, get b "id") <$> bikes d.

(** Every bike has a local identifier (a truthy [id]) and no two bikes share
    one. *)
Definition well_keyed (d : data) : Prop :=
  NoDup (bike_ids d) ∧ ∀ id, id ∈ bike_ids d → truthy id = true.

(** The local identifier that a gear identifier is matched to: the [id] of
    the first bike that has it as [stravaGearId]. *)
Definition local_id (d : data) (gear_id : value) : option value :=
  (λ b, get b "id") <$> findByGear d gear_id.

Section identifier_statements.
Context `{E : env}.

(** From its [n]-th call on, [crypto.randomUUID] gives identifiers that are
    not empty, that no bike of the store has, and that differ from one
    another. *)
Definition fresh_ids (n : nat) (d : data) : Prop :=
  (∀ k, randomUUID (n + k) ≠ "" ∧ VStr (randomUUID (n + k)) ∉ bike_ids d)
  ∧ ∀ k k', randomUUID (n + k) = randomUUID (n + k') → k = k'.

(** The identifier was drawn between the worlds [w] and [w']. *)
Definition drawn (w w' : world) (id : value) : Prop :=
  ∃ k, uuids w + k < uuids w' ∧ id = VStr (randomUUID (uuids w + k)).

(** The statement about fresh identifiers as the specification has it, for
    every store: when every gear entry that is synced has a bike with its
    [stravaGearId], the sync generates no identifier. *)
Definition fresh_id_only_without_match (stravaClient : StravaClientI)
    (athleteId : value) (w : world) : Prop :=
  ∀ gears w1 d counts w',
    getGears stravaClient w = (Ok gears, w1) →
    disk w1 = Some d →
    syncBikes stravaClient athleteId w = (Ok counts, w') →
    (∀ g, g ∈ gears → is_bike g = true →
          is_Some (findByGear d (get g "gear_id"))) →
    uuids w' = uuids w1.

End identifier_statements.

(** A gear list with the bike of the store [one_bike], a bike the store does
    not have, an unresolved entry and a pair of shoes. *)
Definition garage : list obj :=
  [gear 3 "b101" "Tarmac SL7"; gear 3 "b202" "Crux"; gear 2 "b303" "Diverge";
   literal [("resource_state", VNum 3); ("name", VStr "Torch")]].
(** * Properties *)

(** ** The monad and the array primitives *)

Lemma bind_Ok {A B} (m : J A) (k : A → J B) (w w' : world) (a : A) :
  m w = (Ok a, w') → (m ≫= k) w = k a w'.
Proof. intros H. unfold mbind, J_bind. by rewrite H. Qed.

Lemma bind_Throw {A B} (m : J A) (k : A → J B) (w w' : world) (e : string) :
  m w = (Throw e, w') → (m ≫= k) w = (Throw e, w').
Proof. intros H. unfold mbind, J_bind. by rewrite H. Qed.

Lemma bind_Pending {A B} (m : J A) (k : A → J B) (w w' : world) :
  m w = (Pending, w') → (m ≫= k) w = (Pending, w').
Proof. intros H. unfold mbind, J_bind. by rewrite H. Qed.

Lemma findIndex_Some {A} (p : A → bool) (l : list A) (i : nat) :
  findIndex p l = Some i →
  ∃ x, l !! i = Some x ∧ p x = true ∧ ∀ j y, j < i → l !! j = Some y → p y = false.
Proof.
  revert i. induction l as [|x l IH]; intros i; simpl; [done|].
  destruct (p x) eqn:Hx.
  - intros [= <-]. exists x. repeat split; [done|]. intros j y Hj. lia.
  - destruct (findIndex p l) as [i'|] eqn:Hi; simpl; [|done].
    intros [= <-]. destruct (IH i' eq_refl) as (y & Hy & Hpy & Hbefore).
    exists y. repeat split; [done..|].
    intros [|j] z Hj; simpl; [by intros [= <-]|].
    intros Hz. apply (Hbefore j); [lia|done].
Qed.

Lemma findIndex_None {A} (p : A → bool) (l : list A) :
  findIndex p l = None → ∀ x, x ∈ l → p x = false.
Proof.
  induction l as [|x l IH]; simpl; intros H y Hy.
  - by apply elem_of_nil in Hy.
  - destruct (p x) eqn:Hx; [done|].
    destruct (findIndex p l) eqn:Hi; [done|].
    apply elem_of_cons in Hy as [->|Hy]; [done|by apply IH].
Qed.

Lemma findIndex_lt {A} (p : A → bool) (l : list A) (i : nat) :
  findIndex p l = Some i → i < length l.
Proof.
  intros H. destruct (findIndex_Some _ _ _ H) as (x & Hx & _).
  by eapply lookup_lt_Some.
Qed.

(** [find] and [findIndex] agree on the element they stop at. *)
Lemma find_findIndex {A} (p : A → bool) (l : list A) :
  find p l = (findIndex p l ≫= λ i, l !! i).
Proof.
  induction l as [|x l IH]; simpl; [done|].
  destruct (p x); [done|]. rewrite IH. by destruct (findIndex p l).
Qed.

(** ** The document file ([loadData], [modifyData]) *)

Section document.
Context `{E : env}.

Lemma loadData_Some (w : world) (d : data) :
  disk w = Some d → loadData w = (Ok d, w).
Proof. intros H. unfold loadData, try_catch, readFile. by rewrite H. Qed.

(** [loadData] always gives a document: the one on disk, or the initial one
    it has just written. *)
Lemma loadData_total (w : world) :
  ∃ d w', loadData w = (Ok d, w') ∧ disk w' = Some d ∧ uuids w' = uuids w ∧ log w' = log w.
Proof.
  destruct (disk w) as [d|] eqn:Hd.
  - exists d, w. by rewrite (loadData_Some w d Hd).
  - unfold loadData, try_catch, readFile. rewrite Hd.
    unfold mbind, J_bind, initializeData, try_catch, readFile.
    unfold mbind, J_bind. rewrite Hd. simpl.
    eexists _, _. split; [reflexivity|]. done.
Qed.

(** The modifier returned: its document is written back. *)
Lemma modifyData_Ok {X} (modifier : data → J (data * X))
    (w w1 w2 : world) (d : data) (r : data * X) :
  loadData w = (Ok d, w1) →
  modifier d w1 = (Ok r, w2) →
  modifyData modifier w = (Ok r, set_disk w2 (Some (json_data r.1))).
Proof.
  intros Hload Hmod. unfold modifyData.
  erewrite bind_Ok; [|exact Hload]. erewrite bind_Ok; [|exact Hmod].
  reflexivity.
Qed.

(** The modifier threw: nothing is written, the error goes on to the
    caller. *)
Lemma modifyData_Throw {X} (modifier : data → J (data * X))
    (w w1 w2 : world) (d : data) (e : string) :
  loadData w = (Ok d, w1) →
  modifier d w1 = (Throw e, w2) →
  modifyData modifier w = (Throw e, w2).
Proof.
  intros Hload Hmod. unfold modifyData.
  erewrite bind_Ok; [|exact Hload]. erewrite bind_Throw; [|exact Hmod].
  reflexivity.
Qed.

End document.

(** ** Token records ([upsertStravaToken]) *)

Section token_store.
Context `{E : env}.

Lemma upsertStravaToken_eq (d : data) (a acc ref exp sc : value) (w : world) :
  upsertStravaToken d a acc ref exp sc w =
  (Ok (set_stravaTokens d
         (match findIndex (λ t, strict_eq (get t "athleteId") a) (stravaTokens d) with
          | Some i => <[i := token_record (ticks w) a acc ref exp sc]> (stravaTokens d)
          | None => stravaTokens d ++ [token_record (ticks w) a acc ref exp sc]
          end)),
   after_ticks 2 w).
Proof.
  unfold upsertStravaToken, token_record, after_ticks.
  destruct (findIndex _ (stravaTokens d)); reflexivity.
Qed.

Lemma upsertStravaToken_slot (d : data) (a acc ref exp sc : value) (w : world) (d' : data) (w' : world) :
  upsertStravaToken d a acc ref exp sc w = (Ok d', w') →
  stravaTokens d' !! token_slot d a = Some (token_record (ticks w) a acc ref exp sc).
Proof.
  rewrite upsertStravaToken_eq. intros [= <- _]. unfold token_slot. simpl.
  destruct (findIndex _ (stravaTokens d)) as [i|] eqn:Hi; simpl.
  - apply list_lookup_insert_eq. by eapply findIndex_lt.
  - by apply list_lookup_middle.
Qed.

End token_store.

(** C10.  Whatever the store holds, [upsertStravaToken] writes one record,
    at the place of the athlete's record if there is one and at the end
    otherwise, and both [createdAt] and [updatedAt] of that record are
    readings of the clock taken during the call: the [createdAt] of a
    record that is replaced is not kept. *)
Theorem upsertStravaToken_stamps_both `{E : env}
    (d : data) (athleteId accessToken refreshToken expiresAt scopes : value)
    (w : world) :
  ∃ d' token,
    upsertStravaToken d athleteId accessToken refreshToken expiresAt scopes w
      = (Ok d', after_ticks 2 w)
    ∧ stravaTokens d' !! token_slot d athleteId = Some token
    ∧ (∀ j, j ≠ token_slot d athleteId → stravaTokens d' !! j = stravaTokens d !! j)
    ∧ get token "createdAt" = VStr (toISOString (clock (ticks w)))
    ∧ get token "updatedAt" = VStr (toISOString (clock (S (ticks w)))).
Proof.
  eexists _, (token_record (ticks w) athleteId accessToken refreshToken expiresAt scopes).
  split; [apply upsertStravaToken_eq|].
  split; [eapply upsertStravaToken_slot, upsertStravaToken_eq|].
  split; [|split; reflexivity].
  intros j Hj. unfold token_slot in *. simpl.
  destruct (findIndex _ (stravaTokens d)) as [i|] eqn:Hi; simpl in *.
  - by apply list_lookup_insert_ne.
  - destruct (decide (j < length (stravaTokens d))).
    + by apply lookup_app_l.
    + rewrite !lookup_ge_None_2; [done|lia|rewrite length_app; simpl; lia].
Qed.

(** A token written at the first reading of the clock and replaced at the
    third: the record of athlete 7 carries the later instant as its
    [createdAt]. *)
Example upsertStravaToken_replaces_createdAt :
  let w0 := World (Some empty_store) 0 0 [] no_client None in
  let '(r1, w1) := upsertStravaToken (E := offline) empty_store
                     (VNum 7) (VStr "A1") (VStr "R1") (VNum 5000) (VStr SCOPES) w0 in
  match r1 with
  | Ok d1 =>
      let '(r2, _) := upsertStravaToken (E := offline) d1
                        (VNum 7) (VStr "A2") (VStr "R2") (VNum 9000) (VStr SCOPES) w1 in
      match r2 with
      | Ok d2 =>
          (λ t, get t "createdAt") <$> stravaTokens d1 = [VStr "1000000"]
          ∧ (λ t, get t "createdAt") <$> stravaTokens d2 = [VStr "3000000"]
          ∧ (λ t, get t "updatedAt") <$> stravaTokens d2 = [VStr "4000000"]
      | _ => False
      end
  | _ => False
  end.
Proof. vm_compute. repeat split. Qed.

(** ** Gear sync ([syncBikes]) *)

Section gear_sync.
Context `{E : env}.

Lemma upsertBike_eq (d : data) (bike : obj) (w : world) :
  truthy (get bike "createdAt") = false →
  upsertBike d bike w =
  (Ok (set_bikes d
         (let r := <["updatedAt" := VStr (toISOString (clock (S (ticks w))))]>
                     (<["createdAt" := VStr (toISOString (clock (ticks w)))]> bike) in
          match findIndex (λ b, strict_eq (get b "id") (get bike "id")) (bikes d) with
          | Some i => <[i := r]> (bikes d)
          | None => bikes d ++ [r]
          end)),
   after_ticks 2 w).
Proof.
  intros Hc. unfold upsertBike, or_now. rewrite Hc.
  destruct (findIndex _ (bikes d)); reflexivity.
Qed.

Lemma syncBike_eq (d : data) (bike : obj) (w : world) :
  syncBike d bike w =
  (Ok (set_bikes d
         (match findIndex (λ b, strict_eq (get b "id") (chosen_id d bike w)) (bikes d) with
          | Some i => <[i := bike_record d bike w]> (bikes d)
          | None => bikes d ++ [bike_record d bike w]
          end)),
   after_ticks 2 (if draws_id d bike then after_uuids 1 w else w)).
Proof.
  unfold syncBike, chosen_id, draws_id, bike_record, bike_fields, chosen_id.
  destruct (truthy (opt_get _ "id")) eqn:Hid; simpl.
  - erewrite bind_Ok; [|reflexivity]. rewrite upsertBike_eq; [|reflexivity].
    destruct w; reflexivity.
  - erewrite bind_Ok; [|reflexivity]. rewrite upsertBike_eq; [|reflexivity].
    destruct w; reflexivity.
Qed.


Lemma find_insert_first {A} (p : A → bool) (l : list A) (j : nat) (r : A) :
  j < length l → p r = true →
  (∀ k y, k < j → l !! k = Some y → p y = false) →
  find p (<[j := r]> l) = Some r.
Proof.
  revert j. induction l as [|x l IH]; intros j Hj Hr Hbefore; simpl in *; [lia|].
  destruct j as [|j]; simpl.
  - by rewrite Hr.
  - rewrite (Hbefore 0 x); [|lia|done].
    apply IH; [lia|done|]. intros k y Hk Hy. apply (Hbefore (S k)); [lia|done].
Qed.

Lemma find_app_last {A} (p : A → bool) (l : list A) (r : A) :
  p r = true → (∀ y, y ∈ l → p y = false) → find p (l ++ [r]) = Some r.
Proof.
  intros Hr. induction l as [|x l IH]; intros Hl; simpl.
  - by rewrite Hr.
  - rewrite (Hl x); [|by left]. apply IH. intros y Hy. apply Hl. by right.
Qed.

Lemma find_None_all {A} (p : A → bool) (l : list A) :
  find p l = None → ∀ y, y ∈ l → p y = false.
Proof.
  rewrite find_findIndex. destruct (findIndex p l) as [i|] eqn:Hi; simpl.
  - destruct (findIndex_Some _ _ _ Hi) as (x & -> & _). done.
  - intros _. by apply findIndex_None.
Qed.

Lemma find_Some_first {A} (p : A → bool) (l : list A) (b : A) :
  find p l = Some b →
  ∃ i, l !! i = Some b ∧ p b = true ∧ ∀ k y, k < i → l !! k = Some y → p y = false.
Proof.
  rewrite find_findIndex. destruct (findIndex p l) as [i|] eqn:Hi; simpl; [|done].
  destruct (findIndex_Some _ _ _ Hi) as (x & Hx & Hp & Hbefore).
  rewrite Hx. intros [= <-]. by exists i.
Qed.

(** A truthy value is equal to itself under [===]. *)
Lemma strict_eq_refl (v : value) : truthy v = true → strict_eq v v = true.
Proof. destruct v; simpl; try done; intros _; by apply bool_decide_eq_true. Qed.

Lemma get_bike_record_id (d : data) (bike : obj) (w : world) :
  get (bike_record d bike w) "id" = chosen_id d bike w.
Proof. reflexivity. Qed.

Lemma get_bike_record_gear (d : data) (bike : obj) (w : world) :
  get (bike_record d bike w) "stravaGearId" = get bike "gear_id".
Proof. reflexivity. Qed.

(** A matched bike that has an identifier gives its own. *)
Lemma chosen_id_matched (d : data) (bike b : obj) (w : world) :
  matched_has_id d (get bike "gear_id") →
  findByGear d (get bike "gear_id") = Some b →
  chosen_id d bike w = get b "id" ∧ draws_id d bike = false.
Proof.
  intros Hid Hb. unfold chosen_id, draws_id. rewrite Hb. simpl.
  by rewrite (Hid b Hb).
Qed.

Lemma chosen_id_unmatched (d : data) (bike : obj) (w : world) :
  findByGear d (get bike "gear_id") = None →
  chosen_id d bike w = VStr (randomUUID (uuids w)) ∧ draws_id d bike = true.
Proof. intros Hb. unfold chosen_id, draws_id. by rewrite Hb. Qed.

(** After [syncBike], the gear identifier is matched to the record just
    written. *)
Lemma syncBike_rematch (d d' : data) (bike : obj) (w w' : world) :
  matched_has_id d (get bike "gear_id") →
  truthy (get bike "gear_id") = true →
  syncBike d bike w = (Ok d', w') →
  findByGear d' (get bike "gear_id") = Some (bike_record d bike w).
Proof.
  intros Hid Hg. rewrite syncBike_eq. intros [= <- _]. unfold findByGear at 1. simpl.
  set (p := λ b : obj, strict_eq (get b "stravaGearId") (get bike "gear_id")).
  assert (Hr : p (bike_record d bike w) = true).
  { unfold p. rewrite get_bike_record_gear. by apply strict_eq_refl. }
  destruct (findByGear d (get bike "gear_id")) as [b|] eqn:Hfind.
  - destruct (chosen_id_matched d bike b w Hid Hfind) as [Hx _].
    destruct (find_Some_first _ _ _ Hfind) as (i & Hi & Hpb & Hbefore).
    assert (Hqb : strict_eq (get b "id") (chosen_id d bike w) = true).
    { rewrite Hx. by apply strict_eq_refl, Hid. }
    destruct (findIndex _ (bikes d)) as [j|] eqn:Hj.
    + destruct (findIndex_Some _ _ _ Hj) as (x & Hxj & Hqx & Hqbefore).
      apply find_insert_first; [by eapply lookup_lt_Some|done|].
      intros k y Hk Hy. apply (Hbefore k); [|done].
      destruct (decide (i < j)) as [Hij|Hij]; [|lia].
      rewrite (Hqbefore i b Hij Hi) in Hqb. done.
    + pose proof (findIndex_None _ _ Hj b) as Hnone. simpl in Hnone.
      rewrite Hnone in Hqb; [done|]. by eapply list_elem_of_lookup_2.
  - pose proof (find_None_all _ _ Hfind) as Hnone.
    destruct (findIndex _ (bikes d)) as [j|] eqn:Hj.
    + apply find_insert_first; [by eapply findIndex_lt|done|].
      intros k y _ Hy. apply Hnone. by eapply list_elem_of_lookup_2.
    + by apply find_app_last.
Qed.

(** [syncBike] always returns. *)
Lemma for_of_syncBike_total (gears : list obj) (d : data) (w : world) :
  ∃ d' w', for_of gears syncBike d w = (Ok d', w').
Proof.
  revert d w. induction gears as [|g gears IH]; intros d w; simpl.
  - by eexists _, _.
  - erewrite bind_Ok; [|apply syncBike_eq]. apply IH.
Qed.

(** What [syncBikes] does with a gear list: only the entries that pass
    [is_bike] reach the store. *)
Lemma syncBikes_eq (stravaClient : StravaClientI) (athleteId : value)
    (w w1 w2 w3 : world) (gears : list obj) (d d' : data) :
  getGears stravaClient w = (Ok gears, w1) →
  loadData w1 = (Ok d, w2) →
  for_of (List.filter is_bike gears) syncBike d w2 = (Ok d', w3) →
  syncBikes stravaClient athleteId w =
  (Ok (length (List.filter is_bike gears), length (List.filter is_shoe gears)),
   set_disk w3 (Some (json_data d'))).
Proof.
  intros Hgears Hload Hloop. unfold syncBikes.
  erewrite bind_Ok; [|exact Hgears].
  erewrite bind_Ok; [reflexivity|].
  eapply (modifyData_Ok _ w1 w2 w3 d (d', tt)); [done|].
  by erewrite bind_Ok.
Qed.

Lemma is_bike_false (g : obj) :
  get g "resource_state" ≠ VNum 3 ∨ truthy (get g "gear_id") = false →
  is_bike g = false.
Proof.
  unfold is_bike. intros [Hrs|Hid].
  - apply andb_false_intro1. unfold strict_eq.
    destruct (get g "resource_state"); try done; by apply bool_decide_eq_false.
  - by apply andb_false_intro2.
Qed.

(** When no entry of the gear list is a resolved bike, the store is written
    back as it was found. *)
Lemma syncBikes_nothing_resolved (stravaClient : StravaClientI) (athleteId : value)
    (w w1 : world) (gears : list obj) (d : data) :
  getGears stravaClient w = (Ok gears, w1) →
  disk w1 = Some d →
  (∀ g, g ∈ gears → is_bike g = false) →
  syncBikes stravaClient athleteId w
  = (Ok (0, length (List.filter is_shoe gears)), set_disk w1 (Some (json_data d))).
Proof.
  intros Hgears Hd Hnone.
  assert (List.filter is_bike gears = []) as Hfilter.
  { clear Hgears. induction gears as [|g gears IH]; simpl; [done|].
    rewrite (Hnone g); [|by left]. apply IH. intros g' Hg'. apply Hnone. by right. }
  erewrite syncBikes_eq; [|exact Hgears|by apply loadData_Some|by rewrite Hfilter].
  by rewrite Hfilter.
Qed.

End gear_sync.

(** C9.  A gear entry whose [resource_state] is not 3, or that carries no
    gear identifier, has no part in gear sync: with or without it in the
    gear list, [syncBikes] reports the same number of bikes and leaves the
    same world behind, store included.  So bike records are created or
    updated only from resolved entries that carry a gear identifier. *)
Theorem syncBikes_only_resolved_gear `{E : env}
    (client1 client2 : StravaClientI) (athleteId : value) (w w1 : world)
    (before after : list obj) (g : obj) :
  getGears client1 w = (Ok (before ++ g :: after), w1) →
  getGears client2 w = (Ok (before ++ after), w1) →
  get g "resource_state" ≠ VNum 3 ∨ truthy (get g "gear_id") = false →
  ∃ bikesCount shoes1 shoes2 w',
    syncBikes client1 athleteId w = (Ok (bikesCount, shoes1), w')
    ∧ syncBikes client2 athleteId w = (Ok (bikesCount, shoes2), w')
    ∧ bikesCount = length (List.filter is_bike (before ++ after)).
Proof.
  intros H1 H2 Hg. apply is_bike_false in Hg.
  assert (Hfilter : List.filter is_bike (before ++ g :: after)
                    = List.filter is_bike (before ++ after)).
  { rewrite !List.filter_app. simpl. by rewrite Hg. }
  destruct (loadData_total w1) as (d & w2 & Hload & _).
  destruct (for_of_syncBike_total (List.filter is_bike (before ++ after)) d w2)
    as (d' & w3 & Hloop).
  exists (length (List.filter is_bike (before ++ after))),
         (length (List.filter is_shoe (before ++ g :: after))),
         (length (List.filter is_shoe (before ++ after))),
         (set_disk w3 (Some (json_data d'))).
  split; [|split].
  - rewrite <- Hfilter.
    eapply syncBikes_eq; [exact H1|exact Hload|]. rewrite Hfilter. exact Hloop.
  - eapply syncBikes_eq; [exact H2|exact Hload|exact Hloop].
  - reflexivity.
Qed.

(** Reading a record back from the file changes no truthy property, and no
    match with a truthy value. *)
Lemma get_json_obj (o : obj) (k : string) :
  get (json_obj o) k = match get o k with VNaN => VNull | v => v end.
Proof.
  unfold get, json_obj. rewrite lookup_omap.
  destruct (o !! k) as [[]|]; reflexivity.
Qed.

Lemma get_json_obj_truthy (o : obj) (k : string) :
  truthy (get o k) = true → get (json_obj o) k = get o k.
Proof. rewrite get_json_obj. by destruct (get o k). Qed.

Lemma strict_eq_json_obj (o : obj) (k : string) (v : value) :
  truthy v = true →
  strict_eq (get (json_obj o) k) v = strict_eq (get o k) v.
Proof.
  intros Hv. rewrite get_json_obj.
  destruct (get o k) eqn:Hget; try reflexivity.
  simpl. apply bool_decide_eq_false. intros <-. done.
Qed.

Lemma findByGear_json_data (d : data) (gear_id : value) :
  truthy gear_id = true →
  findByGear (json_data d) gear_id = json_obj <$> findByGear d gear_id.
Proof.
  intros Hg. unfold findByGear. simpl.
  induction (bikes d) as [|b l IH]; simpl; [done|].
  rewrite strict_eq_json_obj by done.
  by destruct (strict_eq (get b "stravaGearId") gear_id).
Qed.

(** A stored bike that has the gear identifier but no identifier of its own
    is not written to: a new identifier is drawn and a second record is
    added for the gear. *)
Example syncBike_bike_without_id :
  ∃ d' w',
    syncBike (E := offline) bike_without_id (gear 3 "b101" "Tarmac SL7")
             (world_of bike_without_id) = (Ok d', w')
    ∧ uuids w' = 1
    ∧ (λ b, (get b "id", get b "stravaGearId")) <$> bikes d'
      = [(VUndef, VStr "b101"); (VStr "uuid-0", VStr "b101")].
Proof. eexists _, _. split; [apply syncBike_eq|]. split; reflexivity. Qed.

Lemma syncBikes_only_resolved_gear_witness :
  ∃ bikesCount shoes1 shoes2 w',
    syncBikes (E := offline)
        (scripted (Ok [gear 2 "b101" "Tarmac"]) (λ _, Ok None)) (VNum 7)
        (world_of empty_store)
      = (Ok (bikesCount, shoes1), w')
    ∧ syncBikes (E := offline) (scripted (Ok []) (λ _, Ok None)) (VNum 7)
        (world_of empty_store)
      = (Ok (bikesCount, shoes2), w')
    ∧ bikesCount = 0.
Proof.
  apply (syncBikes_only_resolved_gear (E := offline)
           (scripted (Ok [gear 2 "b101" "Tarmac"]) (λ _, Ok None))
           (scripted (Ok []) (λ _, Ok None))
           (VNum 7) (world_of empty_store) (world_of empty_store)
           [] [] (gear 2 "b101" "Tarmac")).
  - reflexivity.
  - reflexivity.
  - left. discriminate.
Defined.

(** ** Activity sync ([syncActivities]) *)

Section activity_sync.
Context `{E : env}.

Lemma sinceTimestamp_eq (since : value) (full : bool) (w : world) :
  sinceTimestamp since full w = (Ok (cursor since full w), cursor_world since w).
Proof.
  unfold sinceTimestamp, cursor, cursor_world.
  destruct (truthy since); [done|]. by destruct full.
Qed.

(** The record built for an activity depends on the bikes only. *)
Lemma activityData_set_activities (d : data) (l : list obj) :
  activityData (set_activities d l) = activityData d.
Proof. reflexivity. Qed.

Lemma set_activities_twice (d : data) (l l' : list obj) :
  set_activities (set_activities d l) l' = set_activities d l'.
Proof. reflexivity. Qed.

Lemma mergeActivity_doc (a : value) (st : progress) (act : obj) :
  doc (mergeActivity a st act)
  = set_activities (doc st) (activities (doc st) ++ [activityData (doc st) a act]).
Proof. unfold mergeActivity. by destruct (find _ _). Qed.

Lemma mergeActivity_count (a : value) (st : progress) (act : obj) :
  added (mergeActivity a st act) + updated (mergeActivity a st act)
  = S (added st + updated st).
Proof. unfold mergeActivity. destruct (find _ _); simpl; lia. Qed.

(** The inner loop appends one record per activity of the page, whatever the
    store holds, and counts each activity once. *)
Lemma merge_page (a : value) (acts : list obj) (st : progress) :
  let st' := foldl (mergeActivity a) st acts in
  doc st' = set_activities (doc st)
              (activities (doc st) ++ (activityData (doc st) a <$> acts))
  ∧ added st' + updated st' = added st + updated st + length acts.
Proof.
  revert st. induction acts as [|act acts IH]; intros st; simpl.
  - rewrite app_nil_r. split; [by destruct (doc st)|lia].
  - destruct (IH (mergeActivity a st act)) as [Hdoc Hcount].
    rewrite Hdoc, Hcount, mergeActivity_count, mergeActivity_doc.
    rewrite activityData_set_activities, set_activities_twice.
    split; [|lia]. f_equal. simpl. by rewrite <- (assoc_L (++)).
Qed.

Lemma fetches_S (after : value) (from n : nat) :
  fetches after from (S n)
  = ReqActivities VUndef after VNull perPage from :: fetches after (S from) n.
Proof. reflexivity. Qed.

Lemma fetches_app (after : value) (from n m : nat) :
  fetches after from (n + m) = fetches after from n ++ fetches after (from + n) m.
Proof. unfold fetches. by rewrite seq_app, fmap_app. Qed.

Lemma with_log_twice (w : world) (l l' : list request) :
  with_log (with_log w l) l' = with_log w l'.
Proof. reflexivity. Qed.

Lemma log_with_log (w : world) (l : list request) : log (with_log w l) = l.
Proof. reflexivity. Qed.

(** One turn of the loop on a page of 200 or more: the page is merged and the
    next page is asked for. *)
Lemma paginate_full_page (gears : result (list obj))
    (pages : nat → result (option (list obj))) (a after : value)
    (fuel page : nat) (p : list obj) (st : progress) (w : world) :
  pages page = Ok (Some p) → 200 ≤ length p →
  paginate (S fuel) (scripted gears pages) a after page st w
  = paginate fuel (scripted gears pages) a after (S page)
             (foldl (mergeActivity a) st p)
             (with_log w (log w ++ fetches after page 1)).
Proof.
  intros Hp Hlen. cbn [paginate].
  erewrite bind_Ok; [|simpl; rewrite Hp; reflexivity].
  destruct p as [|act acts]; [simpl in Hlen; lia|].
  destruct (Z.ltb_spec (Z.of_nat (length (act :: acts))) perPage) as [Hlt|_];
    [|reflexivity].
  unfold perPage in Hlt. lia.
Qed.

(** The loop runs through any number of full pages. *)
Lemma paginate_full_pages (gears : result (list obj))
    (pages : nat → result (option (list obj))) (a after : value)
    (full_pages : list (list obj)) :
  ∀ (fuel page : nat) (st : progress) (w : world),
  (∀ i p, full_pages !! i = Some p →
          pages (page + i) = Ok (Some p) ∧ 200 ≤ length p) →
  paginate (length full_pages + fuel) (scripted gears pages) a after page st w
  = paginate fuel (scripted gears pages) a after (page + length full_pages)
             (foldl (mergeActivity a) st (concat full_pages))
             (with_log w (log w ++ fetches after page (length full_pages))).
Proof.
  induction full_pages as [|p ps IH]; intros fuel page st w Hfull.
  - simpl. rewrite Nat.add_0_r, app_nil_r. by destruct w.
  - destruct (Hfull 0 p eq_refl) as [Hp Hlen]. rewrite Nat.add_0_r in Hp.
    cbn [length Nat.add]. rewrite (paginate_full_page _ _ _ _ _ _ p) by done.
    rewrite IH.
    + rewrite concat_cons, foldl_app, with_log_twice.
      change (S (length ps)) with (1 + length ps).
      rewrite (fetches_app after page 1 (length ps)).
      by rewrite log_with_log, <- (assoc_L (++)), Nat.add_1_r, Nat.add_succ_r.
    + intros i q Hq. replace (S page + i) with (page + S i) by lia. by apply Hfull.
Qed.

(** The turn that ends the loop: a page shorter than 200 is merged, and
    nothing more is asked for; a page that fails ends it with the error. *)
Lemma paginate_short_page (gears : result (list obj))
    (pages : nat → result (option (list obj))) (a after : value)
    (fuel page : nat) (last : option (list obj)) (st : progress) (w : world) :
  pages page = Ok last → length (default [] last) < 200 →
  paginate (S fuel) (scripted gears pages) a after page st w
  = (Ok (foldl (mergeActivity a) st (default [] last)),
     with_log w (log w ++ fetches after page 1)).
Proof.
  intros Hlast Hshort. cbn [paginate].
  erewrite bind_Ok; [|simpl; rewrite Hlast; reflexivity].
  destruct last as [[|act acts]|]; simpl in *; try reflexivity.
  destruct (Z.ltb_spec (Z.of_nat (S (length acts))) perPage) as [_|Hge];
    [reflexivity|]. unfold perPage in Hge. lia.
Qed.

Lemma paginate_failed_page (gears : result (list obj))
    (pages : nat → result (option (list obj))) (a after : value)
    (fuel page : nat) (e : string) (st : progress) (w : world) :
  pages page = Throw e →
  paginate (S fuel) (scripted gears pages) a after page st w
  = (Throw e, with_log w (log w ++ fetches after page 1)).
Proof.
  intros Hlast. cbn [paginate].
  erewrite bind_Throw; [|simpl; rewrite Hlast; reflexivity]. reflexivity.
Qed.

Lemma paginate_short (gears : result (list obj)) (pages : nat → result (option (list obj)))
    (a after : value) (full_pages : list (list obj)) (last : option (list obj))
    (fuel page : nat) (st : progress) (w : world) :
  (∀ i p, full_pages !! i = Some p →
          pages (page + i) = Ok (Some p) ∧ 200 ≤ length p) →
  pages (page + length full_pages) = Ok last →
  length (default [] last) < 200 →
  length full_pages < fuel →
  paginate fuel (scripted gears pages) a after page st w
  = (Ok (foldl (mergeActivity a) st (concat full_pages ++ default [] last)),
     with_log w (log w ++ fetches after page (S (length full_pages)))).
Proof.
  intros Hfull Hlast Hshort Hfuel.
  replace fuel with (length full_pages + S (fuel - S (length full_pages))) by lia.
  rewrite paginate_full_pages by done.
  rewrite (paginate_short_page _ _ _ _ _ _ last) by done.
  rewrite foldl_app, with_log_twice, log_with_log.
  by rewrite <- (assoc_L (++)), <- fetches_app, Nat.add_1_r.
Qed.

Lemma paginate_failed (gears : result (list obj)) (pages : nat → result (option (list obj)))
    (a after : value) (full_pages : list (list obj)) (e : string)
    (fuel page : nat) (st : progress) (w : world) :
  (∀ i p, full_pages !! i = Some p →
          pages (page + i) = Ok (Some p) ∧ 200 ≤ length p) →
  pages (page + length full_pages) = Throw e →
  length full_pages < fuel →
  paginate fuel (scripted gears pages) a after page st w
  = (Throw e, with_log w (log w ++ fetches after page (S (length full_pages)))).
Proof.
  intros Hfull Hlast Hfuel.
  replace fuel with (length full_pages + S (fuel - S (length full_pages))) by lia.
  rewrite paginate_full_pages by done.
  rewrite (paginate_failed_page _ _ _ _ _ _ e) by done.
  rewrite with_log_twice, log_with_log.
  by rewrite <- (assoc_L (++)), <- fetches_app, Nat.add_1_r.
Qed.

Lemma disk_cursor_world (since : value) (w : world) :
  disk (cursor_world since w) = disk w.
Proof. unfold cursor_world. by destruct (truthy since). Qed.

Lemma log_cursor_world (since : value) (w : world) :
  log (cursor_world since w) = log w.
Proof. unfold cursor_world. by destruct (truthy since). Qed.

(** The whole sync when the last page is short: the loop returns and the
    document is written. *)
Lemma syncActivities_short (gears : result (list obj))
    (pages : nat → result (option (list obj))) (a since : value) (full : bool)
    (full_pages : list (list obj)) (last : option (list obj))
    (fuel : nat) (d : data) (w : world) :
  disk w = Some d →
  (∀ i p, full_pages !! i = Some p → pages (1 + i) = Ok (Some p) ∧ 200 ≤ length p) →
  pages (1 + length full_pages) = Ok last →
  length (default [] last) < 200 →
  length full_pages < fuel →
  let st := foldl (mergeActivity a) (Progress d 0 0)
                  (concat full_pages ++ default [] last) in
  syncActivities fuel (scripted gears pages) a since full w
  = (Ok (added st, updated st),
     set_disk (with_log (cursor_world since w)
                        (log w ++ fetches (cursor since full w) 1
                                          (S (length full_pages))))
              (Some (json_data (doc st)))).
Proof.
  intros Hd Hfull Hlast Hshort Hfuel st. unfold syncActivities.
  erewrite bind_Ok; [|apply sinceTimestamp_eq].
  erewrite bind_Ok.
  2: { eapply modifyData_Ok; [apply loadData_Some; by rewrite disk_cursor_world|].
       erewrite bind_Ok; [|by apply paginate_short]. reflexivity. }
  by rewrite log_cursor_world.
Qed.

(** The whole sync when a page fails: the error leaves [modifyData] before
    anything is written. *)
Lemma syncActivities_failed (gears : result (list obj))
    (pages : nat → result (option (list obj))) (a since : value) (full : bool)
    (full_pages : list (list obj)) (e : string)
    (fuel : nat) (d : data) (w : world) :
  disk w = Some d →
  (∀ i p, full_pages !! i = Some p → pages (1 + i) = Ok (Some p) ∧ 200 ≤ length p) →
  pages (1 + length full_pages) = Throw e →
  length full_pages < fuel →
  syncActivities fuel (scripted gears pages) a since full w
  = (Throw e,
     with_log (cursor_world since w)
              (log w ++ fetches (cursor since full w) 1 (S (length full_pages)))).
Proof.
  intros Hd Hfull Hlast Hfuel. unfold syncActivities.
  erewrite bind_Ok; [|apply sinceTimestamp_eq].
  erewrite bind_Throw.
  2: { eapply modifyData_Throw; [apply loadData_Some; by rewrite disk_cursor_world|].
       erewrite bind_Throw; [|by apply paginate_failed]. reflexivity. }
  by rewrite log_cursor_world.
Qed.

End activity_sync.

(** A page of a concrete table is what the table says and is full. *)
Ltac full_page :=
  split; [reflexivity | apply Nat.leb_le; vm_compute; reflexivity].

(** C5.  [syncActivities] asks for pages of 200, page 1 first and then in
    increasing order; it goes on past every page that brings 200 activities
    (or more) and returns at the first page that brings fewer (or is empty,
    or null): the requests sent are exactly those for the full pages and for
    that last page, and a record of every activity of every page fetched is
    in the store that is written. *)
Theorem pagination_stops_at_short_page `{E : env}
    (gears : result (list obj)) (pages : nat → result (option (list obj)))
    (athleteId since : value) (full : bool)
    (full_pages : list (list obj)) (last : option (list obj))
    (fuel : nat) (d : data) (w : world) :
  disk w = Some d →
  (∀ i p, full_pages !! i = Some p → pages (1 + i) = Ok (Some p) ∧ 200 ≤ length p) →
  pages (1 + length full_pages) = Ok last →
  length (default [] last) < 200 →
  length full_pages < fuel →
  ∃ added updated w',
    syncActivities fuel (scripted gears pages) athleteId since full w
      = (Ok (added, updated), w')
    ∧ log w' = log w ++ fetches (cursor since full w) 1 (S (length full_pages))
    ∧ activities <$> disk w'
      = Some (json_obj <$> (activities d
                ++ (activityData d athleteId <$> concat full_pages ++ default [] last)))
    ∧ added + updated = length (concat full_pages ++ default [] last).
Proof.
  intros Hd Hfull Hlast Hshort Hfuel.
  eexists _, _, _. split; [by eapply syncActivities_short|].
  destruct (merge_page athleteId (concat full_pages ++ default [] last) (Progress d 0 0))
    as [Hdoc Hcount].
  split; [reflexivity|]. split; [|exact Hcount].
  simpl. by rewrite Hdoc.
Qed.

Lemma pagination_stops_at_short_page_witness :
  ∃ added updated w',
    syncActivities (E := offline) 3 (scripted (Ok []) three_pages)
        (VNum 7) (VStr "2025-01-01") false (world_of empty_store)
      = (Ok (added, updated), w')
    ∧ log w' = [] ++ fetches (VNum 1735689600) 1 3
    ∧ activities <$> disk w'
      = Some (json_obj <$> ([] ++ (activityData (E := offline) empty_store (VNum 7)
                                     <$> concat [rides 1 200; rides 201 200]
                                         ++ rides 401 120)))
    ∧ added + updated = length (concat [rides 1 200; rides 201 200] ++ rides 401 120).
Proof.
  apply (pagination_stops_at_short_page (E := offline) (Ok []) three_pages
           (VNum 7) (VStr "2025-01-01") false
           [rides 1 200; rides 201 200] (Some (rides 401 120))
           3 empty_store (world_of empty_store)).
  - reflexivity.
  - intros [|[|i]] p; simpl; intros [= <-]; full_page.
  - reflexivity.
  - apply Nat.ltb_lt. vm_compute. reflexivity.
  - simpl. lia.
Defined.

(** The three pages of 200, 200 and 120 activities: three requests, for the
    pages 1, 2 and 3, and 520 records stored. *)
Example three_pages_three_fetches :
  let '(r, w') := syncActivities (E := offline) 10 (scripted (Ok []) three_pages)
                    (VNum 7) (VStr "2025-01-01") false (world_of empty_store) in
  r = Ok (520, 0)
  ∧ log w' = [ReqActivities VUndef (VNum 1735689600) VNull 200 1;
              ReqActivities VUndef (VNum 1735689600) VNull 200 2;
              ReqActivities VUndef (VNum 1735689600) VNull 200 3]
  ∧ stored_ids w' = Some ((λ i, VNum (Z.of_nat i)) <$> seq 1 520).
Proof. vm_compute. repeat split. Qed.

(** C4, as amended.  When the pages before page [k] were full (and so were
    merged) and the fetch of page [k] throws, [syncActivities] sends no
    further request and ends with that error, and the persisted store is
    the one it found: the records merged from the earlier pages were in the
    loaded copy only and are not written. *)
Theorem failed_page_leaves_store_untouched `{E : env}
    (gears : result (list obj)) (pages : nat → result (option (list obj)))
    (athleteId since : value) (full : bool)
    (full_pages : list (list obj)) (e : string)
    (fuel : nat) (d : data) (w : world) :
  disk w = Some d →
  (∀ i p, full_pages !! i = Some p → pages (1 + i) = Ok (Some p) ∧ 200 ≤ length p) →
  pages (1 + length full_pages) = Throw e →
  length full_pages < fuel →
  ∃ w',
    syncActivities fuel (scripted gears pages) athleteId since full w = (Throw e, w')
    ∧ log w' = log w ++ fetches (cursor since full w) 1 (S (length full_pages))
    ∧ disk w' = Some d.
Proof.
  intros Hd Hfull Hlast Hfuel.
  eexists. split; [by eapply syncActivities_failed|].
  split; [reflexivity|]. simpl. by rewrite disk_cursor_world.
Qed.

Lemma failed_page_leaves_store_untouched_witness :
  ∃ w',
    syncActivities (E := offline) 5 (scripted (Ok []) second_page_fails)
        (VNum 7) (VStr "2025-01-01") false (world_of empty_store)
      = (Throw "Strava API error (500): Internal Server Error", w')
    ∧ log w' = [] ++ fetches (VNum 1735689600) 1 2
    ∧ disk w' = Some empty_store.
Proof.
  apply (failed_page_leaves_store_untouched (E := offline) (Ok []) second_page_fails
           (VNum 7) (VStr "2025-01-01") false [rides 1 200]
           "Strava API error (500): Internal Server Error"
           5 empty_store (world_of empty_store)).
  - reflexivity.
  - intros [|i] p; simpl; intros [= <-]; full_page.
  - reflexivity.
  - simpl. lia.
Defined.

(** C4, as the specification states it, fails when the second page fails
    after a full first page: none of the 200 activities merged from the
    first page is in the persisted store. *)
Lemma failed_page_loses_first_page :
  ¬ keeps_merged_pages (E := offline) 5 (Ok []) second_page_fails
      (VNum 7) (VStr "2025-01-01") false (world_of empty_store).
Proof.
  assert (∀ i p, [rides 1 200] !! i = Some p →
            second_page_fails (1 + i) = Ok (Some p) ∧ 200 ≤ length p) as Hfull.
  { intros [|i] p; simpl; intros [= <-]; full_page. }
  intros H.
  destruct (H [rides 1 200] "Strava API error (500): Internal Server Error")
    as (w' & Hrun & Hkept); [exact Hfull|reflexivity|simpl; lia|].
  rewrite (syncActivities_failed (E := offline) (Ok []) second_page_fails
             (VNum 7) (VStr "2025-01-01") false [rides 1 200]
             "Strava API error (500): Internal Server Error" 5 empty_store)
    in Hrun; [|reflexivity|exact Hfull|reflexivity|simpl; lia].
  injection Hrun as <-.
  destruct (Hkept (ride 1)) as (d' & r & Hd' & Hr & _).
  - change (concat [rides 1 200]) with (ride 1 :: (rides 2 199 ++ [])).
    apply list_elem_of_here.
  - injection Hd' as <-. by apply elem_of_nil in Hr.
Qed.

(** A sync that returns has appended one record per activity fetched: the
    collection grows by that number, whatever was stored. *)
Lemma syncActivities_grows_store `{E : env}
    (gears : result (list obj)) (pages : nat → result (option (list obj)))
    (athleteId since : value) (full : bool)
    (full_pages : list (list obj)) (last : option (list obj))
    (fuel : nat) (d : data) (w : world) :
  disk w = Some d →
  (∀ i p, full_pages !! i = Some p → pages (1 + i) = Ok (Some p) ∧ 200 ≤ length p) →
  pages (1 + length full_pages) = Ok last →
  length (default [] last) < 200 →
  length full_pages < fuel →
  (λ d', length (activities d'))
    <$> disk (syncActivities fuel (scripted gears pages) athleteId since full w).2
  = Some (length (activities d) + length (concat full_pages ++ default [] last)).
Proof.
  intros Hd Hfull Hlast Hshort Hfuel.
  erewrite syncActivities_short by done. simpl.
  destruct (merge_page athleteId (concat full_pages ++ default [] last) (Progress d 0 0))
    as [-> _].
  simpl. by rewrite length_fmap, length_app, length_fmap.
Qed.

(** C1 at two rides.  The first sync of an empty store reports two added and
    stores two records; the second sync of the same window, with the same
    remote page, reports two updated and none added, and appends two more
    records: each remote identifier is stored twice. *)
Theorem resync_appends_duplicates :
  ∃ w1 w2,
    syncActivities (E := offline) 5 (scripted (Ok []) two_rides)
        (VNum 7) (VStr "2025-01-01") false (world_of empty_store) = (Ok (2, 0), w1)
    ∧ stored_ids w1 = Some [VNum 101; VNum 102]
    ∧ syncActivities (E := offline) 5 (scripted (Ok []) two_rides)
        (VNum 7) (VStr "2025-01-01") false w1 = (Ok (0, 2), w2)
    ∧ stored_ids w2 = Some [VNum 101; VNum 102; VNum 101; VNum 102].
Proof.
  eexists _, _. split; [vm_compute; reflexivity|].
  split; [vm_compute; reflexivity|].
  split; vm_compute; reflexivity.
Qed.

(** ** The token lifecycle ([isTokenExpired], [loadFromDb], [ensureToken]) *)

(** A record written by [upsertStravaToken] has no property [expires_at], in
    memory or read back from the file, so [isTokenExpired] never finds it
    expired. *)
Lemma written_token_never_expired `{E : env} (n : nat)
    (a acc ref exp sc : value) (w : world) :
  StravaClient.isTokenExpired (token_record n a acc ref exp sc) w
    = (Ok false, after_ticks 1 w)
  ∧ StravaClient.isTokenExpired (json_obj (token_record n a acc ref exp sc)) w
    = (Ok false, after_ticks 1 w).
Proof.
  split.
  - reflexivity.
  - unfold StravaClient.isTokenExpired.
    assert (get (json_obj (token_record n a acc ref exp sc)) "expires_at" = VUndef) as Hget.
    { unfold get, json_obj. rewrite lookup_omap. reflexivity. }
    erewrite bind_Ok; [|reflexivity]. by rewrite Hget.
Qed.

(** C2 at a token that expired long ago.  The stored token of athlete 7
    expires at second 1500 and the clock shows second 3000, which is past
    [1500 - 300]; [loadFromDb] and [ensureToken] send no refresh request and
    take the stored access token. *)
Theorem expired_stored_token_is_reused :
  (clock (env := rotating) (ticks logged_in) / 1000 >= 1500 - 300)%Z
  ∧ stravaTokens <$> disk logged_in
    = Some [json_obj (token_record (E := rotating) 0 (VNum 7) (VStr "A1") (VStr "R1")
                                   (VNum 1500) (VStr SCOPES))]
  ∧ (∃ w', StravaClient.loadFromDb (E := rotating) logged_in = (Ok tt, w')
           ∧ log w' = []
           ∧ accessToken (self w') = VStr "A1"
           ∧ expiresAt (self w') = VNum 1500)
  ∧ (∃ w', StravaClient.ensureToken (E := rotating) logged_in = (Ok tt, w')
           ∧ log w' = []
           ∧ accessToken (self w') = VStr "A1"
           ∧ expiresAt (self w') = VNum 1500).
Proof.
  split; [vm_compute; discriminate|].
  split; [vm_compute; reflexivity|].
  split; eexists; (split; [vm_compute; reflexivity|]); repeat split.
Qed.

Lemma find_app_Some {A} (q : A → bool) (l l' : list A) (x : A) :
  find q l = Some x → find q (l ++ l') = Some x.
Proof.
  induction l as [|y l IH]; simpl; [done|]. by destruct (q y).
Qed.

(** Writing a token under the athlete [null], as the refresh of a client
    that does not know its athlete does, leaves the record of every known
    athlete where it is. *)
Lemma upsert_under_null_keeps_records `{E : env}
    (d d' : data) (a acc ref exp sc : value) (old : obj) (w w' : world) :
  (∀ t, t ∈ stravaTokens d → get t "athleteId" ≠ VNull) →
  a ≠ VNull → a ≠ VUndef →
  getStravaToken d a = Some old →
  upsertStravaToken d VNull acc ref exp sc w = (Ok d', w') →
  getStravaToken d' a = Some old
  ∧ stravaTokens d' = stravaTokens d ++ [token_record (ticks w) VNull acc ref exp sc].
Proof.
  intros Hnone Ha Ha' Hold. rewrite upsertStravaToken_eq. intros [= <- _].
  assert (findIndex (λ t, strict_eq (get t "athleteId") VNull) (stravaTokens d) = None)
    as ->.
  { destruct (findIndex _ _) as [i|] eqn:Hi; [|done].
    destruct (findIndex_Some _ _ _ Hi) as (t & Ht & Heq & _).
    exfalso. apply (Hnone t); [by eapply list_elem_of_lookup_2|].
    unfold strict_eq in Heq. destruct (get t "athleteId"); try done.
  }
  split; [|done].
  destruct a; try done; simpl in *; by apply find_app_Some.
Qed.

(** C3 at a refresh that takes place.  The stored record of athlete 7 is
    found expired, the token endpoint rotates the refresh token, and
    [loadFromDb], on a client that does not know its athlete yet, writes the
    new pair as a second record whose [athleteId] is null: the record of
    athlete 7, with the refresh token that was just used, is still what the
    lookup by athlete returns. *)
Theorem refresh_keeps_stale_record :
  ∃ w' d' old new,
    StravaClient.loadFromDb (E := rotating) (world_of store_with_expires_at) = (Ok tt, w')
    ∧ log w' = [ReqToken (RefreshToken (VStr "R1"))]
    ∧ accessToken (self w') = VStr "A2"
    ∧ disk w' = Some d'
    ∧ stravaTokens d' = [old; new]
    ∧ get new "athleteId" = VNull
    ∧ get new "accessToken" = VStr "A2"
    ∧ get new "refreshToken" = VStr "R2"
    ∧ getStravaToken (E := rotating) d' (VNum 7) = Some old
    ∧ get old "refreshToken" = VStr "R1"
    ∧ get old "accessToken" = VStr "A1".
Proof.
  eexists _, _, _, _. split; [vm_compute; reflexivity|].
  do 9 (split; [reflexivity|]). reflexivity.
Qed.

(** ** The authorization flow ([createCallbackServer], [authorize]) *)

Lemma handler_other_path (l : listener) (req : callbackRequest) :
  pathname req ≠ "/callback" →
  handler req l = respond 404 "text/plain" "Not found" l.
Proof.
  intros Hpath. unfold handler.
  by apply String.eqb_neq in Hpath as ->.
Qed.

Lemma handler_callback (l : listener) (req : callbackRequest) :
  pathname req = "/callback" →
  handler req l =
  match param (error req), param (code req) with
  | Some e, _ =>
      server_close (reject ("OAuth error: " +:+ e))
        (clearTimeout (respond 400 "text/plain" ("OAuth error: " +:+ e) l))
  | None, Some c =>
      server_close (resolve c)
        (clearTimeout (respond 200 "text/html" confirmationPage l))
  | None, None =>
      server_close (reject "Missing authorization code")
        (clearTimeout (respond 400 "text/plain" "Missing authorization code" l))
  end.
Proof. intros Hpath. unfold handler. rewrite Hpath. reflexivity. Qed.

(** C8.  On a listener that is waiting, the handler answers by the path and
    the query: another path than [/callback] gets 404 and the listener goes
    on waiting; on [/callback], an [error] parameter (present and not empty)
    gets 400 and rejects with the provider's error string, otherwise a
    [code] parameter (present and not empty) gets the 200 HTML page and
    resolves with the code, and with neither the request gets 400 and the
    flow is rejected; in these three cases the timer is cleared and the
    socket closed. *)
Theorem callback_handler_cases (l : listener) (req : callbackRequest) :
  waiting l →
  (pathname req ≠ "/callback" →
     replies (handler req l) = replies l ++ [Reply 404 "text/plain" "Not found"]
     ∧ waiting (handler req l))
  ∧ (pathname req = "/callback" →
     ∀ e, param (error req) = Some e →
       replies (handler req l)
         = replies l ++ [Reply 400 "text/plain" ("OAuth error: " +:+ e)]
       ∧ ended (Throw ("OAuth error: " +:+ e)) (handler req l))
  ∧ (pathname req = "/callback" →
     param (error req) = None →
     ∀ c, param (code req) = Some c →
       replies (handler req l)
         = replies l ++ [Reply 200 "text/html" confirmationPage]
       ∧ ended (Ok c) (handler req l))
  ∧ (pathname req = "/callback" →
     param (error req) = None →
     param (code req) = None →
       replies (handler req l)
         = replies l ++ [Reply 400 "text/plain" "Missing authorization code"]
       ∧ ended (Throw "Missing authorization code") (handler req l)).
Proof.
  intros (Hopen & Htimer & Hpending).
  split; [|split; [|split]].
  - intros Hpath. rewrite (handler_other_path _ _ Hpath). by repeat split.
  - intros Hpath e He. rewrite (handler_callback _ _ Hpath), He.
    unfold ended, server_close, reject, settle. simpl. by rewrite Hpending.
  - intros Hpath He c Hc. rewrite (handler_callback _ _ Hpath), He, Hc.
    unfold ended, server_close, resolve, settle. simpl. by rewrite Hpending.
  - intros Hpath He Hc. rewrite (handler_callback _ _ Hpath), He, Hc.
    unfold ended, server_close, reject, settle. simpl. by rewrite Hpending.
Qed.

Lemma callback_handler_cases_witness :
  (replies (handler (CallbackRequest "/favicon.ico" None None) listening_socket)
     = [Reply 404 "text/plain" "Not found"]
   ∧ waiting (handler (CallbackRequest "/favicon.ico" None None) listening_socket))
  ∧ (replies (handler (CallbackRequest "/callback" None (Some "access_denied"))
                      listening_socket)
       = [Reply 400 "text/plain" "OAuth error: access_denied"]
     ∧ ended (Throw "OAuth error: access_denied")
             (handler (CallbackRequest "/callback" None (Some "access_denied"))
                      listening_socket))
  ∧ (replies (handler (CallbackRequest "/callback" (Some "4f1c") None) listening_socket)
       = [Reply 200 "text/html" confirmationPage]
     ∧ ended (Ok "4f1c")
             (handler (CallbackRequest "/callback" (Some "4f1c") None) listening_socket))
  ∧ (replies (handler (CallbackRequest "/callback" None None) listening_socket)
       = [Reply 400 "text/plain" "Missing authorization code"]
     ∧ ended (Throw "Missing authorization code")
             (handler (CallbackRequest "/callback" None None) listening_socket)).
Proof.
  assert (waiting listening_socket) as Hw by (repeat split).
  split; [|split; [|split]].
  - apply (callback_handler_cases listening_socket
             (CallbackRequest "/favicon.ico" None None) Hw). discriminate.
  - apply (callback_handler_cases listening_socket
             (CallbackRequest "/callback" None (Some "access_denied")) Hw);
      reflexivity.
  - apply (callback_handler_cases listening_socket
             (CallbackRequest "/callback" (Some "4f1c") None) Hw); reflexivity.
  - apply (callback_handler_cases listening_socket
             (CallbackRequest "/callback" None None) Hw); reflexivity.
Defined.

(** A listener that has ended takes nothing more. *)
Lemma deliver_ended (timeoutMs : Z) (outcome : result string) (l : listener) (ev : event) :
  ended outcome l → deliver timeoutMs l ev = l.
Proof.
  intros (Hclosed & Htimer & _). unfold deliver.
  rewrite Htimer. cbn [andb]. by rewrite Hclosed.
Qed.

Lemma foldl_deliver_ended (timeoutMs : Z) (outcome : result string)
    (events : list event) (l : listener) :
  ended outcome l → foldl (deliver timeoutMs) l events = l.
Proof.
  revert l. induction events as [|ev events IH]; intros l Hl; simpl; [done|].
  rewrite (deliver_ended _ _ _ _ Hl). by apply IH.
Qed.

Lemma on_timeout_waiting (l : listener) :
  waiting l → ended (Throw "Authorization timeout") (on_timeout l).
Proof.
  intros (_ & _ & Hpending).
  unfold on_timeout, server_close, reject, settle, ended. simpl. by rewrite Hpending.
Qed.

Lemma listening_on_timeout (l : listener) : listening (on_timeout l) = false.
Proof.
  unfold on_timeout, server_close, reject, settle. simpl.
  by destruct (settled l).
Qed.

(** While no callback arrives in time, the listener waits or has timed out. *)
Lemma deliver_no_callback (timeoutMs : Z) (l : listener) (ev : event) :
  waiting l →
  ((event_time ev < timeoutMs)%Z →
   ∃ t req, ev = Incoming t req ∧ pathname req ≠ "/callback") →
  waiting (deliver timeoutMs l ev)
  ∨ ended (Throw "Authorization timeout") (deliver timeoutMs l ev).
Proof.
  intros Hw Hev. pose proof Hw as (Hopen & Htimer & Hpending).
  destruct (Z.leb_spec timeoutMs (event_time ev)) as [Hlate|Hearly].
  - right. unfold deliver. rewrite Htimer.
    replace (timeoutMs <=? event_time ev)%Z with true by (symmetry; by apply Z.leb_le).
    cbn [andb]. rewrite listening_on_timeout. by apply on_timeout_waiting.
  - left. destruct (Hev Hearly) as (t & req & -> & Hpath).
    unfold deliver. rewrite Htimer. cbn [event_time andb] in *.
    replace (timeoutMs <=? t)%Z with false by (symmetry; by apply Z.leb_gt).
    rewrite Hopen, (handler_other_path _ _ Hpath). by repeat split.
Qed.

Lemma run_listener_times_out (timeoutMs : Z) (events : list event) :
  no_callback_before timeoutMs events →
  ended (Throw "Authorization timeout") (run_listener timeoutMs events).
Proof.
  intros Hquiet. unfold run_listener.
  assert (∀ l, waiting l →
            waiting (foldl (deliver timeoutMs) l events)
            ∨ ended (Throw "Authorization timeout") (foldl (deliver timeoutMs) l events))
    as Hloop.
  { induction events as [|ev events IH]; intros l Hl; simpl; [by left|].
    destruct (deliver_no_callback timeoutMs l ev Hl) as [Hw|He].
    - intros Hearly. apply Hquiet; [by left|done].
    - apply IH; [|done]. intros ev' Hin. apply Hquiet. by right.
    - right. by rewrite (foldl_deliver_ended _ _ _ _ He). }
  destruct (Hloop (Listener true true None [])) as [Hw|He]; [by repeat split|..].
  - pose proof Hw as (_ & -> & _). by apply on_timeout_waiting.
  - pose proof He as (_ & -> & _). done.
Qed.

Lemma handler_ends (l : listener) (req : callbackRequest) :
  waiting l → pathname req = "/callback" →
  ended (callback_outcome req) (handler req l).
Proof.
  intros (_ & _ & Hpending) Hpath. rewrite (handler_callback _ _ Hpath).
  unfold callback_outcome, ended, server_close, resolve, reject, settle.
  destruct (param (error req)), (param (code req)); simpl; by rewrite Hpending.
Qed.

(** The first request for [/callback] that arrives in time decides the flow:
    what comes after it is not looked at, and [createCallbackServer] returns
    the code or throws the error. *)
Lemma first_callback_decides `{E : env} (port timeoutMs : Z) (w : world)
    (early rest : list event) (t : Z) (req : callbackRequest) :
  browser port = early ++ Incoming t req :: rest →
  (∀ ev, ev ∈ early → (event_time ev < timeoutMs)%Z
                     ∧ ∃ t' req', ev = Incoming t' req' ∧ pathname req' ≠ "/callback") →
  (t < timeoutMs)%Z →
  pathname req = "/callback" →
  ∃ l, createCallbackServer port timeoutMs w
         = (callback_outcome req, set_server w (Some l))
       ∧ ended (callback_outcome req) l.
Proof.
  intros Hbrowser Hearly Ht Hpath.
  assert (∀ l, waiting l → waiting (foldl (deliver timeoutMs) l early)) as Hwait.
  { clear Hbrowser. induction early as [|ev early IH]; intros l Hl; simpl; [done|].
    destruct (Hearly ev) as [Hev Hother]; [by left|].
    destruct (deliver_no_callback timeoutMs l ev Hl (λ _, Hother)) as [Hw|He].
    - apply IH; [|done]. intros ev' Hin. apply Hearly. by right.
    - destruct Hother as (t' & req' & -> & Hpath').
      destruct Hl as (Hopen & Htimer & Hpending).
      destruct He as (Hclosed & _). unfold deliver in Hclosed.
      rewrite Htimer in Hclosed. cbn [event_time andb] in *.
      replace (timeoutMs <=? t')%Z with false in Hclosed
        by (symmetry; by apply Z.leb_gt).
      rewrite Hopen, (handler_other_path _ _ Hpath') in Hclosed.
      simpl in Hclosed. congruence. }
  set (l0 := foldl (deliver timeoutMs) (Listener true true None []) early).
  assert (waiting l0) as Hl0 by (apply Hwait; by repeat split).
  assert (deliver timeoutMs l0 (Incoming t req) = handler req l0) as Hstep.
  { destruct Hl0 as (Hopen & Htimer & _). unfold deliver.
    rewrite Htimer. cbn [event_time andb].
    replace (timeoutMs <=? t)%Z with false by (symmetry; by apply Z.leb_gt).
    by rewrite Hopen. }
  pose proof (handler_ends l0 req Hl0 Hpath) as Hended.
  assert (run_listener timeoutMs (browser port) = handler req l0) as Hrun.
  { unfold run_listener. rewrite Hbrowser, foldl_app. cbn [foldl]. fold l0.
    rewrite Hstep, (foldl_deliver_ended _ _ _ _ Hended).
    by destruct Hended as (_ & -> & _). }
  exists (handler req l0). split; [|done].
  unfold createCallbackServer. rewrite Hrun.
  by destruct Hended as (_ & _ & ->).
Qed.

(** C6.  When no callback arrives within the 120 seconds, [authorize] fails
    with the timeout as its error, the listener has ended (socket closed,
    timer spent, promise rejected with the timeout), no request was sent to
    the provider and the document file is as it was: no token record is
    written. *)
Theorem authorize_timeout_writes_nothing `{E : env} (port : Z) (w : world) :
  openPort = Ok port →
  no_callback_before 120000 (browser port) →
  ∃ w' l,
    StravaClient.authorize w
      = (Throw "Authorization failed: Authorization timeout", w')
    ∧ server w' = Some l
    ∧ ended (Throw "Authorization timeout") l
    ∧ disk w' = disk w
    ∧ log w' = log w.
Proof.
  intros Hport Hquiet.
  pose proof (run_listener_times_out _ _ Hquiet) as Hended.
  exists (set_server w (Some (run_listener 120000 (browser port)))),
         (run_listener 120000 (browser port)).
  split; [|split; [reflexivity|split; [exact Hended|split; reflexivity]]].
  unfold StravaClient.authorize.
  erewrite bind_Ok; [|unfold findOpenPort; by rewrite Hport].
  unfold try_catch.
  erewrite bind_Throw; [reflexivity|].
  unfold createCallbackServer. destruct Hended as (_ & _ & ->). reflexivity.
Qed.

Lemma authorize_timeout_writes_nothing_witness :
  ∃ w' l,
    StravaClient.authorize (E := idle_browser) logged_in
      = (Throw "Authorization failed: Authorization timeout", w')
    ∧ server w' = Some l
    ∧ ended (Throw "Authorization timeout") l
    ∧ disk w' = disk logged_in
    ∧ log w' = log logged_in.
Proof.
  apply (authorize_timeout_writes_nothing (E := idle_browser) 49152 logged_in).
  - reflexivity.
  - intros ev Hev Hearly. simpl in Hev.
    apply elem_of_cons in Hev as [->|Hev].
    + eexists _, _. split; [reflexivity|discriminate].
    + apply list_elem_of_singleton in Hev as ->. simpl in Hearly. lia.
Defined.

(** * Properties of the rest of the code *)

(** ** The upserts of db.js *)

Lemma strict_eq_true (a b : value) : strict_eq a b = true → a = b ∧ a ≠ VNaN.
Proof.
  unfold strict_eq. destruct a; try done;
    intros H; apply bool_decide_eq_true in H; by subst.
Qed.

Lemma strict_eq_key (a : value) : is_key a → strict_eq a a = true.
Proof. unfold is_key. destruct a; try done; intros _; by apply bool_decide_eq_true. Qed.

Lemma strict_eq_other (a b c : value) :
  strict_eq a b = true → b ≠ c → strict_eq a c = false.
Proof.
  intros [-> Hnan]%strict_eq_true Hbc. unfold strict_eq.
  destruct b; try done; by apply bool_decide_eq_false.
Qed.

Section upsert_list.
Context {A : Type} (p : A → bool) (r : A).

Lemma upsert_list_find (l : list A) :
  p r = true → find p (upsert_list p r l) = Some r.
Proof.
  intros Hr. unfold upsert_list. destruct (findIndex p l) as [i|] eqn:Hi.
  - destruct (findIndex_Some _ _ _ Hi) as (x & Hx & _ & Hbefore).
    apply find_insert_first; [by eapply lookup_lt_Some|done|done].
  - apply find_app_last; [done|]. by apply findIndex_None.
Qed.

(** The array as two halves around the element that is replaced. *)
Lemma upsert_list_split (l : list A) :
  (∃ l1 x l2, l = l1 ++ x :: l2 ∧ p x = true ∧ (∀ y, y ∈ l1 → p y = false)
              ∧ upsert_list p r l = l1 ++ r :: l2)
  ∨ ((∀ y, y ∈ l → p y = false) ∧ upsert_list p r l = l ++ [r]).
Proof.
  unfold upsert_list. destruct (findIndex p l) as [i|] eqn:Hi.
  - left. destruct (findIndex_Some _ _ _ Hi) as (x & Hx & Hpx & Hbefore).
    exists (take i l), x, (drop (S i) l).
    split; [by rewrite take_drop_middle|]. split; [done|]. split.
    + intros y Hy. apply list_elem_of_lookup in Hy as [k Hk].
      pose proof (lookup_lt_Some _ _ _ Hk) as Hlt. rewrite length_take in Hlt.
      rewrite lookup_take_lt in Hk by lia. apply (Hbefore k); [lia|done].
    + apply insert_take_drop. by eapply lookup_lt_Some.
  - right. split; [|done]. by apply findIndex_None.
Qed.

Lemma filter_none (q : A → bool) (l : list A) :
  (∀ y, y ∈ l → q y = false) → List.filter q l = [].
Proof.
  induction l as [|y l IH]; intros Hl; simpl; [done|].
  rewrite (Hl y); [|by left]. apply IH. intros z Hz. apply Hl. by right.
Qed.

(** After an upsert exactly one more record is taken by [p] when none was,
    and as many as before otherwise. *)
Lemma upsert_list_count (l : list A) :
  p r = true →
  length (List.filter p (upsert_list p r l)) = Nat.max 1 (length (List.filter p l)).
Proof.
  intros Hr.
  destruct (upsert_list_split l) as [(l1 & x & l2 & -> & Hx & Hl1 & ->)|[Hl ->]].
  - rewrite !List.filter_app. simpl. rewrite Hr, Hx. simpl.
    rewrite !length_app. simpl. lia.
  - rewrite List.filter_app, (filter_none p l Hl). simpl. by rewrite Hr.
Qed.

(** What another key selects is not changed. *)
Lemma upsert_list_others (q : A → bool) (l : list A) :
  q r = false → (∀ x, p x = true → q x = false) →
  List.filter q (upsert_list p r l) = List.filter q l.
Proof.
  intros Hr Hpq.
  destruct (upsert_list_split l) as [(l1 & x & l2 & -> & Hx & Hl1 & ->)|[Hl ->]].
  - rewrite !List.filter_app. simpl. by rewrite Hr, (Hpq x Hx).
  - rewrite List.filter_app. simpl. by rewrite Hr, app_nil_r.
Qed.

Lemma upsert_list_length (l : list A) :
  length (upsert_list p r l)
  = match find p l with Some _ => length l | None => S (length l) end.
Proof.
  rewrite find_findIndex. unfold upsert_list.
  destruct (findIndex p l) as [i|] eqn:Hi; simpl.
  - destruct (findIndex_Some _ _ _ Hi) as (x & -> & _). by rewrite length_insert.
  - rewrite length_app. simpl. lia.
Qed.

End upsert_list.

Lemma find_filter_other {A} (p q : A → bool) (l : list A) :
  (∀ x, p x = true → q x = true) → find p (List.filter q l) = find p l.
Proof.
  intros Hpq. induction l as [|x l IH]; simpl; [done|].
  destruct (q x) eqn:Hq; simpl.
  - by destruct (p x).
  - destruct (p x) eqn:Hp; [|done]. by rewrite (Hpq x Hp) in Hq.
Qed.

Lemma find_filter_none {A} (p q : A → bool) (l : list A) :
  (∀ x, p x = true → q x = false) → find p (List.filter q l) = None.
Proof.
  intros Hpq. induction l as [|x l IH]; simpl; [done|].
  destruct (q x) eqn:Hq; simpl; [|done].
  destruct (p x) eqn:Hp; [|done]. by rewrite (Hpq x Hp) in Hq.
Qed.

(** ** The token store *)

Lemma upsertStravaToken_upsert_list `{E : env}
    (d : data) (a acc ref exp sc : value) (w : world) :
  upsertStravaToken d a acc ref exp sc w
  = (Ok (set_stravaTokens d
           (upsert_list (λ t, strict_eq (get t "athleteId") a)
                        (token_record (ticks w) a acc ref exp sc) (stravaTokens d))),
     after_ticks 2 w).
Proof. by rewrite upsertStravaToken_eq. Qed.

Lemma getStravaToken_by_athlete `{E : env} (d : data) (a : value) :
  names_athlete a →
  getStravaToken d a = find (λ t, strict_eq (get t "athleteId") a) (stravaTokens d).
Proof. intros (? & ? & ?). by destruct a. Qed.

(** X1.  A token written for an athlete is the token found for that
    athlete: the lookup gives a record with the access token, the refresh
    token, the expiry and the scopes that were written. *)
Theorem token_upsert_then_lookup `{E : env}
    (d d' : data) (athleteId accessToken refreshToken expiresAt scopes : value)
    (w w' : world) :
  names_athlete athleteId →
  upsertStravaToken d athleteId accessToken refreshToken expiresAt scopes w
    = (Ok d', w') →
  ∃ token,
    getStravaToken d' athleteId = Some token
    ∧ get token "athleteId" = athleteId
    ∧ get token "accessToken" = accessToken
    ∧ get token "refreshToken" = refreshToken
    ∧ get token "expiresAt" = expiresAt
    ∧ get token "scopes" = scopes.
Proof.
  intros Ha. rewrite upsertStravaToken_upsert_list. intros [= <- _].
  exists (token_record (ticks w) athleteId accessToken refreshToken expiresAt scopes).
  split; [|by repeat split].
  rewrite getStravaToken_by_athlete by done. simpl.
  apply upsert_list_find. apply strict_eq_key, Ha.
Qed.

Lemma token_upsert_then_lookup_witness :
  ∃ token,
    getStravaToken (E := offline)
      (set_stravaTokens empty_store
         [token_record (E := offline) 0 (VNum 7) (VStr "A1") (VStr "R1") (VNum 1500)
                       (VStr SCOPES)])
      (VNum 7) = Some token
    ∧ get token "athleteId" = VNum 7
    ∧ get token "accessToken" = VStr "A1"
    ∧ get token "refreshToken" = VStr "R1"
    ∧ get token "expiresAt" = VNum 1500
    ∧ get token "scopes" = VStr SCOPES.
Proof.
  apply (token_upsert_then_lookup (E := offline) empty_store _
           (VNum 7) (VStr "A1") (VStr "R1") (VNum 1500) (VStr SCOPES)
           (world_of empty_store) (after_ticks 2 (world_of empty_store))).
  - by repeat split.
  - reflexivity.
Defined.

(** X2.  [upsertStravaToken] keeps one record per athlete: the athlete has
    one record after it if there was none, and as many as before otherwise,
    and the records of every other athlete are the same. *)
Theorem token_upsert_one_per_athlete `{E : env}
    (d d' : data) (athleteId accessToken refreshToken expiresAt scopes : value)
    (w w' : world) :
  is_key athleteId →
  upsertStravaToken d athleteId accessToken refreshToken expiresAt scopes w
    = (Ok d', w') →
  length (tokens_of athleteId d') = Nat.max 1 (length (tokens_of athleteId d))
  ∧ ∀ other, other ≠ athleteId → tokens_of other d' = tokens_of other d.
Proof.
  intros Ha. rewrite upsertStravaToken_upsert_list. intros [= <- _].
  unfold tokens_of. simpl. split.
  - apply upsert_list_count. by apply strict_eq_key.
  - intros other Hother. apply upsert_list_others.
    + change (strict_eq athleteId other = false).
      eapply strict_eq_other; [by apply strict_eq_key|done].
    + intros x Hx. by eapply strict_eq_other.
Qed.

Lemma token_upsert_one_per_athlete_witness :
  length (tokens_of (VNum 7)
            (set_stravaTokens empty_store
               [token_record (E := offline) 0 (VNum 7) (VStr "A1") (VStr "R1")
                             (VNum 1500) (VStr SCOPES)]))
  = Nat.max 1 (length (tokens_of (VNum 7) empty_store))
  ∧ ∀ other, other ≠ VNum 7 →
      tokens_of other
        (set_stravaTokens empty_store
           [token_record (E := offline) 0 (VNum 7) (VStr "A1") (VStr "R1")
                         (VNum 1500) (VStr SCOPES)])
      = tokens_of other empty_store.
Proof.
  apply (token_upsert_one_per_athlete (E := offline) empty_store _
           (VNum 7) (VStr "A1") (VStr "R1") (VNum 1500) (VStr SCOPES)
           (world_of empty_store) (after_ticks 2 (world_of empty_store))).
  - discriminate.
  - reflexivity.
Defined.

Lemma deleteStravaToken_filter (d : data) (a : value) :
  stravaTokens (deleteStravaToken d a)
  = List.filter (λ t, negb (strict_eq (get t "athleteId") a)) (stravaTokens d).
Proof.
  unfold deleteStravaToken. simpl.
  induction (stravaTokens d) as [|t l IH]; [done|].
  rewrite filter_cons. simpl. case_decide as Heq.
  - rewrite Heq. simpl. by rewrite IH.
  - destruct (strict_eq (get t "athleteId") a); [done|]. by destruct Heq.
Qed.

Lemma deleteStravaToken_gone `{E : env} (d : data) (a : value) :
  names_athlete a → getStravaToken (deleteStravaToken d a) a = None.
Proof.
  intros Ha. rewrite getStravaToken_by_athlete, deleteStravaToken_filter by done.
  apply find_filter_none. by intros x ->.
Qed.

Lemma deleteStravaToken_other `{E : env} (d : data) (a other : value) :
  names_athlete other → other ≠ a →
  getStravaToken (deleteStravaToken d a) other = getStravaToken d other.
Proof.
  intros Hother Hne.
  rewrite !getStravaToken_by_athlete, deleteStravaToken_filter by done.
  apply find_filter_other. intros x Hx.
  by rewrite (strict_eq_other _ _ _ Hx Hne).
Qed.

(** X3.  After [deleteStravaToken] no token is found for the athlete, and
    the token found for any other athlete is the one found before. *)
Theorem token_delete_then_lookup `{E : env} (d : data) (athleteId : value) :
  names_athlete athleteId →
  getStravaToken (deleteStravaToken d athleteId) athleteId = None
  ∧ ∀ other, names_athlete other → other ≠ athleteId →
      getStravaToken (deleteStravaToken d athleteId) other = getStravaToken d other.
Proof.
  intros Ha. split; [by apply deleteStravaToken_gone|].
  intros other Hother Hne. by apply deleteStravaToken_other.
Qed.

Lemma token_delete_then_lookup_witness :
  getStravaToken (E := offline) (deleteStravaToken store_with_expires_at (VNum 7))
                 (VNum 7) = None
  ∧ ∀ other, names_athlete other → other ≠ VNum 7 →
      getStravaToken (E := offline) (deleteStravaToken store_with_expires_at (VNum 7))
                     other
      = getStravaToken (E := offline) store_with_expires_at other.
Proof.
  apply (token_delete_then_lookup (E := offline) store_with_expires_at (VNum 7)).
  by repeat split.
Defined.

Section latest_token.
Context `{E : env}.

(** The step of the [reduce] of [getStravaToken]. *)
Let later (latest : option obj) (token : obj) : option obj :=
  match latest with
  | None => Some token
  | Some l => if (tokenTime l <=? tokenTime token)%Z then Some token else Some l
  end.

Lemma latest_from (t0 : obj) (l : list obj) :
  ∃ t, foldl later (Some t0) l = Some t
       ∧ t ∈ t0 :: l
       ∧ ∀ t', t' ∈ t0 :: l → (tokenTime t' <= tokenTime t)%Z.
Proof.
  revert t0. induction l as [|x l IH]; intros t0; simpl.
  - exists t0. split; [done|]. split; [by left|].
    intros t' ->%list_elem_of_singleton. lia.
  - destruct (Z.leb_spec (tokenTime t0) (tokenTime x)) as [Hle|Hgt].
    + destruct (IH x) as (t & -> & Hin & Hmax). exists t.
      split; [done|]. split; [by right|].
      intros t' [->|Ht']%elem_of_cons; [|by apply Hmax].
      pose proof (Hmax x (list_elem_of_here _ _)). lia.
    + destruct (IH t0) as (t & -> & Hin & Hmax). exists t.
      split; [done|]. split.
      * apply elem_of_cons in Hin as [->|Hin]; [by left|by do 2 right].
      * intros t' [->|[->|Ht']%elem_of_cons]%elem_of_cons.
        -- apply Hmax. by left.
        -- pose proof (Hmax t0 (list_elem_of_here _ _)). lia.
        -- apply Hmax. by right.
Qed.

(** X4.  Asked without an athlete, [getStravaToken] gives nothing for an
    empty store and otherwise a token of the store that no other token is
    later than, by the time stamp [Date.parse(updatedAt || createdAt)]
    (0 when it does not parse). *)
Theorem latest_token_is_latest (d : data) (athleteId : value) :
  athleteId = VNull ∨ athleteId = VUndef →
  match getStravaToken d athleteId with
  | None => stravaTokens d = []
  | Some token =>
      token ∈ stravaTokens d
      ∧ ∀ other, other ∈ stravaTokens d → (tokenTime other <= tokenTime token)%Z
  end.
Proof.
  intros Ha.
  assert (getStravaToken d athleteId = foldl later None (stravaTokens d)) as ->
    by (by destruct Ha as [-> | ->]).
  destruct (stravaTokens d) as [|t0 l]; [done|]. simpl.
  by destruct (latest_from t0 l) as (t & -> & Hin & Hmax).
Qed.

End latest_token.

Lemma latest_token_is_latest_witness :
  match getStravaToken (E := offline) store_with_expires_at VNull with
  | None => stravaTokens store_with_expires_at = []
  | Some token =>
      token ∈ stravaTokens store_with_expires_at
      ∧ ∀ other, other ∈ stravaTokens store_with_expires_at →
          (tokenTime (E := offline) other <= tokenTime (E := offline) token)%Z
  end.
Proof.
  apply (latest_token_is_latest (E := offline) store_with_expires_at VNull).
  by left.
Defined.

(** ** Bikes *)

Lemma get_insert (o : obj) (k k' : string) (v : value) :
  get (<[k := v]> o) k' = if decide (k = k') then v else get o k'.
Proof.
  unfold get. rewrite lookup_insert. by case_decide.
Qed.

Lemma get_insert_eq (o : obj) (k : string) (v : value) : get (<[k := v]> o) k = v.
Proof. rewrite get_insert. by rewrite decide_True. Qed.

Lemma get_insert_ne (o : obj) (k k' : string) (v : value) :
  k ≠ k' → get (<[k := v]> o) k' = get o k'.
Proof. intros. rewrite get_insert. by rewrite decide_False. Qed.

Lemma find_fmap {A} (p : A → bool) (f : A → A) (l : list A) :
  find p (f <$> l) = f <$> find (λ x, p (f x)) l.
Proof.
  induction l as [|x l IH]; simpl; [done|]. by destruct (p (f x)).
Qed.

(** X5.  [setDefaultBike] makes the flag of every bike say whether the bike
    has the identifier, so the default bike is then the bike found under
    that identifier, and there is no default bike left when no bike has
    it. *)
Theorem setDefaultBike_sets_and_clears (d : data) (id : value) :
  (∀ b, b ∈ bikes (setDefaultBike d id) →
        get b "isDefault" = VBool (strict_eq (get b "id") id))
  ∧ getDefaultBike (setDefaultBike d id)
    = (λ b, <["isDefault" := VBool true]> b) <$> getBike d id
  ∧ (getBike d id = None → getDefaultBike (setDefaultBike d id) = None).
Proof.
  assert (getDefaultBike (setDefaultBike d id)
          = (λ b, <["isDefault" := VBool true]> b) <$> getBike d id) as Hdefault.
  { unfold getDefaultBike, setDefaultBike, getBike. simpl.
    rewrite find_fmap.
    induction (bikes d) as [|b l IH]; simpl; [done|].
    rewrite get_insert_eq. simpl.
    destruct (strict_eq (get b "id") id) eqn:Hb; simpl; [by rewrite Hb|].
    apply IH. }
  split; [|split; [done|by intros Hnone; rewrite Hdefault, Hnone]].
  intros b Hb. unfold setDefaultBike in Hb. simpl in Hb.
  apply list_elem_of_fmap in Hb as (b0 & -> & _).
  rewrite get_insert_eq, get_insert_ne; done.
Qed.

Lemma deleteBike_lookup (d : data) (id : value) :
  getBike (deleteBike d id) id = None
  ∧ ∀ other, other ≠ id → getBike (deleteBike d id) other = getBike d other.
Proof.
  unfold getBike, deleteBike. simpl. split.
  - apply find_filter_none. by intros x ->.
  - intros other Hother. apply find_filter_other. intros x Hx.
    by rewrite (strict_eq_other _ _ _ Hx Hother).
Qed.

(** X6.  After [deleteBike] no bike is found under the identifier, and the
    bike found under any other identifier is the one found before. *)
Theorem deleteBike_then_lookup (d : data) (id : value) :
  getBike (deleteBike d id) id = None
  ∧ ∀ other, other ≠ id → getBike (deleteBike d id) other = getBike d other.
Proof.
  unfold getBike, deleteBike. cbn [bikes set_bikes]. split.
  - apply find_filter_none. intros x Hx. by rewrite Hx.
  - intros other Hother. apply find_filter_other. intros x Hx.
    apply negb_true_iff. eapply strict_eq_other; [exact Hx|done].
Qed.

Section bikes.
Context `{E : env}.

(** What [upsertBike] stores for a bike, given the time before. *)
Lemma upsertBike_upsert_list (d : data) (bike : obj) (w : world) :
  ∃ r w',
    upsertBike d bike w
    = (Ok (set_bikes d (upsert_list (has_id (get bike "id")) r (bikes d))), w')
    ∧ (∀ k, k ≠ "createdAt" → k ≠ "updatedAt" → get r k = get bike k)
    ∧ (truthy (get bike "createdAt") = true →
       get r "createdAt" = get bike "createdAt"
       ∧ get r "updatedAt" = VStr (toISOString (clock (ticks w))))
    ∧ (truthy (get bike "createdAt") = false →
       get r "createdAt" = VStr (toISOString (clock (ticks w)))
       ∧ get r "updatedAt" = VStr (toISOString (clock (S (ticks w)))))
    ∧ uuids w' = uuids w ∧ log w' = log w ∧ disk w' = disk w.
Proof.
  unfold upsertBike, or_now, upsert_list, has_id.
  destruct (truthy (get bike "createdAt")) eqn:Hc.
  - eexists _, _. split; [by destruct (findIndex _ (bikes d))|].
    split; [|split; [|split; [done|done]]].
    + intros k Hk1 Hk2. by rewrite !get_insert_ne.
    + intros _. by rewrite get_insert_eq, get_insert_ne, get_insert_eq.
  - eexists _, _. split; [by destruct (findIndex _ (bikes d))|].
    split; [|split; [done|split; [|done]]].
    + intros k Hk1 Hk2. by rewrite !get_insert_ne.
    + intros _. by rewrite get_insert_eq, get_insert_ne, get_insert_eq.
Qed.

End bikes.

(** X7.  A bike written by [upsertBike] is the bike found under its
    identifier, with the properties it was given; it keeps the [createdAt]
    it came with and gets the time of the call as [updatedAt]; the
    identifier has one bike after the call if it had none and as many as
    before otherwise, and the bikes of other identifiers are the same. *)
Theorem upsertBike_then_lookup `{E : env} (d d' : data) (bike : obj) (w w' : world) :
  is_key (get bike "id") →
  upsertBike d bike w = (Ok d', w') →
  ∃ r,
    getBike d' (get bike "id") = Some r
    ∧ (∀ k, k ≠ "createdAt" → k ≠ "updatedAt" → get r k = get bike k)
    ∧ (truthy (get bike "createdAt") = true →
       get r "createdAt" = get bike "createdAt")
    ∧ length (List.filter (has_id (get bike "id")) (bikes d'))
      = Nat.max 1 (length (List.filter (has_id (get bike "id")) (bikes d)))
    ∧ ∀ other, other ≠ get bike "id" →
        List.filter (has_id other) (bikes d') = List.filter (has_id other) (bikes d).
Proof.
  intros Hkey Hrun.
  destruct (upsertBike_upsert_list d bike w) as (r & w1 & Heq & Hsame & Hkept & _).
  rewrite Heq in Hrun. injection Hrun as <- <-.
  assert (has_id (get bike "id") r = true) as Hr.
  { unfold has_id. rewrite Hsame by done. by apply strict_eq_key. }
  exists r. split; [by apply upsert_list_find|].
  split; [done|]. split; [by intros Hc; apply Hkept|].
  split; [by apply upsert_list_count|].
  intros other Hother. apply upsert_list_others.
  - unfold has_id. rewrite Hsame by done.
    eapply strict_eq_other; [by apply strict_eq_key|done].
  - intros x Hx. by eapply strict_eq_other.
Qed.

Lemma upsertBike_then_lookup_witness :
  ∃ r,
    getBike (set_bikes one_bike
               [<["updatedAt" := VStr "1000000"]>
                  (<["createdAt" := VStr "2024-05-01T08:00:00.000Z"]> tarmac_renamed)])
            (VStr "3f0c") = Some r
    ∧ get r "name" = VStr "Tarmac SL7"
    ∧ get r "createdAt" = VStr "2024-05-01T08:00:00.000Z".
Proof.
  destruct (upsertBike_then_lookup (E := offline) one_bike
              (set_bikes one_bike
                 [<["updatedAt" := VStr "1000000"]>
                    (<["createdAt" := VStr "2024-05-01T08:00:00.000Z"]> tarmac_renamed)])
              tarmac_renamed
              (world_of one_bike) (after_ticks 1 (world_of one_bike)))
    as (r & Hr & Hsame & Hcreated & _).
  - discriminate.
  - reflexivity.
  - exists r. split; [exact Hr|]. split.
    + by rewrite Hsame.
    + by rewrite Hcreated.
Defined.

(** ** What is read back from the file *)

Lemma strict_eq_json_obj_not_null (o : obj) (k : string) (v : value) :
  v ≠ VNull →
  strict_eq (get (json_obj o) k) v = strict_eq (get o k) v.
Proof.
  intros Hv. rewrite get_json_obj.
  destruct (get o k) eqn:Hget; try reflexivity.
  simpl. by apply bool_decide_eq_false.
Qed.

Lemma find_json_obj (k : string) (v : value) (l : list obj) :
  v ≠ VNull →
  find (λ o, strict_eq (get o k) v) (json_obj <$> l)
  = json_obj <$> find (λ o, strict_eq (get o k) v) l.
Proof.
  intros Hv. induction l as [|o l IH]; simpl; [done|].
  rewrite strict_eq_json_obj_not_null by done.
  by destruct (strict_eq (get o k) v).
Qed.

Lemma truthy_names_athlete (a : value) : truthy a = true → names_athlete a.
Proof. by destruct a. Qed.

Lemma getStravaToken_json_data `{E : env} (d : data) (a : value) :
  names_athlete a →
  getStravaToken (json_data d) a = json_obj <$> getStravaToken d a.
Proof.
  intros Ha. rewrite !getStravaToken_by_athlete by done.
  apply find_json_obj, Ha.
Qed.

Lemma getBike_json_data (d : data) (id : value) :
  id ≠ VNull → getBike (json_data d) id = json_obj <$> getBike d id.
Proof. intros Hid. by apply find_json_obj. Qed.

(** ** The commands of cli.js *)

(** X8.  [bike auth logout] looks for the token of athlete 0.  The token of
    any other athlete is still found in the file after the command; and when
    no token has the athlete 0, the command says that there is no
    authentication and writes the document back as it was. *)
Theorem logout_keeps_other_athletes `{E : env}
    (d : data) (w : world) (athleteId : value) (token : obj) :
  disk w = Some d →
  names_athlete athleteId →
  athleteId ≠ VNum 0 →
  getStravaToken d athleteId = Some token →
  ∃ message w' d',
    auth_logout w = (Ok message, w')
    ∧ disk w' = Some d'
    ∧ getStravaToken d' athleteId = Some (json_obj token)
    ∧ (getStravaToken d (VNum 0) = None →
       message = "Not authenticated with Strava." ∧ d' = json_data d).
Proof.
  intros Hd Ha Hne Htoken. unfold auth_logout.
  destruct (getStravaToken d (VNum 0)) as [zero|] eqn:Hzero.
  - assert (get zero "athleteId" = VNum 0) as Hid.
    { simpl in Hzero. apply find_some in Hzero as [_ Heq].
      by apply strict_eq_true in Heq as [-> _]. }
    eexists _, _, _. split.
    { erewrite bind_Ok; [|eapply modifyData_Ok;
                             [by apply loadData_Some|by rewrite Hzero]].
      reflexivity. }
    split; [reflexivity|]. split; [|done]. simpl.
    rewrite getStravaToken_json_data by done. rewrite Hid.
    by rewrite deleteStravaToken_other, Htoken.
  - eexists _, _, _. split.
    { erewrite bind_Ok; [|eapply modifyData_Ok;
                             [by apply loadData_Some|by rewrite Hzero]].
      reflexivity. }
    split; [reflexivity|]. split; [|done]. simpl.
    by rewrite getStravaToken_json_data, Htoken.
Qed.

Lemma logout_keeps_other_athletes_witness :
  ∃ message w' d',
    auth_logout (E := offline) logged_in = (Ok message, w')
    ∧ disk w' = Some d'
    ∧ getStravaToken (E := offline) d' (VNum 7) = Some (json_obj logged_in_token)
    ∧ (getStravaToken (E := offline) logged_in_store (VNum 0) = None →
       message = "Not authenticated with Strava." ∧ d' = json_data logged_in_store).
Proof.
  apply (logout_keeps_other_athletes (E := offline) logged_in_store logged_in
           (VNum 7) logged_in_token).
  - vm_compute. reflexivity.
  - by repeat split.
  - discriminate.
  - reflexivity.
Defined.

Section bike_commands.
Context `{E : env}.

(** X9.  [bike bikes remove] of an identifier that no bike has ends with
    "Bike not found" and leaves the file as it is; otherwise it names the
    bike, and in the file it writes no bike is found under the identifier
    while every other identifier finds the bike it found before. *)
Theorem bikes_remove_cases (d : data) (w : world) (id : string) :
  disk w = Some d →
  match getBike d (VStr id) with
  | None => bikes_remove id w = (Throw ("Bike not found: " +:+ id), w)
  | Some bike =>
      ∃ w' d',
        bikes_remove id w = (Ok (get bike "name"), w')
        ∧ disk w' = Some d'
        ∧ getBike d' (VStr id) = None
        ∧ ∀ other, other ≠ VNull → other ≠ VStr id →
            getBike d' other = json_obj <$> getBike d other
  end.
Proof.
  intros Hd. unfold bikes_remove.
  destruct (getBike d (VStr id)) as [bike|] eqn:Hbike.
  - eexists _, _. split.
    { erewrite bind_Ok; [|eapply modifyData_Ok;
                             [by apply loadData_Some|by rewrite Hbike]].
      reflexivity. }
    split; [reflexivity|]. simpl.
    destruct (deleteBike_lookup d (VStr id)) as [Hgone Hother].
    split.
    + by rewrite getBike_json_data, Hgone.
    + intros other Hnull Hne. by rewrite getBike_json_data, Hother.
  - erewrite bind_Throw; [|eapply modifyData_Throw;
                               [by apply loadData_Some|by rewrite Hbike]].
    reflexivity.
Qed.

(** X10.  [bike bikes rename] of an identifier that no bike has ends with
    "Bike not found" and leaves the file as it is; otherwise the bike found
    under the identifier in the file it writes has the new name and, but for
    [updatedAt], every other property of the bike as it was (its
    [createdAt] too, when it had one). *)
Theorem bikes_rename_cases (d : data) (w : world) (id name : string) :
  disk w = Some d →
  match getBike d (VStr id) with
  | None => bikes_rename id name w = (Throw ("Bike not found: " +:+ id), w)
  | Some bike =>
      ∃ w' d' r,
        bikes_rename id name w = (Ok tt, w')
        ∧ disk w' = Some d'
        ∧ getBike d' (VStr id) = Some r
        ∧ get r "name" = VStr name
        ∧ (∀ k, k ≠ "name" → k ≠ "updatedAt" →
             (k = "createdAt" → truthy (get bike "createdAt") = true) →
             get r k = get (json_obj bike) k)
        ∧ length (bikes d') = length (bikes d)
  end.
Proof.
  intros Hd. unfold bikes_rename.
  destruct (getBike d (VStr id)) as [bike|] eqn:Hbike.
  - assert (get bike "id" = VStr id) as Hid.
    { apply find_some in Hbike as [_ Heq]. by apply strict_eq_true in Heq as [-> _]. }
    destruct (upsertBike_upsert_list d (<["name" := VStr name]> bike) w)
      as (r & w1 & Heq & Hsame & Hkept & _ & _ & _ & Hdisk).
    rewrite get_insert_ne, Hid in Heq by done.
    assert (has_id (VStr id) r = true) as Hr.
    { unfold has_id. rewrite Hsame, get_insert_ne, Hid by done.
      by apply strict_eq_key. }
    eexists _, _, (json_obj r). split.
    { erewrite bind_Ok; [|eapply modifyData_Ok; [by apply loadData_Some|];
                            rewrite Hbike; erewrite bind_Ok; [|exact Heq];
                            reflexivity].
      reflexivity. }
    split; [reflexivity|]. simpl. split; [|split; [|split]].
    + rewrite getBike_json_data by done. unfold getBike. simpl.
      by rewrite upsert_list_find.
    + by rewrite get_json_obj, Hsame, get_insert_eq.
    + intros k Hname Hupdated Hcreated. rewrite !get_json_obj.
      destruct (decide (k = "createdAt")) as [->|Hk].
      * destruct Hkept as [-> _]; [by rewrite get_insert_ne; auto|].
        by rewrite get_insert_ne.
      * by rewrite Hsame, get_insert_ne.
    + rewrite length_fmap, upsert_list_length.
      change (find (has_id (VStr id)) (bikes d)) with (getBike d (VStr id)).
      by rewrite Hbike.
  - erewrite bind_Throw; [|eapply modifyData_Throw;
                               [by apply loadData_Some|by rewrite Hbike]].
    reflexivity.
Qed.

End bike_commands.

Lemma bikes_remove_cases_witness :
  match getBike one_bike (VStr "3f0c") with
  | None => bikes_remove (E := offline) "3f0c" (world_of one_bike)
            = (Throw ("Bike not found: " +:+ "3f0c"), world_of one_bike)
  | Some bike =>
      ∃ w' d',
        bikes_remove (E := offline) "3f0c" (world_of one_bike)
          = (Ok (get bike "name"), w')
        ∧ disk w' = Some d'
        ∧ getBike d' (VStr "3f0c") = None
        ∧ ∀ other, other ≠ VNull → other ≠ VStr "3f0c" →
            getBike d' other = json_obj <$> getBike one_bike other
  end.
Proof.
  apply (bikes_remove_cases (E := offline) one_bike (world_of one_bike) "3f0c").
  reflexivity.
Defined.

Lemma bikes_rename_cases_witness :
  match getBike one_bike (VStr "3f0c") with
  | None => bikes_rename (E := offline) "3f0c" "Tarmac SL7" (world_of one_bike)
            = (Throw ("Bike not found: " +:+ "3f0c"), world_of one_bike)
  | Some bike =>
      ∃ w' d' r,
        bikes_rename (E := offline) "3f0c" "Tarmac SL7" (world_of one_bike) = (Ok tt, w')
        ∧ disk w' = Some d'
        ∧ getBike d' (VStr "3f0c") = Some r
        ∧ get r "name" = VStr "Tarmac SL7"
        ∧ (∀ k, k ≠ "name" → k ≠ "updatedAt" →
             (k = "createdAt" → truthy (get bike "createdAt") = true) →
             get r k = get (json_obj bike) k)
        ∧ length (bikes d') = length (bikes one_bike)
  end.
Proof.
  apply (bikes_rename_cases (E := offline) one_bike (world_of one_bike)
           "3f0c" "Tarmac SL7").
  reflexivity.
Defined.

Lemma find_app_last_then {A} (q : A → bool) (l1 l2 : list A) (r : A) :
  q r = true → (∀ y, y ∈ l1 → q y = false) → find q (l1 ++ r :: l2) = Some r.
Proof.
  intros Hr. induction l1 as [|x l1 IH]; intros Hl; simpl.
  - by rewrite Hr.
  - rewrite (Hl x); [|by left]. apply IH. intros y Hy. apply Hl. by right.
Qed.

Section adoption.
Context `{E : env}.

Lemma upsert_list_find_other {A} (p q : A → bool) (r : A) (l : list A) :
  q r = true → (∀ y, y ∈ l → q y = false) →
  find q (upsert_list p r l) = Some r.
Proof.
  intros Hr Hl.
  destruct (upsert_list_split p r l) as [(l1 & x & l2 & -> & Hx & Hl1 & ->)|[_ ->]].
  - apply find_app_last_then; [done|].
    intros y Hy. apply Hl. apply elem_of_app. by left.
  - by apply find_app_last.
Qed.

(** X11.  A bike added with [bike bikes add --strava-gear-id], when no bike
    had that gear identifier, is the bike that gear sync then takes for the
    gear: an entry with the gear identifier draws no identifier and is
    written under the identifier the command gave the bike. *)
Theorem added_bike_is_adopted (d : data) (w : world) (name : string)
    (type stravaGearId notes : value) :
  disk w = Some d →
  truthy stravaGearId = true →
  getBikeByStravaGearId d stravaGearId = None →
  randomUUID (uuids w) ≠ "" →
  ∃ w' d',
    bikes_add name type stravaGearId notes w = (Ok (VStr (randomUUID (uuids w))), w')
    ∧ disk w' = Some d'
    ∧ ∀ entry later, get entry "gear_id" = stravaGearId →
        ∃ d'' w'' r,
          syncBike d' entry later = (Ok d'', w'')
          ∧ uuids w'' = uuids later
          ∧ findByGear d'' stravaGearId = Some r
          ∧ get r "id" = VStr (randomUUID (uuids w)).
Proof.
  intros Hd Hg Hnone Huuid. unfold bikes_add.
  set (u := VStr (randomUUID (uuids w))).
  set (fields := literal [("id", u); ("name", VStr name); ("type", js_or type VNull);
                          ("stravaGearId", js_or stravaGearId VNull);
                          ("isDefault", VBool false); ("notes", js_or notes VNull)]).
  set (w1 := World (disk w) (ticks w) (S (uuids w)) (log w) (self w) (server w)).
  destruct (upsertBike_upsert_list d fields w1)
    as (r & w2 & Heq & Hsame & _ & _ & _ & _ & Hdisk).
  assert (get r "id" = u) as Hrid by (by rewrite Hsame).
  assert (get r "stravaGearId" = stravaGearId) as Hrgear.
  { rewrite Hsame by done. change (js_or stravaGearId VNull = stravaGearId).
    unfold js_or. by rewrite Hg. }
  assert (truthy u = true) as Hu by (simpl; by destruct (randomUUID (uuids w))).
  set (d1 := set_bikes d (upsert_list (has_id (get fields "id")) r (bikes d))) in *.
  assert (findByGear d1 stravaGearId = Some r) as Hfound.
  { unfold findByGear, d1. simpl. apply upsert_list_find_other.
    - rewrite Hrgear. by apply strict_eq_refl.
    - by apply find_None_all. }
  exists (set_disk w2 (Some (json_data d1))), (json_data d1).
  split.
  { erewrite bind_Ok; [|reflexivity]. fold u w1.
    erewrite bind_Ok; [reflexivity|].
    eapply (modifyData_Ok _ w1 w1 w2 d (d1, tt)); [by apply loadData_Some|].
    fold fields. by erewrite bind_Ok; [|exact Heq]. }
  split; [reflexivity|].
  intros entry later Hentry.
  assert (findByGear (json_data d1) (get entry "gear_id") = Some (json_obj r)) as Hstored.
  { rewrite Hentry, findByGear_json_data by done. by rewrite Hfound. }
  assert (get (json_obj r) "id" = u) as Hsame_id.
  { rewrite get_json_obj_truthy; by rewrite Hrid. }
  assert (matched_has_id (json_data d1) (get entry "gear_id")) as Hid.
  { intros b. rewrite Hstored. intros [= <-]. by rewrite Hsame_id. }
  pose proof (syncBike_eq (json_data d1) entry later) as Hrun.
  set (d2 := set_bikes (json_data d1) _) in Hrun.
  set (w3 := after_ticks 2 _) in Hrun.
  assert (truthy (get entry "gear_id") = true) as Hg2 by (by rewrite Hentry).
  pose proof (syncBike_rematch _ _ _ _ _ Hid Hg2 Hrun) as Hmatch.
  destruct (chosen_id_matched (json_data d1) entry _ later Hid Hstored) as [Hx Hdraw].
  exists d2, w3, (bike_record (json_data d1) entry later).
  split; [exact Hrun|]. split; [unfold w3; by rewrite Hdraw|].
  split; [by rewrite <- Hentry|].
  by rewrite get_bike_record_id, Hx, Hsame_id.
Qed.

End adoption.

Lemma added_bike_is_adopted_witness :
  ∃ w' d',
    bikes_add (E := offline) "Tarmac" (VStr "road") (VStr "b101") VUndef
              (world_of empty_store)
      = (Ok (VStr (randomUUID (env := offline) 0)), w')
    ∧ disk w' = Some d'
    ∧ ∀ entry later, get entry "gear_id" = VStr "b101" →
        ∃ d'' w'' r,
          syncBike (E := offline) d' entry later = (Ok d'', w'')
          ∧ uuids w'' = uuids later
          ∧ findByGear d'' (VStr "b101") = Some r
          ∧ get r "id" = VStr (randomUUID (env := offline) 0).
Proof.
  apply (added_bike_is_adopted (E := offline) empty_store (world_of empty_store)
           "Tarmac" (VStr "road") (VStr "b101") VUndef).
  - reflexivity.
  - reflexivity.
  - reflexivity.
  - discriminate.
Defined.

(** ** The client: [ensureToken] and [apiRequest] *)

Section api.
Context `{E : env}.

Lemma ensureToken_valid (w : world) :
  holds_valid_token w → StravaClient.ensureToken w = (Ok tt, after_ticks 1 w).
Proof.
  intros (Hheld & e & He & Hfresh). unfold StravaClient.ensureToken.
  erewrite bind_Ok; [|reflexivity]. rewrite Hheld. cbn [negb].
  erewrite bind_Ok.
  2: { unfold StravaClient.isTokenExpired. erewrite bind_Ok; [|reflexivity].
       change (get (literal [("expires_at", expiresAt (self w))]) "expires_at")
         with (expiresAt (self w)).
       cbn [self]. rewrite He. reflexivity. }
  replace (e - 300 <=? clock (ticks w) / 1000)%Z with false
    by (symmetry; apply Z.leb_gt; lia).
  by destruct w.
Qed.

Lemma apiRequest_fast {B} (req : value → request)
    (endpoint : nat → value → result (httpResponse B)) (w : world) :
  holds_valid_token w →
  StravaClient.apiRequest req endpoint w
  = match endpoint (length (log w)) (accessToken (self w)) with
    | Ok response =>
        if ok response then (Ok (json response), sent req w)
        else if (status response =? 401)%Z then
          (Throw "Session expired. Run 'bike auth login' again.",
           set_self (sent req w) (StravaClient.set_accessToken VNull (self w)))
        else
          (Throw ("Strava API error (" +:+ pretty (status response) +:+ "): "
                  +:+ text response), sent req w)
    | Throw e => (Throw e, sent req w)
    | Pending => (Pending, sent req w)
    end.
Proof.
  intros Hvalid. unfold StravaClient.apiRequest.
  erewrite bind_Ok; [|by apply ensureToken_valid].
  erewrite bind_Ok; [|reflexivity]. cbn [self after_ticks].
  unfold mbind, J_bind, fetch. cbn [log self after_ticks].
  destruct (endpoint (length (log w)) (accessToken (self w))) as [response| |];
    [|reflexivity..].
  destruct (ok response); [reflexivity|].
  destruct (status response =? 401)%Z; reflexivity.
Qed.

(** X12.  With a valid token held, [apiRequest] reads no file and sends one
    request, with that token.  A 2xx answer gives the body; a 401 clears the
    held token and throws "Session expired"; any other status throws with
    the status and the body and leaves the token; a failed fetch throws its
    error.  Nothing is sent a second time. *)
Theorem apiRequest_with_valid_token {B} (req : value → request)
    (endpoint : nat → value → result (httpResponse B)) (w : world) :
  holds_valid_token w →
  StravaClient.apiRequest req endpoint w
  = match endpoint (length (log w)) (accessToken (self w)) with
    | Ok response =>
        if ok response then (Ok (json response), sent req w)
        else if (status response =? 401)%Z then
          (Throw "Session expired. Run 'bike auth login' again.",
           set_self (sent req w) (StravaClient.set_accessToken VNull (self w)))
        else
          (Throw ("Strava API error (" +:+ pretty (status response) +:+ "): "
                  +:+ text response), sent req w)
    | Throw e => (Throw e, sent req w)
    | Pending => (Pending, sent req w)
    end.
Proof.
  intros Hvalid. unfold StravaClient.apiRequest.
  erewrite bind_Ok; [|by apply ensureToken_valid].
  erewrite bind_Ok; [|reflexivity].
  unfold mbind, J_bind, fetch. cbn [log self after_ticks].
  destruct (endpoint (length (log w)) (accessToken (self w))) as [response| |].
  - destruct (ok response); [reflexivity|].
    destruct (status response =? 401)%Z; reflexivity.
  - reflexivity.
  - reflexivity.
Qed.

(** X13.  Without a token in the store, and with none held, nothing goes to
    the network: [loadFromDb], [ensureToken] and every [apiRequest] end with
    the advice to log in, and change nothing. *)
Theorem no_token_no_request {B} (d : data) (w : world)
    (req : value → request) (endpoint : nat → value → result (httpResponse B)) :
  disk w = Some d →
  getStravaToken d (athleteId (self w)) = None →
  truthy (accessToken (self w)) = false →
  StravaClient.loadFromDb w
    = (Throw "No Strava token found. Run 'bike auth login' first.", w)
  ∧ StravaClient.ensureToken w
    = (Throw "No valid Strava token. Run 'bike auth login'.", w)
  ∧ StravaClient.apiRequest req endpoint w
    = (Throw "No valid Strava token. Run 'bike auth login'.", w).
Proof.
  intros Hd Hnone Hheld.
  assert (StravaClient.ensureToken w
          = (Throw "No valid Strava token. Run 'bike auth login'.", w)) as Hensure.
  { unfold StravaClient.ensureToken.
    erewrite bind_Ok; [|reflexivity]. rewrite Hheld. cbn [negb].
    erewrite bind_Ok; [|reflexivity]. cbn iota.
    erewrite bind_Ok; [|by apply loadData_Some].
    erewrite bind_Ok; [|reflexivity].
    erewrite bind_Throw; [reflexivity|]. by rewrite Hnone. }
  split; [|split; [done|]].
  - unfold StravaClient.loadFromDb.
    erewrite bind_Ok; [|by apply loadData_Some].
    erewrite bind_Ok; [|reflexivity].
    erewrite bind_Throw; [reflexivity|]. by rewrite Hnone.
  - unfold StravaClient.apiRequest. by erewrite bind_Throw.
Qed.

End api.

Lemma apiRequest_with_valid_token_witness :
  holds_valid_token (E := offline) holding
  ∧ StravaClient.apiRequest (E := offline) ReqAthlete unauthorized holding
    = (Throw "Session expired. Run 'bike auth login' again.",
       set_self (sent ReqAthlete holding)
                (StravaClient.set_accessToken VNull holding_client)).
Proof.
  assert (holds_valid_token (E := offline) holding) as Hvalid.
  { split; [reflexivity|]. exists 1500%Z. split; [reflexivity|]. vm_compute. reflexivity. }
  split; [exact Hvalid|].
  exact (apiRequest_with_valid_token (E := offline) ReqAthlete unauthorized holding Hvalid).
Defined.

Lemma no_token_no_request_witness :
  StravaClient.loadFromDb (E := offline) (world_of empty_store)
    = (Throw "No Strava token found. Run 'bike auth login' first.", world_of empty_store)
  ∧ StravaClient.ensureToken (E := offline) (world_of empty_store)
    = (Throw "No valid Strava token. Run 'bike auth login'.", world_of empty_store)
  ∧ StravaClient.apiRequest (E := offline) ReqAthlete unauthorized (world_of empty_store)
    = (Throw "No valid Strava token. Run 'bike auth login'.", world_of empty_store).
Proof.
  apply (no_token_no_request (E := offline) empty_store (world_of empty_store)
           ReqAthlete unauthorized); reflexivity.
Defined.

(** ** [authorize] *)

Section authorize.
Context `{E : env}.

(** The world once the code was exchanged: one request more, the clock read
    once. *)
Lemma exchangeCodeForToken_eq (code : string) (w : world) :
  exchangeCodeForToken code w
  = let w1 := World (disk w) (ticks w) (uuids w)
                    (log w ++ [ReqToken (AuthorizationCode code)]) (self w) (server w) in
    match tokenEndpoint (length (log w)) (AuthorizationCode code) with
    | Ok granted =>
        if ok granted then
          (Ok (Tokens (access_token (json granted)) (refresh_token (json granted))
                      (VNum (clock (ticks w) / 1000 + expires_in (json granted)))
                      (VStr SCOPES)),
           after_ticks 1 w1)
        else (Throw ("Strava API error: " +:+ pretty (status granted) +:+ " "
                     +:+ text granted), w1)
    | Throw e => (Throw e, w1)
    | Pending => (Pending, w1)
    end.
Proof.
  unfold exchangeCodeForToken, fetchJson, fetch, mbind, J_bind. cbn zeta.
  destruct (tokenEndpoint _ _) as [granted| |]; [|reflexivity..].
  destruct (ok granted); reflexivity.
Qed.

Lemma callback_arrives_decides (port : Z) (w : world) (req : callbackRequest) :
  callback_arrives port req →
  ∃ l, createCallbackServer port 120000 w
         = (callback_outcome req, set_server w (Some l)).
Proof.
  intros (early & rest & t & Hbrowser & Hearly & Ht & Hpath).
  destruct (first_callback_decides port 120000 w early rest t req
              Hbrowser Hearly Ht Hpath) as (l & Hl & _).
  by exists l.
Qed.

(** X14.  When the callback brings an error, or no code, [authorize] ends
    with that error: nothing is sent to the provider, the document file and
    the client are as they were. *)
Theorem authorize_refused_sends_nothing (port : Z) (w : world)
    (req : callbackRequest) (message : string) :
  openPort = Ok port →
  callback_arrives port req →
  callback_outcome req = Throw message →
  ∃ w',
    StravaClient.authorize w = (Throw ("Authorization failed: " +:+ message), w')
    ∧ log w' = log w
    ∧ disk w' = disk w
    ∧ self w' = self w.
Proof.
  intros Hport Harrives Hrefused.
  destruct (callback_arrives_decides port w req Harrives) as (l & Hl).
  exists (set_server w (Some l)). split; [|done].
  unfold StravaClient.authorize.
  erewrite bind_Ok; [|unfold findOpenPort; by rewrite Hport].
  unfold try_catch. erewrite bind_Throw; [reflexivity|].
  by rewrite Hl, Hrefused.
Qed.

(** The world in which [authorize] asks for the profile: the grant is held
    and valid. *)
Lemma usable_holds (granted : tokenBody) (w : world) (d : option data) (u : nat)
    (l : list request) (c : client) (s : option listener) :
  usable granted w →
  holds_valid_token
    (World d (S (ticks w)) u l
       (StravaClient.set_expiresAt
          (VNum (clock (ticks w) / 1000 + expires_in granted))
          (StravaClient.set_accessToken (access_token granted) c)) s).
Proof.
  intros [Haccess Hmargin]. split; [done|].
  eexists. split; [reflexivity|]. exact Hmargin.
Qed.

(** X15.  Whatever arrives at the listener and whatever the provider
    answers, an [authorize] that fails has written nothing: the document
    file is as it was.  (The grant is assumed usable, so that the profile
    is asked for with it.) *)
Theorem authorize_failure_writes_nothing (w w' : world) (e : string) :
  (∀ code granted,
     tokenEndpoint (length (log w)) (AuthorizationCode code) = Ok granted →
     ok granted = true → usable (json granted) w) →
  StravaClient.authorize w = (Throw e, w') →
  disk w' = disk w.
Proof.
  intros Husable. unfold StravaClient.authorize.
  unfold mbind at 1, J_bind at 1, findOpenPort.
  destruct openPort as [port| |]; [|by intros [= _ <-]..].
  unfold try_catch. unfold mbind at 1, J_bind at 1.
  unfold createCallbackServer at 1.
  set (l := run_listener 120000 (browser port)).
  destruct (settled l) as [[code| |]|]; [|by intros [= _ <-]..].
  unfold mbind at 1, J_bind at 1.
  rewrite exchangeCodeForToken_eq. cbn zeta.
  pose proof (Husable code) as Hgrant. cbn [log set_server] in *.
  destruct (tokenEndpoint (length (log w)) (AuthorizationCode code))
    as [granted| |]; [|by intros [= _ <-]..].
  specialize (Hgrant granted eq_refl).
  destruct (ok granted); [|by intros [= _ <-]].
  specialize (Hgrant eq_refl).
  unfold mbind at 1, J_bind at 1, StravaClient.assign at 1.
  unfold mbind at 1, J_bind at 1, StravaClient.assign at 1.
  unfold mbind at 1, J_bind at 1, StravaClient.getAthlete.
  unfold set_self, after_ticks.
  cbn [self disk ticks uuids log server tok_accessToken tok_expiresAt
       tok_refreshToken tok_scopes Nat.add].
  rewrite apiRequest_fast by (by apply usable_holds).
  cbn [log self accessToken StravaClient.set_expiresAt StravaClient.set_accessToken].
  destruct (athleteEndpoint _ _) as [profile| |]; [|by intros [= _ <-]..].
  destruct (ok profile); [|destruct (status profile =? 401)%Z; by intros [= _ <-]].
  unfold mbind at 1, J_bind at 1, StravaClient.assign at 1.
  destruct (loadData_total
              (set_self
                 (sent ReqAthlete
                    (World (disk w) (S (ticks w)) (uuids w)
                       (log w ++ [ReqToken (AuthorizationCode code)])
                       (StravaClient.set_expiresAt
                          (VNum (clock (ticks w) / 1000 + expires_in (json granted)))
                          (StravaClient.set_accessToken (access_token (json granted))
                             (self w)))
                       (Some l)))
                 (StravaClient.set_athleteId (athlete_id (json profile))
                    (StravaClient.set_expiresAt
                       (VNum (clock (ticks w) / 1000 + expires_in (json granted)))
                       (StravaClient.set_accessToken (access_token (json granted))
                          (self w))))))
    as (d & w1 & Hload & _).
  cbn [self sent].
  erewrite bind_Ok.
  2: { eapply modifyData_Ok; [exact Hload|].
       erewrite bind_Ok; [|reflexivity].
       erewrite bind_Ok; [|apply upsertStravaToken_upsert_list]. reflexivity. }
  discriminate.
Qed.

Lemma find_drop_middle {A} (q : A → bool) (l1 l2 : list A) (x : A) :
  q x = false → find q (l1 ++ x :: l2) = find q (l1 ++ l2).
Proof.
  intros Hx. induction l1 as [|y l1 IH]; simpl; [by rewrite Hx|].
  by destruct (q y).
Qed.

Lemma upsert_list_find_others {A} (p q : A → bool) (r : A) (l : list A) :
  q r = false → (∀ x, p x = true → q x = false) →
  find q (upsert_list p r l) = find q l.
Proof.
  intros Hr Hpq.
  destruct (upsert_list_split p r l)
    as [(l1 & x & l2 & -> & Hx & _ & ->)|[_ ->]].
  - rewrite !find_drop_middle; [done|by apply Hpq|done].
  - rewrite find_drop_middle by done. by rewrite app_nil_r.
Qed.

(** X16.  When the callback brings a code, the provider grants a usable
    token for it and answers the profile request, [authorize] returns the
    profile and has stored the grant under the athlete of the profile: two
    requests were sent (the code, then the profile with the new access
    token), the store as read back from the file gives the granted record
    for that athlete and the records it had for every other athlete, and
    the client holds the access token and the athlete. *)
Theorem authorize_stores_grant (port : Z) (w : world) (d : data)
    (req : callbackRequest) (code : string)
    (granted : httpResponse tokenBody) (profile : httpResponse athleteBody) :
  openPort = Ok port →
  callback_arrives port req →
  callback_outcome req = Ok code →
  tokenEndpoint (length (log w)) (AuthorizationCode code) = Ok granted →
  ok granted = true →
  usable (json granted) w →
  athleteEndpoint (S (length (log w))) (access_token (json granted)) = Ok profile →
  ok profile = true →
  names_athlete (athlete_id (json profile)) →
  disk w = Some d →
  ∃ w' d',
    StravaClient.authorize w = (Ok (authorized_as (json profile)), w')
    ∧ log w' = log w ++ [ReqToken (AuthorizationCode code);
                         ReqAthlete (access_token (json granted))]
    ∧ disk w' = Some d'
    ∧ getStravaToken d' (athlete_id (json profile))
      = Some (json_obj (granted_record (json granted) (json profile) w))
    ∧ (∀ other, names_athlete other → other ≠ athlete_id (json profile) →
         getStravaToken d' other = json_obj <$> getStravaToken d other)
    ∧ accessToken (self w') = access_token (json granted)
    ∧ athleteId (self w') = athlete_id (json profile).
Proof.
  intros Hport Harrives Hcode Hgranted Hok Husable Hprofile Hokp Hathlete Hd.
  destruct (callback_arrives_decides port w req Harrives) as (l & Hl).
  set (id := athlete_id (json profile)).
  set (rec := granted_record (json granted) (json profile) w).
  set (d1 := set_stravaTokens d
               (upsert_list (λ t, strict_eq (get t "athleteId") id) rec
                            (stravaTokens d))).
  eexists _, (json_data d1).
  split; [|split; [|split; [|split; [|split]]]].
  - unfold StravaClient.authorize.
    erewrite bind_Ok; [|unfold findOpenPort; by rewrite Hport].
    unfold try_catch.
    erewrite bind_Ok; [|by rewrite Hl, Hcode].
    erewrite bind_Ok.
    2: { rewrite exchangeCodeForToken_eq. cbn zeta. cbn [log set_server].
         by rewrite Hgranted, Hok. }
    erewrite bind_Ok; [|reflexivity].
    erewrite bind_Ok; [|reflexivity].
    erewrite bind_Ok.
    2: { unfold StravaClient.getAthlete, set_self, after_ticks, set_server.
         cbn [self disk ticks uuids log server tok_accessToken tok_expiresAt Nat.add].
         rewrite apiRequest_fast by (by apply usable_holds).
         cbn [log self accessToken StravaClient.set_expiresAt
              StravaClient.set_accessToken].
         rewrite length_app, Nat.add_comm. cbn [length Nat.add].
         by rewrite Hprofile, Hokp. }
    erewrite bind_Ok; [|reflexivity].
    erewrite bind_Ok.
    2: { eapply modifyData_Ok; [by apply loadData_Some|].
         erewrite bind_Ok; [|reflexivity].
         erewrite bind_Ok; [|apply upsertStravaToken_upsert_list]. reflexivity. }
    reflexivity.
  - cbn. by rewrite <- (assoc_L (++)).
  - reflexivity.
  - rewrite getStravaToken_json_data, getStravaToken_by_athlete by done.
    cbn [stravaTokens set_stravaTokens d1].
    rewrite upsert_list_find; [done|].
    apply strict_eq_key, Hathlete.
  - intros other Hother Hne.
    rewrite getStravaToken_json_data, !getStravaToken_by_athlete by done.
    f_equal. cbn [stravaTokens set_stravaTokens d1].
    apply upsert_list_find_others.
    + eapply strict_eq_other; [apply strict_eq_key, Hathlete|done].
    + intros x Hx. eapply strict_eq_other; [exact Hx|done].
  - split; reflexivity.
Qed.

End authorize.

Lemma comes_back_arrives (token : result (httpResponse tokenBody))
    (profile : result (httpResponse athleteBody)) (req : callbackRequest) (port : Z) :
  pathname req = "/callback" →
  callback_arrives (E := provider token profile (comes_back req)) port req.
Proof.
  intros Hpath.
  exists [Incoming 2500 (CallbackRequest "/favicon.ico" None None)], [], 9000%Z.
  split; [reflexivity|]. split; [|split; [lia|done]].
  intros ev Hev. apply list_elem_of_singleton in Hev as ->.
  split; [simpl; lia|]. eexists _, _. split; [reflexivity|discriminate].
Qed.

Lemma authorize_refused_sends_nothing_witness :
  ∃ w',
    StravaClient.authorize (E := refusing) logged_in
      = (Throw ("Authorization failed: " +:+ "OAuth error: access_denied"), w')
    ∧ log w' = log logged_in
    ∧ disk w' = disk logged_in
    ∧ self w' = self logged_in.
Proof.
  apply (authorize_refused_sends_nothing (E := refusing) 49152 logged_in denied
           "OAuth error: access_denied").
  - reflexivity.
  - by apply comes_back_arrives.
  - reflexivity.
Defined.

Lemma authorize_failure_writes_nothing_witness :
  (StravaClient.authorize (E := revoking) (world_of empty_store)).1
    = Throw "Authorization failed: Session expired. Run 'bike auth login' again."
  ∧ disk (StravaClient.authorize (E := revoking) (world_of empty_store)).2
    = disk (world_of empty_store).
Proof.
  split; [vm_compute; reflexivity|].
  apply (authorize_failure_writes_nothing (E := revoking) (world_of empty_store)
           (StravaClient.authorize (E := revoking) (world_of empty_store)).2
           "Authorization failed: Session expired. Run 'bike auth login' again.").
  - intros code granted [= <-] _. split; [reflexivity|]. vm_compute. reflexivity.
  - vm_compute. reflexivity.
Defined.

Lemma authorize_stores_grant_witness :
  ∃ w' d',
    StravaClient.authorize (E := granting) (world_of empty_store)
      = (Ok (authorized_as (json profile_7)), w')
    ∧ log w' = [ReqToken (AuthorizationCode "4f1c"); ReqAthlete (VStr "A2")]
    ∧ disk w' = Some d'
    ∧ getStravaToken (E := granting) d' (VNum 7)
      = Some (json_obj (granted_record (E := granting) (json grant_A2) (json profile_7)
                                       (world_of empty_store)))
    ∧ (∀ other, names_athlete other → other ≠ VNum 7 →
         getStravaToken (E := granting) d' other
         = json_obj <$> getStravaToken (E := granting) empty_store other)
    ∧ accessToken (self w') = VStr "A2"
    ∧ athleteId (self w') = VNum 7.
Proof.
  apply (authorize_stores_grant (E := granting) 49152 (world_of empty_store) empty_store
           with_code "4f1c" grant_A2 profile_7); try reflexivity.
  - by apply comes_back_arrives.
  - split; [reflexivity|]. vm_compute. reflexivity.
  - repeat split; discriminate.
Defined.

(** ** [sync] *)

Section sync_entry.
Context `{E : env}.

(** X17.  [sync] reads the stored token before it authorizes: on a store
    without token records it fails before anything is sent and before the
    callback listener is opened, and the document file is as it was.  With
    credentials configured the error is the advice to log in first. *)
Theorem sync_needs_login (fuel : nat) (since : value) (full : bool)
    (w : world) (d : data) :
  disk w = Some d →
  stravaTokens d = [] →
  ∃ message w',
    sync fuel since full w = (Throw ("Sync failed: " +:+ message), w')
    ∧ log w' = log w
    ∧ disk w' = disk w
    ∧ server w' = server w
    ∧ ∀ creds, credentials = Some creds →
        message = "No Strava token found. Run 'bike auth login' first."
        ∧ self w' = StravaClient.constructor creds.
Proof.
  intros Hd Hnone. unfold sync, try_catch, createStravaClient.
  destruct credentials as [creds|].
  - eexists _, (set_self w (StravaClient.constructor creds)).
    split; [|split; [done|split; [done|split; [done|by intros ? [= <-]]]]].
    erewrite bind_Ok; [|reflexivity].
    erewrite bind_Throw; [reflexivity|].
    unfold StravaClient.loadFromDb.
    erewrite bind_Ok; [|by apply loadData_Some].
    erewrite bind_Ok; [|reflexivity].
    erewrite bind_Throw; [reflexivity|].
    cbn. by rewrite Hnone.
  - eexists _, w. split; [|done].
    erewrite bind_Throw; reflexivity.
Qed.

(** X18.  A stored token does not spare the authorization: with credentials
    and a token record in the store (one without the property [expires_at],
    as every record written by [upsertStravaToken] is), [sync] still opens
    the callback listener and waits for the browser.  When no callback
    arrives in time the sync fails with the timeout; nothing was sent to the
    provider and the document file is as it was. *)
Theorem sync_authorizes_again (fuel : nat) (since : value) (full : bool)
    (w : world) (d : data) (creds : value * value * value) (token : obj) (port : Z) :
  credentials = Some creds →
  disk w = Some d →
  getStravaToken d VNull = Some token →
  get token "expires_at" = VUndef →
  openPort = Ok port →
  no_callback_before 120000 (browser port) →
  ∃ w' l,
    sync fuel since full w
      = (Throw "Sync failed: Authorization failed: Authorization timeout", w')
    ∧ server w' = Some l
    ∧ ended (Throw "Authorization timeout") l
    ∧ accessToken (self w') = get token "accessToken"
    ∧ log w' = log w
    ∧ disk w' = disk w.
Proof.
  intros Hcreds Hd Htoken Hfield Hport Hquiet.
  pose proof (run_listener_times_out _ _ Hquiet) as Hended.
  eexists _, (run_listener 120000 (browser port)).
  split; [|split; [|split; [exact Hended|]]].
  { unfold sync, try_catch, createStravaClient; rewrite Hcreds.
  erewrite bind_Ok; [|reflexivity].
  erewrite bind_Ok.
  2: { unfold StravaClient.loadFromDb.
       erewrite bind_Ok; [|by apply loadData_Some].
       erewrite bind_Ok; [|reflexivity].
       erewrite bind_Ok;
         [|cbn [athleteId self set_self StravaClient.constructor]; by rewrite Htoken].
       erewrite bind_Ok.
       2: { unfold StravaClient.isTokenExpired.
            erewrite bind_Ok; [|reflexivity]. by rewrite Hfield. }
       cbn [StravaClient.to_number]. erewrite bind_Ok; reflexivity. }
  erewrite bind_Throw; [reflexivity|].
  unfold StravaClient.authorize.
  erewrite bind_Ok; [|unfold findOpenPort; by rewrite Hport].
  unfold try_catch. erewrite bind_Throw; [reflexivity|].
  unfold createCallbackServer. destruct Hended as (_ & _ & ->). reflexivity. }
  - reflexivity.
  - done.
Qed.

End sync_entry.

Lemma sync_needs_login_witness :
  ∃ message w',
    sync (E := granting) 10 VUndef false (world_of empty_store)
      = (Throw ("Sync failed: " +:+ message), w')
    ∧ log w' = log (world_of empty_store)
    ∧ disk w' = disk (world_of empty_store)
    ∧ server w' = server (world_of empty_store)
    ∧ ∀ creds, credentials (env := granting) = Some creds →
        message = "No Strava token found. Run 'bike auth login' first."
        ∧ self w' = StravaClient.constructor creds.
Proof.
  apply (sync_needs_login (E := granting) 10 VUndef false (world_of empty_store)
           empty_store); reflexivity.
Defined.

Lemma sync_authorizes_again_witness :
  ∃ w' l,
    sync (E := idle_browser) 10 VUndef false logged_in
      = (Throw "Sync failed: Authorization failed: Authorization timeout", w')
    ∧ server w' = Some l
    ∧ ended (Throw "Authorization timeout") l
    ∧ accessToken (self w') = get logged_in_token "accessToken"
    ∧ log w' = log logged_in
    ∧ disk w' = disk logged_in.
Proof.
  apply (sync_authorizes_again (E := idle_browser) 10 VUndef false logged_in
           logged_in_store
           (VStr "id", VStr "secret", VStr "http://127.0.0.1:8888/callback")
           logged_in_token 49152); try reflexivity.
  intros ev Hev Hearly. simpl in Hev.
  apply elem_of_cons in Hev as [->|Hev].
  - eexists _, _. split; [reflexivity|discriminate].
  - apply list_elem_of_singleton in Hev as ->. simpl in Hearly. lia.
Defined.

(** ** The counters of [syncActivities] and the bike of an activity *)

Section counters.
Context `{E : env}.

Lemma get_activityData_id (d : data) (a : value) (act : obj) :
  get (activityData d a act) "id" = get act "id".
Proof. reflexivity. Qed.

(** An activity whose identifier is stored counts as updated. *)
Lemma merge_known (a : value) (acts : list obj) (st : progress) :
  (∀ act, act ∈ acts →
     ∃ r, r ∈ activities (doc st) ∧ strict_eq (get r "id") (get act "id") = true) →
  added (foldl (mergeActivity a) st acts) = added st.
Proof.
  revert st. induction acts as [|act acts IH]; intros st Hknown; simpl; [done|].
  rewrite IH.
  - unfold mergeActivity.
    destruct (find _ (activities (doc st))) eqn:Hfind; [done|].
    destruct (Hknown act) as (r & Hr & Heq); [by left|].
    by rewrite (find_None_all _ _ Hfind r Hr) in Heq.
  - intros act' Hin. destruct (Hknown act') as (r & Hr & Heq); [by right|].
    exists r. split; [|done]. rewrite mergeActivity_doc. simpl.
    apply elem_of_app. by left.
Qed.

(** Activities with new identifiers, each different from the others, count
    as added. *)
Lemma merge_fresh (a : value) (acts : list obj) (st : progress) :
  (∀ act r, act ∈ acts → r ∈ activities (doc st) →
     strict_eq (get r "id") (get act "id") = false) →
  NoDup ((λ act, get act "id") <$> acts) →
  updated (foldl (mergeActivity a) st acts) = updated st.
Proof.
  revert st. induction acts as [|act acts IH]; intros st Hfresh Hdistinct; simpl; [done|].
  apply NoDup_cons in Hdistinct as [Hact Hdistinct].
  rewrite IH; [|..|done].
  - unfold mergeActivity.
    destruct (find _ (activities (doc st))) as [r|] eqn:Hfind; [|done].
    destruct (find_Some_first _ _ _ Hfind) as (i & Hi & Hr & _).
    rewrite (Hfresh act r) in Hr; [done|by left|by eapply list_elem_of_lookup_2].
  - intros act' r Hin Hr. rewrite mergeActivity_doc in Hr. simpl in Hr.
    apply elem_of_app in Hr as [Hr|Hr]; [apply Hfresh; [by right|done]|].
    apply list_elem_of_singleton in Hr as ->. rewrite get_activityData_id.
    destruct (strict_eq (get act "id") (get act' "id")) eqn:Heq; [|done].
    apply strict_eq_true in Heq as [Heq _]. destruct Hact.
    rewrite Heq. apply list_elem_of_fmap. by exists act'.
Qed.

(** X19.  The counters of an activity sync that reaches a short page: every
    fetched activity is counted once, as added or as updated; when each
    fetched identifier is the identifier of a stored activity, none is
    counted as added; when no fetched identifier is stored and the fetched
    identifiers differ from one another, none is counted as updated. *)
Theorem syncActivities_counters
    (gears : result (list obj)) (pages : nat → result (option (list obj)))
    (athleteId since : value) (full : bool)
    (full_pages : list (list obj)) (last : option (list obj))
    (fuel : nat) (d : data) (w : world) :
  disk w = Some d →
  (∀ i p, full_pages !! i = Some p → pages (1 + i) = Ok (Some p) ∧ 200 ≤ length p) →
  pages (1 + length full_pages) = Ok last →
  length (default [] last) < 200 →
  length full_pages < fuel →
  ∃ n_added n_updated w',
    syncActivities fuel (scripted gears pages) athleteId since full w
      = (Ok (n_added, n_updated), w')
    ∧ n_added + n_updated = length (concat full_pages ++ default [] last)
    ∧ ((∀ act, act ∈ concat full_pages ++ default [] last →
          ∃ r, r ∈ activities d ∧ strict_eq (get r "id") (get act "id") = true) →
       n_added = 0)
    ∧ ((∀ act r, act ∈ concat full_pages ++ default [] last → r ∈ activities d →
          strict_eq (get r "id") (get act "id") = false) →
       NoDup ((λ act, get act "id") <$> concat full_pages ++ default [] last) →
       n_updated = 0).
Proof.
  intros Hd Hfull Hlast Hshort Hfuel.
  set (fetched := concat full_pages ++ default [] last).
  eexists _, _, _. split; [by apply syncActivities_short|].
  fold fetched.
  split; [|split].
  - destruct (merge_page athleteId fetched (Progress d 0 0)) as [_ Hcount].
    exact Hcount.
  - intros Hknown. rewrite merge_known; [done|exact Hknown].
  - intros Hfresh Hdistinct. rewrite merge_fresh; [done|exact Hfresh|exact Hdistinct].
Qed.


End counters.

Lemma syncActivities_counters_witness :
  ∃ n_added n_updated w',
    syncActivities (E := offline) 5 (scripted (Ok []) two_rides) (VNum 7)
                   (VStr "2025-01-01") false (world_of empty_store)
      = (Ok (n_added, n_updated), w')
    ∧ n_added + n_updated = length (rides 101 2)
    ∧ ((∀ act, act ∈ rides 101 2 →
          ∃ r, r ∈ activities empty_store
               ∧ strict_eq (get r "id") (get act "id") = true) →
       n_added = 0)
    ∧ ((∀ act r, act ∈ rides 101 2 → r ∈ activities empty_store →
          strict_eq (get r "id") (get act "id") = false) →
       NoDup ((λ act, get act "id") <$> rides 101 2) →
       n_updated = 0).
Proof.
  apply (syncActivities_counters (E := offline) (Ok []) two_rides (VNum 7)
           (VStr "2025-01-01") false [] (Some (rides 101 2)) 5 empty_store
           (world_of empty_store)).
  - reflexivity.
  - intros i p Hi. by rewrite lookup_nil in Hi.
  - reflexivity.
  - simpl. lia.
  - simpl. lia.
Defined.


(** ** [upsertActivity] and [upsertComponent] *)

Lemma upsert_list_upserted (l : list obj) (record r : obj) (now : value) :
  is_key (get record "id") →
  (∀ k, k ≠ "createdAt" → get r k = get record k) →
  get r "createdAt" = js_or (get record "createdAt") now →
  upserted l (upsert_list (has_id (get record "id")) r l) record now.
Proof.
  intros Hkey Hsame Hcreated.
  assert (has_id (get record "id") r = true) as Hr.
  { unfold has_id. rewrite Hsame by done. by apply strict_eq_key. }
  exists r. split; [by apply upsert_list_find|].
  split; [done|]. split; [done|].
  split; [by apply upsert_list_count|].
  intros other Hother. apply upsert_list_others.
  - unfold has_id. rewrite Hsame by done.
    eapply strict_eq_other; [by apply strict_eq_key|done].
  - intros x Hx. by eapply strict_eq_other.
Qed.

(** X21.  [upsertActivity] and [upsertComponent] keep one record per
    identifier: the record given is then the one found under its
    identifier, with every property it came with and, when it came without
    [createdAt], the time of the call; a record that had the identifier is
    replaced in place, otherwise the record is appended; records of other
    identifiers are the same.  Both always return. *)
Theorem upserts_keep_one_record_per_id `{E : env} (d : data) (record : obj) (w : world) :
  is_key (get record "id") →
  ∃ d1 w1 d2 w2,
    upsertActivity d record w = (Ok d1, w1)
    ∧ upserted (activities d) (activities d1) record
               (VStr (toISOString (clock (ticks w))))
    ∧ upsertComponent d record w = (Ok d2, w2)
    ∧ upserted (components d) (components d2) record
               (VStr (toISOString (clock (ticks w)))).
Proof.
  intros Hkey.
  set (now := VStr (toISOString (clock (ticks w)))).
  set (r := <["createdAt" := js_or (get record "createdAt") now]> record).
  assert (∀ l, upserted l (upsert_list (has_id (get record "id")) r l) record now)
    as Hupserted.
  { intros l. apply upsert_list_upserted; [done|..].
    - intros k Hk. by apply get_insert_ne.
    - apply get_insert_eq. }
  set (w' := if truthy (get record "createdAt") then w else after_ticks 1 w).
  exists (set_activities d (upsert_list (has_id (get record "id")) r (activities d))), w',
         (set_components d (upsert_list (has_id (get record "id")) r (components d))), w'.
  split; [|split; [apply Hupserted|split; [|apply Hupserted]]].
  - unfold upsertActivity, or_now, upsert_list, has_id, r, js_or, now, w'.
    destruct (truthy (get record "createdAt")); by destruct (findIndex _ (activities d)).
  - unfold upsertComponent, or_now, upsert_list, has_id, r, js_or, now, w'.
    destruct (truthy (get record "createdAt")); by destruct (findIndex _ (components d)).
Qed.

Lemma upserts_keep_one_record_per_id_witness :
  ∃ d1 w1 d2 w2,
    upsertActivity (E := offline) empty_store ride_record (world_of empty_store)
      = (Ok d1, w1)
    ∧ upserted (activities empty_store) (activities d1) ride_record (VStr "1000000")
    ∧ upsertComponent (E := offline) empty_store ride_record (world_of empty_store)
      = (Ok d2, w2)
    ∧ upserted (components empty_store) (components d2) ride_record (VStr "1000000").
Proof.
  apply (upserts_keep_one_record_per_id (E := offline) empty_store ride_record
           (world_of empty_store)).
  discriminate.
Defined.

(** ** config.js: [getStravaCredentials] *)

(** X22.  Where the credentials come from.  There are credentials exactly
    when the client id and the client secret are each set in the
    configuration or in the environment; the three values returned are then
    truthy; a value set in the configuration is the one taken, whatever the
    environment holds, and the variable of the environment is taken only
    when the configuration has none; the redirect URI is the configured one
    when the configuration has one, and otherwise the loopback default
    [http://127.0.0.1:8888/callback], so it never depends on the
    environment. *)
Theorem credentials_configuration_first (strava : option obj) (environment : obj) :
  (is_Some (getStravaCredentials strava environment)
   ↔ (truthy (opt_get strava "clientId") = true
      ∨ truthy (get environment "BIKE_STRAVA_CLIENT_ID") = true)
     ∧ (truthy (opt_get strava "clientSecret") = true
        ∨ truthy (get environment "BIKE_STRAVA_CLIENT_SECRET") = true))
  ∧ (∀ id secret uri,
       getStravaCredentials strava environment = Some (id, secret, uri) →
       truthy id = true ∧ truthy secret = true ∧ truthy uri = true
       ∧ (truthy (opt_get strava "clientId") = true → id = opt_get strava "clientId")
       ∧ (truthy (opt_get strava "clientId") = false →
          id = get environment "BIKE_STRAVA_CLIENT_ID")
       ∧ (truthy (opt_get strava "clientSecret") = true →
          secret = opt_get strava "clientSecret")
       ∧ (truthy (opt_get strava "clientSecret") = false →
          secret = get environment "BIKE_STRAVA_CLIENT_SECRET")
       ∧ (truthy (opt_get strava "redirectUri") = true →
          uri = opt_get strava "redirectUri")
       ∧ (truthy (opt_get strava "redirectUri") = false →
          uri = VStr "http://127.0.0.1:8888/callback"))
  ∧ (∀ environment' id secret uri id' secret' uri',
       getStravaCredentials strava environment = Some (id, secret, uri) →
       getStravaCredentials strava environment' = Some (id', secret', uri') →
       uri' = uri).
Proof.
  unfold getStravaCredentials, js_or.
  split; [|split].
  - destruct (truthy (opt_get strava "clientId")) eqn:Hid,
             (truthy (opt_get strava "clientSecret")) eqn:Hsecret;
      rewrite ?Hid, ?Hsecret; cbn [negb orb].
    + split; [intros _; split; by left|by eexists].
    + destruct (truthy (get environment "BIKE_STRAVA_CLIENT_SECRET")) eqn:He;
        cbn [negb orb].
      * split; [intros _; split; [by left|by right]|by eexists].
      * split; [by intros [? [=]]|]. intros [_ [[=]|[=]]].
    + destruct (truthy (get environment "BIKE_STRAVA_CLIENT_ID")) eqn:He;
        cbn [negb orb].
      * split; [intros _; split; [by right|by left]|by eexists].
      * split; [by intros [? [=]]|]. intros [[[=]|[=]] _].
    + destruct (truthy (get environment "BIKE_STRAVA_CLIENT_ID")) eqn:He;
        cbn [negb orb]; [|split; [by intros [? [=]]|]; intros [[[=]|[=]] _]].
      destruct (truthy (get environment "BIKE_STRAVA_CLIENT_SECRET")) eqn:He';
        cbn [negb orb].
      * split; [intros _; split; by right|by eexists].
      * split; [by intros [? [=]]|]. intros [_ [[=]|[=]]].
  - intros id secret uri.
    destruct (truthy (opt_get strava "clientId")) eqn:Hid,
             (truthy (opt_get strava "clientSecret")) eqn:Hsecret;
      rewrite ?Hid, ?Hsecret; cbn [negb orb];
      repeat (match goal with
              | |- context [truthy (get environment ?k)] =>
                  destruct (truthy (get environment k)) eqn:?; cbn [negb orb]
              end);
      try (by intros [=]);
      intros [= <- <- <-];
      destruct (truthy (opt_get strava "redirectUri")) eqn:Huri;
      repeat split; try done; by intros [=].
  - intros environment' id secret uri id' secret' uri'.
    destruct (negb _ || negb _); [by intros [=]|]. intros [= _ _ <-].
    destruct (negb _ || negb _); [by intros [=]|]. by intros [= _ _ <-].
Qed.

(** ** The document file on first use *)

(** X23.  The first [loadData] without a document file writes the initial
    document, version "001" with the time of the call and five empty
    collections, and returns it; once the file is there, [initializeData]
    and [loadData] leave it alone and [loadData] gives the document of the
    file. *)
Theorem loadData_initialises_once `{E : env} (w : world) :
  disk w = None →
  ∃ d w',
    loadData w = (Ok d, w')
    ∧ disk w' = Some d
    ∧ get (meta d) "version" = VStr "001"
    ∧ get (meta d) "createdAt" = VStr (toISOString (clock (ticks w)))
    ∧ (stravaTokens d, bikes d, activities d, components d, maintenanceEvents d)
      = ([], [], [], [], [])
    ∧ initializeData w' = (Ok tt, w')
    ∧ loadData w' = (Ok d, w')
    ∧ ∀ later d', disk later = Some d' →
        initializeData later = (Ok tt, later) ∧ loadData later = (Ok d', later).
Proof.
  intros Hnone.
  assert (∀ later d', disk later = Some d' →
            initializeData later = (Ok tt, later) ∧ loadData later = (Ok d', later))
    as Hthere.
  { intros later d' Hd. split; [|by apply loadData_Some].
    unfold initializeData, try_catch, mbind, J_bind, readFile. by rewrite Hd. }
  eexists _, _. split.
  { unfold loadData, try_catch, readFile. rewrite Hnone.
    unfold mbind, J_bind, initializeData, try_catch, readFile.
    unfold mbind, J_bind. rewrite Hnone. reflexivity. }
  split; [reflexivity|]. split; [reflexivity|]. split; [reflexivity|].
  split; [reflexivity|]. split; [|split; [|exact Hthere]].
  - refine (proj1 (Hthere _ _ _)). reflexivity.
  - refine (proj2 (Hthere _ _ _)). reflexivity.
Qed.

Lemma loadData_initialises_once_witness :
  ∃ d w',
    loadData (E := offline) (World None 0 0 [] no_client None) = (Ok d, w')
    ∧ disk w' = Some d
    ∧ get (meta d) "version" = VStr "001"
    ∧ get (meta d) "createdAt" = VStr "1000000"
    ∧ (stravaTokens d, bikes d, activities d, components d, maintenanceEvents d)
      = ([], [], [], [], [])
    ∧ initializeData (E := offline) w' = (Ok tt, w')
    ∧ loadData (E := offline) w' = (Ok d, w')
    ∧ ∀ later d', disk later = Some d' →
        initializeData (E := offline) later = (Ok tt, later)
        ∧ loadData (E := offline) later = (Ok d', later).
Proof.
  apply (loadData_initialises_once (E := offline) (World None 0 0 [] no_client None)).
  reflexivity.
Defined.

(** ** What gear sync does to a bike that is already stored *)



(** ** utils/maintenance.js: [logMaintenance] *)

Lemma find_is_Some_perm {A} (p : A → bool) (l l' : list A) :
  l ≡ₚ l' → is_Some (find p l) → is_Some (find p l').
Proof.
  intros Hperm [x Hx].
  destruct (find p l') as [y|] eqn:Hy; [by eexists|].
  destruct (find_Some_first _ _ _ Hx) as (i & Hi & Hpx & _).
  pose proof (find_None_all _ _ Hy x) as Hnone.
  rewrite Hnone in Hpx; [done|].
  rewrite <- Hperm. by eapply list_elem_of_lookup_2.
Qed.

(** X25.  [logMaintenance] builds the event and adds it to the document it
    has loaded, and never writes that document: whatever the result, the
    file is as it was and nothing is sent.  When the sort gives the bikes
    back in some order, the result is "Bike not found" if no bike has the
    identifier, and otherwise the call returns normally, with the file
    still without the event. *)
Theorem logMaintenance_writes_nothing `{E : env}
    (sort_bikes : list obj → result (list obj))
    (bikeId kind componentId metersAt notes : value) (w : world) (d : data) :
  disk w = Some d →
  ∃ r w',
    logMaintenance sort_bikes bikeId kind componentId metersAt notes w = (r, w')
    ∧ disk w' = Some d
    ∧ log w' = log w
    ∧ ∀ sorted, sort_bikes (bikes d) = Ok sorted → sorted ≡ₚ bikes d →
        (getBike d bikeId = None → r = Throw "Bike not found")
        ∧ (is_Some (getBike d bikeId) → r = Ok tt).
Proof.
  intros Hd. unfold logMaintenance.
  destruct (sort_bikes (bikes d)) as [sorted|e|] eqn:Hsort.
  - destruct (find (λ b, strict_eq (get b "id") bikeId) sorted) as [b|] eqn:Hfind.
    + eexists _, _. split.
      { erewrite bind_Ok; [|by apply loadData_Some].
        erewrite bind_Ok; [|reflexivity].
        erewrite bind_Ok; [|unfold getBikes; by rewrite Hsort].
        cbn [snd fst]. rewrite Hfind.
        erewrite bind_Ok; [|reflexivity].
        erewrite bind_Ok; reflexivity. }
      split; [done|]. split; [done|].
      intros sorted' [= <-] Hperm. split; [|done].
      intros Hnone. unfold getBike in Hnone.
      destruct (find_is_Some_perm (λ b, strict_eq (get b "id") bikeId)
                  sorted (bikes d) Hperm) as [x Hx]; [by eexists|].
      by rewrite Hx in Hnone.
    + eexists _, _. split.
      { erewrite bind_Ok; [|by apply loadData_Some].
        erewrite bind_Ok; [|reflexivity].
        erewrite bind_Ok; [|unfold getBikes; by rewrite Hsort].
        cbn [snd fst]. rewrite Hfind. reflexivity. }
      split; [done|]. split; [done|].
      intros sorted' [= <-] Hperm. split; [done|].
      intros Hsome. unfold getBike in Hsome.
      destruct (find_is_Some_perm (λ b, strict_eq (get b "id") bikeId)
                  (bikes d) sorted) as [x Hx]; [done|done|].
      by rewrite Hx in Hfind.
  - eexists _, _. split.
    { erewrite bind_Ok; [|by apply loadData_Some].
      erewrite bind_Ok; [|reflexivity].
      erewrite bind_Throw; [reflexivity|]. unfold getBikes. by rewrite Hsort. }
    split; [done|]. split; [done|]. by intros sorted [=].
  - eexists _, _. split.
    { erewrite bind_Ok; [|by apply loadData_Some].
      erewrite bind_Ok; [|reflexivity].
      erewrite bind_Pending; [reflexivity|]. unfold getBikes. by rewrite Hsort. }
    split; [done|]. split; [done|]. by intros sorted [=].
Qed.

Lemma logMaintenance_writes_nothing_witness :
  ∃ r w',
    logMaintenance (E := offline) sort_one (VStr "3f0c") (VStr "chain") VUndef
                   (VNum 1200000) VUndef (world_of one_bike) = (r, w')
    ∧ disk w' = Some one_bike
    ∧ log w' = log (world_of one_bike)
    ∧ ∀ sorted, sort_one (bikes one_bike) = Ok sorted → sorted ≡ₚ bikes one_bike →
        (getBike one_bike (VStr "3f0c") = None → r = Throw "Bike not found")
        ∧ (is_Some (getBike one_bike (VStr "3f0c")) → r = Ok tt).
Proof.
  apply (logMaintenance_writes_nothing (E := offline) sort_one (VStr "3f0c")
           (VStr "chain") VUndef (VNum 1200000) VUndef (world_of one_bike) one_bike).
  reflexivity.
Defined.

(** ** Activity sync through the client *)

Section client_pagination.
Context `{E : env}.

Lemma valid_for_holds (n : nat) (w : world) :
  valid_for (S n) w → holds_valid_token w.
Proof.
  intros (Hheld & e & He & Hmargin). split; [done|]. exists e. split; [done|].
  specialize (Hmargin 0). rewrite Nat.add_0_r in Hmargin. apply Hmargin. lia.
Qed.

Lemma valid_for_sent (n : nat) (req : value → request) (w : world) :
  valid_for (S n) w → valid_for n (sent req w).
Proof.
  intros (Hheld & e & He & Hmargin). split; [done|]. exists e. split; [done|].
  intros k Hk. cbn [sent ticks]. specialize (Hmargin (S k)).
  rewrite Nat.add_succ_r in Hmargin. apply Hmargin. lia.
Qed.

Lemma valid_for_cursor_world (n : nat) (since : value) (w : world) :
  valid_for (S n) w → valid_for n (cursor_world since w).
Proof.
  intros (Hheld & e & He & Hmargin). unfold cursor_world.
  destruct (truthy since).
  - split; [done|]. exists e. split; [done|]. intros k Hk. apply Hmargin. lia.
  - split; [done|]. exists e. split; [done|].
    intros k Hk. cbn [after_ticks ticks]. specialize (Hmargin (S k)).
    rewrite Nat.add_succ_r in Hmargin. apply Hmargin. lia.
Qed.

(** One page asked for with a valid token. *)
Lemma getActivities_answered (after : value) (page : nat) (body : option (list obj))
    (w : world) :
  holds_valid_token w →
  answers w after page 0 body →
  getActivities stravaClient after perPage page w
  = (Ok body, sent (λ bearer, ReqActivities bearer after VNull perPage page) w).
Proof.
  intros Hvalid (response & Hanswer & Hok & Hbody).
  rewrite !Nat.add_0_r in Hanswer.
  cbn [getActivities stravaClient]. unfold StravaClient.getActivities.
  rewrite apiRequest_fast by done. by rewrite Hanswer, Hok, Hbody.
Qed.

Lemma paginate_client (athleteId after : value) (full_pages : list (list obj))
    (last : option (list obj)) :
  ∀ (fuel from : nat) (st : progress) (w : world),
    valid_for (S (length full_pages)) w →
    (∀ i p, full_pages !! i = Some p → answers w after from i (Some p) ∧ 200 ≤ length p) →
    answers w after from (length full_pages) last →
    length (default [] last) < 200 →
    length full_pages < fuel →
    paginate fuel stravaClient athleteId after from st w
    = (Ok (foldl (mergeActivity athleteId) st (concat full_pages ++ default [] last)),
       World (disk w) (S (length full_pages) + ticks w) (uuids w)
             (log w ++ bearer_fetches (accessToken (self w)) after from
                                      (S (length full_pages)))
             (self w) (server w)).
Proof.
  induction full_pages as [|p full_pages IH];
    intros fuel from st w Hvalid Hfull Hlast Hshort Hfuel.
  - destruct fuel as [|fuel]; [simpl in Hfuel; lia|].
    cbn [paginate length] in *.
    erewrite bind_Ok.
    2: { apply getActivities_answered; [by eapply valid_for_holds|exact Hlast]. }
    destruct last as [[|act acts]|]; [reflexivity| |reflexivity].
    change (default [] (Some (act :: acts))) with (act :: acts) in *.
    cbn [concat app].
    replace (Z.of_nat (length (act :: acts)) <? perPage)%Z with true
      by (symmetry; apply Z.ltb_lt; unfold perPage; lia).
    reflexivity.
  - destruct fuel as [|fuel]; [simpl in Hfuel; lia|].
    destruct (Hfull 0 p eq_refl) as [Hfirst Hlen].
    cbn [paginate].
    erewrite bind_Ok.
    2: { apply getActivities_answered; [by eapply valid_for_holds|exact Hfirst]. }
    destruct p as [|act acts]; [simpl in Hlen; lia|].
    replace (Z.of_nat (length (act :: acts)) <? perPage)%Z with false
      by (symmetry; apply Z.ltb_ge; unfold perPage; lia).
    set (req := λ bearer, ReqActivities bearer after VNull perPage from).
    rewrite (IH fuel (S from) _ (sent req w)).
    + cbn [concat length sent disk ticks uuids log self server].
      f_equal.
      * f_equal. rewrite <- (assoc_L (++)). symmetry. apply foldl_app.
      * f_equal; [lia|]. rewrite <- (assoc_L (++)). reflexivity.
    + by apply valid_for_sent.
    + intros i q Hq. destruct (Hfull (S i) q Hq) as [(r & Hr & Hok & Hbody) Hlenq].
      split; [|done]. exists r. split; [|done].
      cbn [sent log self]. rewrite length_app. cbn [length].
      rewrite <- Hr. f_equal; lia.
    + destruct Hlast as (r & Hr & Hok & Hbody).
      exists r. split; [|done].
      cbn [sent log self]. rewrite length_app. cbn [length] in *.
      rewrite <- Hr. f_equal; lia.
    + done.
    + simpl in Hfuel. lia.
Qed.

Lemma answers_cursor_world (since after : value) (from i : nat)
    (body : option (list obj)) (w : world) :
  answers w after from i body → answers (cursor_world since w) after from i body.
Proof. unfold cursor_world. by destruct (truthy since). Qed.

(** X26.  Activity sync through the client itself.  While the held token
    stays valid, and the provider answers full pages and then a short one,
    the sync returns the counters of merging all their activities and
    leaves exactly this world: the merged document is written; the requests
    sent are the page requests and no other, each with the held token as
    bearer, the cursor as [after], no [before] and 200 per page, in
    increasing page order from page 1; the clock was read once for each
    request (after the reading for the cursor, when [since] is not given);
    no identifier was drawn, and the client and the listener are as they
    were. *)
Theorem syncActivities_through_client
    (athleteId since : value) (full : bool)
    (full_pages : list (list obj)) (last : option (list obj))
    (fuel : nat) (d : data) (w : world) :
  disk w = Some d →
  valid_for (2 + length full_pages) w →
  (∀ i p, full_pages !! i = Some p →
          answers w (cursor since full w) 1 i (Some p) ∧ 200 ≤ length p) →
  answers w (cursor since full w) 1 (length full_pages) last →
  length (default [] last) < 200 →
  length full_pages < fuel →
  syncActivities fuel stravaClient athleteId since full w
  = (Ok (added (foldl (mergeActivity athleteId) (Progress d 0 0)
                      (concat full_pages ++ default [] last)),
         updated (foldl (mergeActivity athleteId) (Progress d 0 0)
                        (concat full_pages ++ default [] last))),
     World (Some (json_data (doc (foldl (mergeActivity athleteId) (Progress d 0 0)
                                        (concat full_pages ++ default [] last)))))
           (S (length full_pages) + ticks (cursor_world since w))
           (uuids w)
           (log w ++ bearer_fetches (accessToken (self w)) (cursor since full w) 1
                                    (S (length full_pages)))
           (self w)
           (server w)).
Proof.
  intros Hd Hvalid Hfull Hlast Hshort Hfuel.
  transitivity
    (Ok (added (foldl (mergeActivity athleteId) (Progress d 0 0)
                      (concat full_pages ++ default [] last)),
         updated (foldl (mergeActivity athleteId) (Progress d 0 0)
                        (concat full_pages ++ default [] last))),
     set_disk
       (World (disk (cursor_world since w))
              (S (length full_pages) + ticks (cursor_world since w))
              (uuids (cursor_world since w))
              (log (cursor_world since w)
               ++ bearer_fetches (accessToken (self (cursor_world since w)))
                                 (cursor since full w) 1 (S (length full_pages)))
              (self (cursor_world since w)) (server (cursor_world since w)))
       (Some (json_data (doc (foldl (mergeActivity athleteId) (Progress d 0 0)
                                    (concat full_pages ++ default [] last)))))).
  { unfold syncActivities.
    erewrite bind_Ok; [|apply sinceTimestamp_eq].
    erewrite bind_Ok.
    2: { eapply modifyData_Ok; [apply loadData_Some; by rewrite disk_cursor_world|].
         erewrite bind_Ok; [reflexivity|].
         apply paginate_client; [by apply valid_for_cursor_world| |
                                 by apply answers_cursor_world|done|done].
         intros i p Hp. destruct (Hfull i p Hp) as [Hanswer Hlen].
         split; [by apply answers_cursor_world|done]. }
    reflexivity. }
  unfold cursor_world, set_disk. by destruct (truthy since).
Qed.

End client_pagination.

Lemma syncActivities_through_client_witness :
  syncActivities (E := paged_remote) 5 (stravaClient (E := paged_remote))
                 (VNum 7) (VStr "2025-01-01") false riding
  = (Ok (added (foldl (mergeActivity (E := paged_remote) (VNum 7))
                      (Progress empty_store 0 0)
                      (concat [rides 1 200; rides 201 200]
                       ++ default [] (Some (rides 401 120)))),
         updated (foldl (mergeActivity (E := paged_remote) (VNum 7))
                        (Progress empty_store 0 0)
                        (concat [rides 1 200; rides 201 200]
                         ++ default [] (Some (rides 401 120))))),
     World (Some (json_data (doc (foldl (mergeActivity (E := paged_remote) (VNum 7))
                                        (Progress empty_store 0 0)
                                        (concat [rides 1 200; rides 201 200]
                                         ++ default [] (Some (rides 401 120)))))))
           3 0
           ([] ++ bearer_fetches (VStr "A1") (VNum 1735689600) 1 3)
           (self riding) None).
Proof.
  apply (syncActivities_through_client (E := paged_remote) (VNum 7)
           (VStr "2025-01-01") false [rides 1 200; rides 201 200]
           (Some (rides 401 120)) 5 empty_store riding).
  - reflexivity.
  - split; [reflexivity|]. exists 100000%Z. split; [reflexivity|].
    intros k Hk. simpl in Hk.
    assert (k = 0 ∨ k = 1 ∨ k = 2 ∨ k = 3) as [-> | [-> | [-> | ->]]] by lia;
      vm_compute; reflexivity.
  - intros [|[|i]] p; simpl; intros [= <-].
    + split; [|apply Nat.leb_le; vm_compute; reflexivity].
      eexists. split; [reflexivity|]. split; reflexivity.
    + split; [|apply Nat.leb_le; vm_compute; reflexivity].
      eexists. split; [reflexivity|]. split; reflexivity.
  - eexists. split; [reflexivity|]. split; reflexivity.
  - apply Nat.ltb_lt. vm_compute. reflexivity.
  - simpl. lia.
Defined.

(** ** Gear sync through the client *)

Section client_gear.
Context `{E : env}.

Lemma set_bikes_frame (d d1 d' : data) (l : list obj) :
  d1 = set_bikes d l → set_bikes d' (bikes d1) = d1 → set_bikes d' (bikes d) = d.
Proof.
  intros -> Hframe. destruct d, d'. unfold set_bikes in *. simpl in *.
  injection Hframe as -> -> -> -> ->. reflexivity.
Qed.

(** The loop of [syncBikes] changes the bikes only, and removes none. *)
Lemma for_of_syncBike_frame (gears : list obj) (d : data) (w : world) :
  ∃ d' w',
    for_of gears syncBike d w = (Ok d', w')
    ∧ set_bikes d' (bikes d) = d
    ∧ length (bikes d) ≤ length (bikes d')
    ∧ length (bikes d') ≤ length (bikes d) + length gears
    ∧ log w' = log w ∧ self w' = self w ∧ disk w' = disk w ∧ server w' = server w.
Proof.
  revert d w. induction gears as [|g gears IH]; intros d w.
  - exists d, w. cbn [for_of length]. rewrite Nat.add_0_r.
    split; [done|]. split; [by destruct d|done].
  - cbn [for_of]. erewrite bind_Ok; [|apply syncBike_eq].
    set (d1 := set_bikes d _). set (w1 := after_ticks 2 _).
    destruct (IH d1 w1) as (d' & w' & Hrun & Hframe & Hle & Hge & Hlog & Hself & Hdisk
                            & Hserver).
    assert (length (bikes d) ≤ length (bikes d1) ≤ S (length (bikes d))) as Hstep.
    { unfold d1. cbn [bikes set_bikes].
      destruct (findIndex _ (bikes d)).
      - rewrite length_insert. lia.
      - rewrite length_app. simpl. lia. }
    exists d', w'. split; [exact Hrun|].
    split.
    { by eapply (set_bikes_frame d d1 d'). }
    split; [lia|]. split; [cbn [length]; lia|].
    rewrite Hlog, Hself, Hdisk, Hserver. unfold w1.
    by destruct (draws_id d g).
Qed.

(** X27.  Gear sync through the client.  With a valid token held and the
    profile request answered, [syncBikes] always returns: it has sent one
    request, with the held token; it counts the resolved entries with a gear
    identifier among the profile's bikes and shoes as bikes and the resolved
    entries without as shoes; the document it writes differs from the one it
    loaded in the bikes only, and has every bike slot the store had and at
    most one more per counted bike. *)
Theorem syncBikes_through_client (athleteId : value) (w : world) (d : data)
    (profile : httpResponse athleteBody) :
  disk w = Some d →
  holds_valid_token w →
  athleteEndpoint (length (log w)) (accessToken (self w)) = Ok profile →
  ok profile = true →
  ∃ w' d',
    syncBikes stravaClient athleteId w
      = (Ok (length (List.filter is_bike (gears_of (json profile))),
             length (List.filter is_shoe (gears_of (json profile)))), w')
    ∧ log w' = log w ++ [ReqAthlete (accessToken (self w))]
    ∧ self w' = self w
    ∧ disk w' = Some d'
    ∧ set_bikes d' (bikes (json_data d)) = json_data d
    ∧ length (bikes d) ≤ length (bikes d')
    ∧ length (bikes d')
      ≤ length (bikes d) + length (List.filter is_bike (gears_of (json profile))).
Proof.
  intros Hd Hvalid Hprofile Hok.
  assert (getGears stravaClient w = (Ok (gears_of (json profile)), sent ReqAthlete w))
    as Hgears.
  { cbn [getGears stravaClient]. unfold StravaClient.getGears.
    erewrite bind_Ok; [reflexivity|].
    unfold StravaClient.getAthlete. rewrite apiRequest_fast by done.
    by rewrite Hprofile, Hok. }
  destruct (for_of_syncBike_frame (List.filter is_bike (gears_of (json profile))) d
              (sent ReqAthlete w))
    as (d' & w' & Hrun & Hframe & Hle & Hge & Hlog & Hself & Hdisk & Hserver).
  exists (set_disk w' (Some (json_data d'))), (json_data d').
  split.
  { eapply syncBikes_eq; [exact Hgears|by apply loadData_Some|exact Hrun]. }
  split; [exact Hlog|]. split; [exact Hself|]. split; [reflexivity|].
  split; [by rewrite <- Hframe|].
  cbn [bikes json_data]. rewrite length_fmap. done.
Qed.

End client_gear.

Lemma syncBikes_through_client_witness :
  ∃ w' d',
    syncBikes (E := gear_remote) (stravaClient (E := gear_remote)) (VNum 7) holding
      = (Ok (1, 1), w')
    ∧ log w' = [ReqAthlete (VStr "A1")]
    ∧ self w' = self holding
    ∧ disk w' = Some d'
    ∧ set_bikes d' (bikes (json_data logged_in_store)) = json_data logged_in_store
    ∧ length (bikes logged_in_store) ≤ length (bikes d')
    ∧ length (bikes d') ≤ length (bikes logged_in_store) + 1.
Proof.
  apply (syncBikes_through_client (E := gear_remote) (VNum 7) holding logged_in_store
           profile_gear).
  - reflexivity.
  - split; [reflexivity|]. exists 1500%Z. split; [reflexivity|]. vm_compute. reflexivity.
  - reflexivity.
  - reflexivity.
Defined.

(** ** The local identifiers of bikes across gear syncs *)

Lemma find_insert_same {A B} (p : A → bool) (f : A → B) (l : list A) (j : nat)
    (b r : A) :
  l !! j = Some b → p r = p b → f r = f b →
  f <$> find p (<[j := r]> l) = f <$> find p l.
Proof.
  revert j. induction l as [|x l IH]; intros j Hj Hp Hf; [done|].
  destruct j as [|j]; simpl in *.
  - injection Hj as ->. rewrite Hp. destruct (p b); [|done]. simpl. by rewrite Hf.
  - destruct (p x); [done|]. by apply IH.
Qed.

Lemma find_snoc {A} (p : A → bool) (l : list A) (r : A) :
  find p (l ++ [r])
  = match find p l with
    | Some x => Some x
    | None => if p r then Some r else None
    end.
Proof. induction l as [|x l IH]; simpl; [done|]. by destruct (p x). Qed.

Lemma well_keyed_truthy (d : data) (b : obj) :
  well_keyed d → b ∈ bikes d → truthy (get b "id") = true.
Proof.
  intros [_ Hids] Hb. apply Hids. unfold bike_ids.
  apply list_elem_of_fmap. by exists b.
Qed.

Lemma local_id_is_Some (d : data) (g id : value) :
  local_id d g = Some id → is_Some (findByGear d g).
Proof. unfold local_id. destruct (findByGear d g); [by eexists|done]. Qed.

Lemma is_Some_local_id (d : data) (g : value) :
  is_Some (findByGear d g) → ∃ id, local_id d g = Some id.
Proof. unfold local_id. intros [b ->]. by eexists. Qed.

(** In a store where identifiers are not shared, the bike a gear identifier
    is matched to is the first bike that has its own identifier. *)
Lemma matched_slot (d : data) (g : value) (b : obj) :
  well_keyed d → findByGear d g = Some b →
  ∃ j, bikes d !! j = Some b
       ∧ findIndex (λ x, strict_eq (get x "id") (get b "id")) (bikes d) = Some j
       ∧ get b "stravaGearId" = g.
Proof.
  intros Hkeyed Hfind.
  destruct (find_Some_first _ _ _ Hfind) as (j & Hj & Hgear & _).
  assert (b ∈ bikes d) as Hb by (by eapply list_elem_of_lookup_2).
  pose proof (well_keyed_truthy d b Hkeyed Hb) as Hid.
  exists j. split; [done|]. split; [|by apply strict_eq_true in Hgear as [? _]].
  destruct (findIndex _ (bikes d)) as [i|] eqn:Hi.
  - destruct (findIndex_Some _ _ _ Hi) as (x & Hx & Hpx & _).
    apply strict_eq_true in Hpx as [Hpx _].
    f_equal. destruct Hkeyed as [Hnodup _].
    eapply (NoDup_lookup (bike_ids d) i j (get b "id")); [exact Hnodup|..].
    + unfold bike_ids. rewrite list_lookup_fmap, Hx. simpl. by rewrite Hpx.
    + unfold bike_ids. by rewrite list_lookup_fmap, Hj.
  - pose proof (findIndex_None _ _ Hi b Hb) as Hnone. simpl in Hnone.
    by rewrite strict_eq_refl in Hnone.
Qed.

Section local_ids.
Context `{E : env}.

(** One gear entry: what it does to the identifiers of the store and to the
    identifier each gear identifier is matched to. *)
Lemma syncBike_ids (d : data) (e : obj) (w : world) :
  truthy (get e "gear_id") = true →
  well_keyed d →
  (findByGear d (get e "gear_id") = None →
   randomUUID (uuids w) ≠ "" ∧ VStr (randomUUID (uuids w)) ∉ bike_ids d) →
  ∃ d' w',
    syncBike d e w = (Ok d', w')
    ∧ well_keyed d'
    ∧ match findByGear d (get e "gear_id") with
      | Some _ =>
          bike_ids d' = bike_ids d
          ∧ uuids w' = uuids w
          ∧ ∀ g, local_id d' g = local_id d g
      | None =>
          bike_ids d' = bike_ids d ++ [VStr (randomUUID (uuids w))]
          ∧ uuids w' = S (uuids w)
          ∧ ∀ g, local_id d' g
                 = match local_id d g with
                   | Some id => Some id
                   | None => if strict_eq (get e "gear_id") g
                             then Some (VStr (randomUUID (uuids w))) else None
                   end
      end.
Proof.
  intros Hgear Hkeyed Hfresh.
  pose proof (syncBike_eq d e w) as Hrun.
  set (d' := set_bikes d _) in Hrun.
  set (w' := after_ticks 2 _) in Hrun.
  exists d', w'. split; [exact Hrun|].
  destruct (findByGear d (get e "gear_id")) as [b|] eqn:Hfind.
  - destruct (matched_slot d _ b Hkeyed Hfind) as (j & Hj & Hslot & Hgear_b).
    assert (matched_has_id d (get e "gear_id")) as Hid.
    { intros b'. rewrite Hfind. intros [= <-].
      eapply well_keyed_truthy; [done|]. by eapply list_elem_of_lookup_2. }
    destruct (chosen_id_matched d e b w Hid Hfind) as [Hchosen Hdraws].
    assert (bikes d' = <[j := bike_record d e w]> (bikes d)) as Hbikes.
    { unfold d'. cbn [bikes set_bikes]. by rewrite Hchosen, Hslot. }
    assert (bike_ids d' = bike_ids d) as Hids.
    { unfold bike_ids. rewrite Hbikes, list_fmap_insert.
      apply list_insert_id. rewrite list_lookup_fmap, Hj. simpl.
      by rewrite get_bike_record_id, Hchosen. }
    split; [unfold well_keyed; by rewrite Hids|].
    split; [done|]. split; [unfold w'; by rewrite Hdraws|].
    intros g. unfold local_id, findByGear. rewrite Hbikes.
    apply (find_insert_same _ _ _ j b); [done|..].
    + by rewrite get_bike_record_gear, Hgear_b.
    + by rewrite get_bike_record_id, Hchosen.
  - destruct (Hfresh eq_refl) as [Hnonempty Hnew].
    destruct (chosen_id_unmatched d e w Hfind) as [Hchosen Hdraws].
    assert (bikes d' = bikes d ++ [bike_record d e w]) as Hbikes.
    { unfold d'. cbn [bikes set_bikes]. rewrite Hchosen.
      destruct (findIndex (λ b, strict_eq (get b "id") (VStr (randomUUID (uuids w))))
                          (bikes d)) as [i|] eqn:Hi; [|done].
      destruct (findIndex_Some _ _ _ Hi) as (x & Hx & Hpx & _).
      apply strict_eq_true in Hpx as [Hpx _].
      destruct Hnew. rewrite <- Hpx. unfold bike_ids.
      apply list_elem_of_fmap. exists x. split; [done|].
      by eapply list_elem_of_lookup_2. }
    assert (bike_ids d' = bike_ids d ++ [VStr (randomUUID (uuids w))]) as Hids.
    { unfold bike_ids. rewrite Hbikes, fmap_app. simpl.
      by rewrite get_bike_record_id, Hchosen. }
    split.
    { destruct Hkeyed as [Hnodup Htruthy]. unfold well_keyed. rewrite Hids. split.
      - apply NoDup_app. split; [done|]. split; [|apply NoDup_singleton].
        intros x Hx Hu. apply list_elem_of_singleton in Hu as ->. done.
      - intros id Hin. apply elem_of_app in Hin as [Hin|Hin]; [by apply Htruthy|].
        apply list_elem_of_singleton in Hin as ->. simpl.
        by destruct (randomUUID (uuids w)). }
    split; [done|]. split; [unfold w'; by rewrite Hdraws|].
    intros g. unfold local_id, findByGear. rewrite Hbikes, find_snoc.
    destruct (find _ (bikes d)); [done|].
    rewrite get_bike_record_gear.
    destruct (strict_eq (get e "gear_id") g); [|done].
    simpl. by rewrite get_bike_record_id, Hchosen.
Qed.

Lemma fresh_ids_next (n : nat) (d d' : data) :
  fresh_ids n d →
  bike_ids d' = bike_ids d ++ [VStr (randomUUID n)] →
  fresh_ids (S n) d'.
Proof.
  intros [Hnew Hinj] Hids. split.
  - intros k. rewrite Nat.add_succ_comm. destruct (Hnew (S k)) as [Hne Hnotin].
    split; [done|]. rewrite Hids. intros Hin.
    apply elem_of_app in Hin as [Hin|Hin]; [done|].
    apply list_elem_of_singleton in Hin. injection Hin as Hin.
    rewrite <- (Nat.add_0_r n) in Hin at 2. by apply Hinj in Hin.
  - intros k k'. rewrite !Nat.add_succ_comm. intros Heq.
    apply Hinj in Heq. lia.
Qed.

(** The loop of [syncBikes] over entries that carry a gear identifier. *)
Lemma for_of_syncBike_ids (es : list obj) :
  ∀ (d : data) (w : world),
    (∀ e, e ∈ es → truthy (get e "gear_id") = true) →
    well_keyed d →
    (∀ e, e ∈ es → is_Some (findByGear d (get e "gear_id")))
    ∨ fresh_ids (uuids w) d →
    ∃ d' w',
      for_of es syncBike d w = (Ok d', w')
      ∧ well_keyed d'
      ∧ uuids w ≤ uuids w'
      ∧ (∀ g id, local_id d g = Some id → local_id d' g = Some id)
      ∧ (∀ e, e ∈ es →
           ∃ id, local_id d' (get e "gear_id") = Some id
                 ∧ (local_id d (get e "gear_id") = None → drawn w w' id))
      ∧ ((∀ e, e ∈ es → is_Some (findByGear d (get e "gear_id"))) →
         uuids w' = uuids w).
Proof.
  induction es as [|e es IH]; intros d w Hgears Hkeyed Hcase.
  - exists d, w. split; [done|]. split; [done|]. split; [done|].
    split; [done|]. split; [|done]. intros e He. by apply elem_of_nil in He.
  - assert (truthy (get e "gear_id") = true) as Hgear by (apply Hgears; by left).
    destruct (syncBike_ids d e w Hgear Hkeyed) as (d1 & w1 & Hrun & Hkeyed1 & Hstep).
    { intros Hnone. destruct Hcase as [Hall|[Hnew _]].
      - destruct (Hall e) as [b Hb]; [by left|]. by rewrite Hb in Hnone.
      - specialize (Hnew 0). by rewrite Nat.add_0_r in Hnew. }
    assert (∀ g id, local_id d g = Some id → local_id d1 g = Some id) as Hmono1.
    { intros g id Hg. destruct (findByGear d (get e "gear_id"));
        destruct Hstep as (_ & _ & Hlocal); rewrite Hlocal; [done|by rewrite Hg]. }
    assert (uuids w ≤ uuids w1) as Hle1.
    { destruct (findByGear d (get e "gear_id"));
        destruct Hstep as (_ & -> & _); lia. }
    destruct (IH d1 w1) as (d' & w' & Hloop & Hkeyed' & Hle & Hmono & Hentries & Hquiet).
    { intros e' He'. apply Hgears. by right. }
    { done. }
    { destruct Hcase as [Hall|Hfresh].
      - left. intros e' He'. destruct (Hall e') as [b Hb]; [by right|].
        eapply local_id_is_Some, Hmono1. unfold local_id. by rewrite Hb.
      - destruct (findByGear d (get e "gear_id")).
        + right. destruct Hstep as (Hids & -> & _).
          destruct Hfresh as [Hnew Hinj]. split; [|done].
          intros k. by rewrite Hids.
        + right. destruct Hstep as (Hids & -> & _). by eapply fresh_ids_next. }
    exists d', w'. split; [cbn [for_of]; by erewrite bind_Ok|].
    split; [done|]. split; [lia|]. split; [by intros g id Hg; apply Hmono, Hmono1|].
    split.
    + intros e' He'. apply elem_of_cons in He' as [->|He'].
      * destruct (findByGear d (get e "gear_id")) as [b|] eqn:Hfind.
        -- exists (get b "id"). split; [|unfold local_id; by rewrite Hfind].
           apply Hmono, Hmono1. unfold local_id. by rewrite Hfind.
        -- destruct Hstep as (_ & Huuids & Hlocal).
           exists (VStr (randomUUID (uuids w))). split.
           ++ apply Hmono. rewrite Hlocal. unfold local_id. rewrite Hfind. simpl.
              by rewrite strict_eq_refl.
           ++ intros _. exists 0. rewrite Nat.add_0_r. split; [lia|done].
      * destruct (Hentries e' He') as (id & Hid & Hdrawn).
        exists id. split; [done|]. intros Hnone.
        destruct (local_id d1 (get e' "gear_id")) as [x|] eqn:Hx.
        -- destruct (findByGear d (get e "gear_id")).
           ++ destruct Hstep as (_ & _ & Hlocal). rewrite Hlocal in Hx. congruence.
           ++ destruct Hstep as (_ & Huuids & Hlocal).
              rewrite Hlocal, Hnone in Hx.
              destruct (strict_eq (get e "gear_id") (get e' "gear_id")) eqn:Hs;
                [|done].
              assert (local_id d' (get e' "gear_id")
                      = Some (VStr (randomUUID (uuids w)))) as Hid'.
              { apply Hmono. by rewrite Hlocal, Hnone, Hs. }
              exists 0. rewrite Nat.add_0_r. split; [lia|congruence].
        -- destruct (Hdrawn eq_refl) as (k & Hk & ->).
           destruct (findByGear d (get e "gear_id")).
           ++ destruct Hstep as (_ & Huuids & _). exists k. by rewrite <- Huuids.
           ++ destruct Hstep as (_ & Huuids & _). exists (S k).
              rewrite Huuids in *. rewrite <- Nat.add_succ_comm. split; [lia|done].
    + intros Hall. rewrite Hquiet.
      * destruct (Hall e) as [b Hb]; [by left|]. rewrite Hb in Hstep.
        by destruct Hstep as (_ & -> & _).
      * intros e' He'. destruct (Hall e') as [b Hb]; [by right|].
        eapply local_id_is_Some, Hmono1. unfold local_id. by rewrite Hb.
Qed.

Lemma bike_ids_json_data (d : data) :
  well_keyed d → bike_ids (json_data d) = bike_ids d.
Proof.
  intros Hkeyed. unfold bike_ids. cbn [bikes json_data].
  rewrite <- list_fmap_compose. apply list_fmap_ext. intros i b Hb. simpl.
  apply get_json_obj_truthy. eapply well_keyed_truthy; [done|].
  by eapply list_elem_of_lookup_2.
Qed.

Lemma well_keyed_json_data (d : data) : well_keyed d → well_keyed (json_data d).
Proof. intros Hkeyed. unfold well_keyed. by rewrite bike_ids_json_data. Qed.

Lemma local_id_json_data (d : data) (g : value) :
  well_keyed d → truthy g = true → local_id (json_data d) g = local_id d g.
Proof.
  intros Hkeyed Hg. unfold local_id. rewrite findByGear_json_data by done.
  destruct (findByGear d g) as [b|] eqn:Hb; [|done]. simpl. f_equal.
  apply get_json_obj_truthy. eapply well_keyed_truthy; [done|].
  destruct (find_Some_first _ _ _ Hb) as (i & Hi & _).
  by eapply list_elem_of_lookup_2.
Qed.

Lemma is_bike_filter (gears : list obj) (g : obj) :
  g ∈ List.filter is_bike gears ↔ g ∈ gears ∧ is_bike g = true.
Proof. by rewrite !list_elem_of_In, filter_In. Qed.

Lemma is_bike_gear (g : obj) : is_bike g = true → truthy (get g "gear_id") = true.
Proof. unfold is_bike. by intros [_ ?]%andb_prop. Qed.

End local_ids.

(** C7.  In a store where every bike has a local identifier and no two
    bikes share one, and with a [crypto.randomUUID] that gives new
    identifiers, [syncBikes] keeps local identifiers stable.  It returns and
    writes a store of the same kind.  For every resolved gear entry that
    carries a gear identifier: when a bike of the store had that
    [stravaGearId], the gear identifier is matched to the same local
    identifier after the sync; when none had, it is matched to an identifier
    drawn during this sync.  When every such entry had a bike, no identifier
    is drawn at all.  And whenever the same gear list is synced again on the
    store that was written, no identifier is drawn and every one of these
    gear identifiers is matched to the local identifier it had. *)
Theorem syncBikes_local_ids_stable `{E : env}
    (stravaClient : StravaClientI) (athleteId : value) (gears : list obj)
    (d : data) (w w1 : world) :
  getGears stravaClient w = (Ok gears, w1) →
  disk w1 = Some d →
  well_keyed d →
  fresh_ids (uuids w1) d →
  ∃ counts w' d',
    syncBikes stravaClient athleteId w = (Ok counts, w')
    ∧ disk w' = Some d'
    ∧ well_keyed d'
    ∧ (∀ g, g ∈ gears → is_bike g = true →
         match local_id d (get g "gear_id") with
         | Some id => local_id d' (get g "gear_id") = Some id
         | None => ∃ id, local_id d' (get g "gear_id") = Some id ∧ drawn w1 w' id
         end)
    ∧ ((∀ g, g ∈ gears → is_bike g = true →
             is_Some (findByGear d (get g "gear_id"))) →
       uuids w' = uuids w1)
    ∧ ∀ again again1,
        getGears stravaClient again = (Ok gears, again1) →
        disk again1 = Some d' →
        ∃ counts' w'' d'',
          syncBikes stravaClient athleteId again = (Ok counts', w'')
          ∧ disk w'' = Some d''
          ∧ uuids w'' = uuids again1
          ∧ ∀ g, g ∈ gears → is_bike g = true →
              local_id d'' (get g "gear_id") = local_id d' (get g "gear_id").
Proof.
  intros Hgears Hd Hkeyed Hfresh.
  assert (∀ e, e ∈ List.filter is_bike gears → truthy (get e "gear_id") = true)
    as Hcarry.
  { intros e He. apply is_bike_filter in He as [_ He]. by apply is_bike_gear. }
  destruct (for_of_syncBike_ids (List.filter is_bike gears) d w1 Hcarry Hkeyed
              (or_intror Hfresh))
    as (d1 & w3 & Hloop & Hkeyed1 & Hle & Hmono & Hentries & Hquiet).
  exists (length (List.filter is_bike gears), length (List.filter is_shoe gears)),
         (set_disk w3 (Some (json_data d1))), (json_data d1).
  split.
  { eapply syncBikes_eq; [exact Hgears|by apply loadData_Some|exact Hloop]. }
  split; [reflexivity|]. split; [by apply well_keyed_json_data|].
  assert (∀ g, g ∈ gears → is_bike g = true →
            ∃ id, local_id (json_data d1) (get g "gear_id") = Some id
                  ∧ local_id d1 (get g "gear_id") = Some id
                  ∧ (local_id d (get g "gear_id") = None → drawn w1 w3 id))
    as Hwritten.
  { intros g Hg Hbike.
    destruct (Hentries g) as (id & Hid & Hdrawn); [by apply is_bike_filter|].
    exists id. rewrite local_id_json_data by (done || by apply is_bike_gear). done. }
  split; [|split].
  - intros g Hg Hbike.
    destruct (Hwritten g Hg Hbike) as (id & Hid & Hid1 & Hdrawn).
    destruct (local_id d (get g "gear_id")) as [id0|] eqn:Hbefore.
    + rewrite Hid. f_equal. apply Hmono in Hbefore. congruence.
    + exists id. split; [done|].
      destruct (Hdrawn eq_refl) as (k & Hk & ->). by exists k.
  - intros Hall. cbn [uuids set_disk]. apply Hquiet.
    intros e He. apply is_bike_filter in He as [He Hbike]. by apply Hall.
  - intros again again1 Hgears2 Hd2.
    destruct (for_of_syncBike_ids (List.filter is_bike gears) (json_data d1) again1
                Hcarry (well_keyed_json_data d1 Hkeyed1))
      as (d2 & w4 & Hloop2 & Hkeyed2 & _ & Hmono2 & _ & Hquiet2).
    { left. intros e He. apply is_bike_filter in He as [He Hbike].
      destruct (Hwritten e He Hbike) as (id & Hid & _).
      by eapply local_id_is_Some. }
    exists (length (List.filter is_bike gears), length (List.filter is_shoe gears)),
           (set_disk w4 (Some (json_data d2))), (json_data d2).
    split.
    { eapply syncBikes_eq; [exact Hgears2|by apply loadData_Some|exact Hloop2]. }
    split; [reflexivity|]. split.
    + cbn [uuids set_disk]. apply Hquiet2.
      intros e He. apply is_bike_filter in He as [He Hbike].
      destruct (Hwritten e He Hbike) as (id & Hid & _).
      by eapply local_id_is_Some.
    + intros g Hg Hbike. destruct (Hwritten g Hg Hbike) as (id & Hid & _).
      rewrite local_id_json_data by (done || by apply is_bike_gear).
      rewrite Hid. by apply Hmono2.
Qed.

Lemma offline_fresh_ids (n : nat) (d : data) :
  (∀ id, id ∈ bike_ids d → ∀ k, id ≠ VStr (randomUUID (env := offline) k)) →
  fresh_ids (E := offline) n d.
Proof.
  intros Hother. split.
  - intros k. split; [discriminate|]. intros Hin. by eapply Hother.
  - intros k k' Heq. cbn [randomUUID offline] in Heq.
    apply (inj (String.append "uuid-")) in Heq.
    apply (inj pretty) in Heq. lia.
Qed.

Lemma syncBikes_local_ids_stable_witness :
  ∃ counts w' d',
    syncBikes (E := offline) (scripted (Ok garage) (λ _, Ok None)) (VNum 7)
              (world_of one_bike) = (Ok counts, w')
    ∧ disk w' = Some d'
    ∧ well_keyed d'
    ∧ (∀ g, g ∈ garage → is_bike g = true →
         match local_id one_bike (get g "gear_id") with
         | Some id => local_id d' (get g "gear_id") = Some id
         | None => ∃ id, local_id d' (get g "gear_id") = Some id
                         ∧ drawn (E := offline) (world_of one_bike) w' id
         end)
    ∧ ((∀ g, g ∈ garage → is_bike g = true →
             is_Some (findByGear one_bike (get g "gear_id"))) →
       uuids w' = uuids (world_of one_bike))
    ∧ ∀ again again1,
        getGears (scripted (Ok garage) (λ _, Ok None)) again = (Ok garage, again1) →
        disk again1 = Some d' →
        ∃ counts' w'' d'',
          syncBikes (E := offline) (scripted (Ok garage) (λ _, Ok None)) (VNum 7) again
            = (Ok counts', w'')
          ∧ disk w'' = Some d''
          ∧ uuids w'' = uuids again1
          ∧ ∀ g, g ∈ garage → is_bike g = true →
              local_id d'' (get g "gear_id") = local_id d' (get g "gear_id").
Proof.
  apply (syncBikes_local_ids_stable (E := offline)
           (scripted (Ok garage) (λ _, Ok None)) (VNum 7) garage one_bike
           (world_of one_bike) (world_of one_bike)).
  - reflexivity.
  - reflexivity.
  - split.
    + apply NoDup_singleton.
    + intros id Hid. apply list_elem_of_singleton in Hid as ->. reflexivity.
  - apply offline_fresh_ids. intros id Hid k.
    apply list_elem_of_singleton in Hid as ->. discriminate.
Defined.

(** C7, as the specification states it for every store, fails on a store
    whose bike for the gear has no local identifier: the gear entry has a
    bike with its [stravaGearId], and the sync generates an identifier all
    the same. *)
Lemma matched_bike_without_id_draws :
  ¬ fresh_id_only_without_match (E := offline)
      (scripted (Ok [gear 3 "b101" "Tarmac SL7"]) (λ _, Ok None)) (VNum 7)
      (world_of bike_without_id).
Proof.
  intros Hspec.
  specialize (Hspec [gear 3 "b101" "Tarmac SL7"] (world_of bike_without_id)
                bike_without_id (1, 0)
                (syncBikes (E := offline)
                   (scripted (Ok [gear 3 "b101" "Tarmac SL7"]) (λ _, Ok None)) (VNum 7)
                   (world_of bike_without_id)).2
                eq_refl eq_refl).
  assert (uuids (syncBikes (E := offline)
                   (scripted (Ok [gear 3 "b101" "Tarmac SL7"]) (λ _, Ok None)) (VNum 7)
                   (world_of bike_without_id)).2 = 1) as Hdrawn
    by (vm_compute; reflexivity).
  rewrite Hspec in Hdrawn; [done| |].
  - vm_compute. reflexivity.
  - intros g Hg _. apply list_elem_of_singleton in Hg as ->.
    vm_compute. by eexists.
Qed.
